(** * Blob engine of the hive Engine-API simulator: a shallow embedding

    The Go sources embedded here are
    - [simulators/ethereum/engine/helper/blobs.go]  (blob identifiers, the
      deterministic blob synthesizer),
    - [simulators/ethereum/engine/types/blobs.go]   (versioned hashes, the
      commitment engine),
    - [simulators/ethereum/engine/suites/blobs/steps.go] (test steps and the
      payload verification),
    - the fork configuration ([package config]),
    - the execution payload types of [package types] and their conversions,
    - [simulators/ethereum/engine/config/prague/genesis.go] (the genesis
      block of the Prague fork).

    Conventions.  A Go [uint64] is a [Z] in the range [0, 2^64); every
    arithmetic operation of the source is followed by [wrap64].  A Go [byte]
    is a [Z] in the range [0, 256).  Fixed-size arrays and slices are lists,
    read with [!!] and written with [<[i:=x]>]; a pointer that the source
    compares with [nil] is an [option].  A Go [error] is the text that its
    [Error()] method prints. *)

From Stdlib Require Import ZArith Lia String Ascii.
From stdpp Require Import base list gmap strings pretty.

Local Open Scope Z_scope.

(** ** Machine integers and loops *)

Definition wrap64 (z : Z) : Z := z mod 2 ^ 64.
Definition wrap8 (z : Z) : Z := z mod 2 ^ 8.

Definition is_byte (b : Z) : Prop := 0 ≤ b < 256.
Definition is_uint64 (z : Z) : Prop := 0 ≤ z < 2 ^ 64.

(** [for i := lo; i < lo + n; i++ { s = body i s }] *)
Fixpoint for_range {St : Type} (lo : nat) (n : nat)
    (body : nat → St → St) (s : St) : St :=
  match n with
  | O => s
  | S n' => for_range (S lo) n' body (body lo s)
  end.

(** ** go-ethereum, core/types: the transaction type bytes *)

Module gethtypes.

Definition LegacyTxType : Z := 0x00.
Definition AccessListTxType : Z := 0x01.
Definition DynamicFeeTxType : Z := 0x02.
Definition BlobTxType : Z := 0x03.

End gethtypes.

(** ** package config: fork activation *)

Module config.

(** [type Fork string] and its constants. *)
Definition Fork := string.
Definition NA : Fork := EmptyString.
Definition London : Fork := "London"%string.
Definition Paris : Fork := "Paris"%string.
Definition Shanghai : Fork := "Shanghai"%string.
Definition Cancun : Fork := "Cancun"%string.
Definition Prague : Fork := "Prague"%string.

Definition PreviousFork (f : Fork) : Fork :=
  if String.eqb f Paris then London
  else if String.eqb f Shanghai then Paris
  else if String.eqb f Cancun then Shanghai
  else if String.eqb f Prague then Cancun
  else NA.

(** [*big.Int] timestamps: [None] is the nil pointer. *)
Record ForkConfig := {
  ShanghaiTimestamp : option Z;
  CancunTimestamp : option Z;
  PragueTimestamp : option Z;
}.

(** [ts != nil && new(big.Int).SetUint64(blockTimestamp).Cmp(ts) >= 0] *)
Definition active (ts : option Z) (blockTimestamp : Z) : bool :=
  match ts with
  | None => false
  | Some t => t <=? blockTimestamp
  end.

Definition IsShanghai (f : ForkConfig) (blockTimestamp : Z) : bool :=
  active (ShanghaiTimestamp f) blockTimestamp.
Definition IsCancun (f : ForkConfig) (blockTimestamp : Z) : bool :=
  active (CancunTimestamp f) blockTimestamp.
Definition IsPrague (f : ForkConfig) (blockTimestamp : Z) : bool :=
  active (PragueTimestamp f) blockTimestamp.

Definition ForkchoiceUpdatedVersion (f : ForkConfig) (headTimestamp : Z)
    (payloadAttributesTimestamp : option Z) : Z :=
  let timestamp := default headTimestamp payloadAttributesTimestamp in
  if IsCancun f timestamp || IsPrague f timestamp then 3
  else if IsShanghai f timestamp then 2
  else 1.

Definition GetPayloadVersion (f : ForkConfig) (timestamp : Z) : Z :=
  if IsPrague f timestamp then 4
  else if IsCancun f timestamp then 3
  else if IsShanghai f timestamp then 2
  else 1.

Definition NewPayloadVersion (f : ForkConfig) (timestamp : Z) : Z :=
  GetPayloadVersion f timestamp.

Definition GetSupportedTransactionTypes (f : ForkConfig) (timestamp : Z)
    : list Z :=
  if IsPrague f timestamp then
    [ gethtypes.BlobTxType; gethtypes.LegacyTxType; gethtypes.DynamicFeeTxType ]
  else if IsCancun f timestamp || IsPrague f timestamp then
    [ gethtypes.BlobTxType; gethtypes.LegacyTxType; gethtypes.DynamicFeeTxType ]
  else
    [ gethtypes.LegacyTxType; gethtypes.DynamicFeeTxType ].

(** The ordering of activation times the policy is written for: an earlier
    fork, when configured together with a later one, activates no later. *)
Definition le_when_present (a b : option Z) : Prop :=
  match a, b with
  | Some x, Some y => x ≤ y
  | _, _ => True
  end.

Definition ordered (f : ForkConfig) : Prop :=
  le_when_present (ShanghaiTimestamp f) (CancunTimestamp f) ∧
  le_when_present (CancunTimestamp f) (PragueTimestamp f) ∧
  le_when_present (ShanghaiTimestamp f) (PragueTimestamp f).

End config.

(** ** encoding/binary (Go standard library): big-endian encodings *)

Module binary.

Definition PutUint32 (w : Z) : list Z :=
  [ (w / 2 ^ 24) mod 256; (w / 2 ^ 16) mod 256; (w / 2 ^ 8) mod 256; w mod 256 ].
Definition PutUint64 (w : Z) : list Z := PutUint32 (w / 2 ^ 32) ++ PutUint32 w.

End binary.

(** ** crypto/sha256 (Go standard library): SHA-256 of FIPS 180-4

    [Sum256] takes and returns bytes.  Words are 32-bit, kept in range by
    [w32]. *)

Module sha256.

Definition w32 (x : Z) : Z := x mod 2 ^ 32.
Definition add32 (x y : Z) : Z := w32 (x + y).
Definition rotr (n x : Z) : Z :=
  Z.lor (Z.shiftr x n) (w32 (Z.shiftl x (32 - n))).
Definition not32 (x : Z) : Z := Z.lxor x 0xffffffff.

Definition Ch (x y z : Z) : Z := Z.lxor (Z.land x y) (Z.land (not32 x) z).
Definition Maj (x y z : Z) : Z :=
  Z.lxor (Z.lxor (Z.land x y) (Z.land x z)) (Z.land y z).
Definition bsig0 (x : Z) : Z :=
  Z.lxor (Z.lxor (rotr 2 x) (rotr 13 x)) (rotr 22 x).
Definition bsig1 (x : Z) : Z :=
  Z.lxor (Z.lxor (rotr 6 x) (rotr 11 x)) (rotr 25 x).
Definition ssig0 (x : Z) : Z :=
  Z.lxor (Z.lxor (rotr 7 x) (rotr 18 x)) (Z.shiftr x 3).
Definition ssig1 (x : Z) : Z :=
  Z.lxor (Z.lxor (rotr 17 x) (rotr 19 x)) (Z.shiftr x 10).

(** The constants of the standard are the first 32 bits of the fractional
    parts of roots of the first primes: cube roots of the first sixty-four
    for the round constants, square roots of the first eight for the
    initial hash value. *)
Definition is_prime (p : Z) : bool :=
  forallb (λ d, negb (p mod d =? 0)) (seqZ 2 (p - 2)).

Definition primes : list Z := filter (λ p, is_prime p = true) (seqZ 2 310).

(** The integer part of the [k]-th root of [n], found bit by bit from bit
    [bits - 1] down. *)
Fixpoint iroot (k n : Z) (bits : nat) (r : Z) : Z :=
  match bits with
  | O => r
  | S b =>
      let r' := r + 2 ^ Z.of_nat b in
      iroot k n b (if r' ^ k <=? n then r' else r)
  end.

Definition frac_root (k p : Z) : Z := w32 (iroot k (p * 2 ^ (32 * k)) 40 0).

Definition K : list Z := frac_root 3 <$> primes.

Definition H0 : list Z := frac_root 2 <$> take 8 primes.

Fixpoint words (n : nat) (bs : list Z) : list Z :=
  match n with
  | O => []
  | S n' =>
      match bs with
      | b0 :: b1 :: b2 :: b3 :: rest =>
          (((b0 * 256 + b1) * 256 + b2) * 256 + b3) :: words n' rest
      | _ => []
      end
  end.

(** Message padding: a one bit, zeros up to 56 modulo 64, then the bit
    length on eight bytes. *)
Definition pad (msg : list Z) : list Z :=
  let len := Z.of_nat (length msg) in
  let zeros := Z.to_nat ((55 - len) mod 64) in
  msg ++ [0x80] ++ replicate zeros 0 ++ binary.PutUint64 (wrap64 (8 * len)).

Definition nth0 (l : list Z) (i : nat) : Z := default 0 (l !! i).

(** One round: [ws] holds the sixteen schedule words W[t..t+15]. *)
Definition round (st : list Z * list Z) (k : Z) : list Z * list Z :=
  let '(ws, v) := st in
  let a := nth0 v 0 in let b := nth0 v 1 in
  let c := nth0 v 2 in let d := nth0 v 3 in
  let e := nth0 v 4 in let f := nth0 v 5 in
  let g := nth0 v 6 in let h := nth0 v 7 in
  let w := nth0 ws 0 in
  let t1 := add32 (add32 (add32 (add32 h (bsig1 e)) (Ch e f g)) k) w in
  let t2 := add32 (bsig0 a) (Maj a b c) in
  let wnext :=
    add32 (add32 (add32 (ssig1 (nth0 ws 14)) (nth0 ws 9)) (ssig0 (nth0 ws 1)))
          (nth0 ws 0) in
  (drop 1 ws ++ [wnext], [add32 t1 t2; a; b; c; add32 d t1; e; f; g]).

Definition compress (h : list Z) (block : list Z) : list Z :=
  let '(_, v) := foldl round (words 16 block, h) K in
  zip_with add32 h v.

Fixpoint blocks (n : nat) (h : list Z) (bs : list Z) : list Z :=
  match n with
  | O => h
  | S n' => blocks n' (compress h (take 64 bs)) (drop 64 bs)
  end.

Definition digest_words (msg : list Z) : list Z :=
  let p := pad msg in
  blocks (length p / 64)%nat H0 p.

Definition Sum256 (msg : list Z) : list Z :=
  let h := digest_words msg in
  binary.PutUint32 (nth0 h 0) ++ binary.PutUint32 (nth0 h 1) ++
  binary.PutUint32 (nth0 h 2) ++ binary.PutUint32 (nth0 h 3) ++
  binary.PutUint32 (nth0 h 4) ++ binary.PutUint32 (nth0 h 5) ++
  binary.PutUint32 (nth0 h 6) ++ binary.PutUint32 (nth0 h 7).

End sha256.

(** ** Errors and byte slices *)

Definition error := string.

Inductive result (A : Type) : Type :=
  | Ok (a : A)
  | Err (e : error).
Arguments Ok {A} a.
Arguments Err {A} e.

(** A call returns or panics. *)
Inductive outcome (A : Type) : Type :=
  | Returned (a : A)
  | Panicked (msg : string).
Arguments Returned {A} a.
Arguments Panicked {A} msg.

(** [strings.Contains] *)
Fixpoint contains (s substr : string) : bool :=
  if String.prefix substr s then true
  else match s with
       | EmptyString => false
       | String _ s' => contains s' substr
       end.

(** The verbs of [fmt] that the source uses: [%x] and [%d] of an unsigned
    integer, and the hexadecimal text of a byte string. *)
Definition hex_digit (d : Z) : ascii :=
  ascii_of_nat (Z.to_nat (if d <? 10 then 48 + d else 87 + d)).

Fixpoint fmt_x_from (fuel : nat) (z : Z) (acc : string) : string :=
  match fuel with
  | O => acc
  | S fuel' =>
      let acc := String (hex_digit (z mod 16)) acc in
      if z / 16 =? 0 then acc else fmt_x_from fuel' (z / 16) acc
  end.

Definition fmt_x (z : Z) : string := fmt_x_from 16 z "".
Definition fmt_d (z : Z) : string := pretty z.

Definition hex_EncodeToString (bs : list Z) : string :=
  foldr (λ b acc, String (hex_digit (b / 16)) (String (hex_digit (b mod 16)) acc))
    ""%string bs.

(** [l[i]] for an index the source keeps in range. *)
Definition byte_at (l : list Z) (i : nat) : Z := default 0 (l !! i).

(** [l[lo:hi]] *)
Definition slice (l : list Z) (lo hi : nat) : list Z := take (hi - lo) (drop lo l).

(** [bytes.Equal] *)
Definition bytes_Equal (a b : list Z) : bool := bool_decide (a = b).

(** [copy(dst[off:], src)], one element at a time. *)
Fixpoint copy_at (dst : list Z) (off : nat) (src : list Z) : list Z :=
  match src with
  | [] => dst
  | x :: src' => copy_at (<[off := x]> dst) (S off) src'
  end.

(** A byte string read as a big-endian integer. *)
Definition be_int (l : list Z) : Z := foldl (λ acc b, acc * 256 + b) 0 l.

(** [errors.Wrap] of github.com/pkg/errors: the message, a colon and the
    text of the wrapped error. *)
Definition errors_Wrap (err : error) (message : string) : error :=
  String.append message (String.append ": " err).

(** [common.BytesToHash] of go-ethereum: a slice longer than the hash is
    cropped from the left, a shorter one is copied to the right end. *)
Definition BytesToHash (b : list Z) : list Z :=
  let b := if (32 <? length b)%nat then drop (length b - 32) b else b in
  copy_at (replicate 32 0) (32 - length b) b.

(** *** encoding/hex (Go standard library): decoding

    A text is a [string]: its characters are the bytes of the Go slice. *)

(** [text[i]] for an index the source keeps in range, and [text[n:]]. *)
Definition char_at (text : string) (i : nat) : ascii :=
  default Ascii.zero (String.get i text).

Fixpoint string_from (n : nat) (text : string) : string :=
  match n, text with
  | O, _ => text
  | S n', String _ text' => string_from n' text'
  | S _, EmptyString => EmptyString
  end.

(** [reverseHexTable]: the value of a hexadecimal digit of either case,
    [0xff] for every other byte. *)
Definition fromHexChar (c : ascii) : Z :=
  let n := Z.of_nat (nat_of_ascii c) in
  if (48 <=? n) && (n <=? 57) then n - 48
  else if (97 <=? n) && (n <=? 102) then n - 97 + 10
  else if (65 <=? n) && (n <=? 70) then n - 65 + 10
  else 0xff.

Inductive hex_error :=
  | InvalidByteError (c : ascii)
  | ErrLength.

(** [hex.Decode(dst, src)], from the byte index [i] on: the buffer after the
    call, the number of bytes written and the error.  The bytes decoded
    before an invalid character stay written. *)
Fixpoint hex_Decode (dst : list Z) (i : nat) (src : string)
    : list Z * nat * option hex_error :=
  match src with
  | EmptyString => (dst, i, None)
  | String p EmptyString =>
      if 0x0f <? fromHexChar p then (dst, i, Some (InvalidByteError p))
      else (dst, i, Some ErrLength)
  | String p (String q src') =>
      let a := fromHexChar p in
      let b := fromHexChar q in
      if 0x0f <? a then (dst, i, Some (InvalidByteError p))
      else if 0x0f <? b then (dst, i, Some (InvalidByteError q))
      else hex_Decode (<[i := Z.lor (Z.shiftl a 4) b]> dst) (S i) src'
  end.

(** ** package types: versioned hashes and the commitment engine *)

Module types.

Definition BlobCommitmentVersionKZG : Z := 0x01.
Definition FieldElementsPerBlob : nat := 4096.

Definition KZGCommitment := list Z.   (* [48]byte *)
Definition KZGProof := list Z.        (* [48]byte *)
Definition Hash := list Z.            (* common.Hash, [32]byte *)
Definition Blob := list Z.            (* [FieldElementsPerBlob * 32]byte *)
Definition Blobs := list Blob.

Definition blob_size : nat := (FieldElementsPerBlob * 32)%nat.

Definition KZGToVersionedHash (kzg : KZGCommitment) : Hash :=
  let h := sha256.Sum256 kzg in
  <[0%nat := BlobCommitmentVersionKZG]> h.

Definition ComputeVersionedHash (c : KZGCommitment) : Hash :=
  KZGToVersionedHash c.

(** The two operations of [gokzg4844.Context] that the engine calls; the
    last argument is the number of goroutines. *)
Record Context := {
  BlobToKZGCommitment : Blob → Z → result KZGCommitment;
  ComputeBlobKZGProof : Blob → KZGCommitment → Z → result KZGProof;
}.

Definition outputs : Type :=
  list KZGCommitment * list Hash * list KZGProof * option error.

(** The body of [for i, blob := range blobs], from index [i] on; [nil]
    slices are the empty list. *)
Fixpoint commit_loop (cryptoCtx : Context) (i : nat) (rest : Blobs)
    (commitments : list KZGCommitment) (versionedHashes : list Hash)
    (proofs : list KZGProof) : outputs :=
  match rest with
  | [] => (commitments, versionedHashes, proofs, None)
  | blob :: rest' =>
      match BlobToKZGCommitment cryptoCtx blob 1 with
      | Err err =>
          ([], [], [],
           Some (String.append "could not convert blob to commitment: " err))
      | Ok commitment =>
          match ComputeBlobKZGProof cryptoCtx blob commitment 1 with
          | Err err =>
              ([], [], [],
               Some (String.append "could not compute proof for blob: " err))
          | Ok proof =>
              commit_loop cryptoCtx (S i) rest'
                (<[i := commitment]> commitments)
                (<[i := KZGToVersionedHash commitment]> versionedHashes)
                (<[i := proof]> proofs)
          end
      end
  end.

Definition ComputeCommitmentsAndProofs (blobs : Blobs) (cryptoCtx : Context)
    : outputs :=
  let commitments := replicate (length blobs) (replicate 48 0) in
  let proofs := replicate (length blobs) (replicate 48 0) in
  let versionedHashes := replicate (length blobs) (replicate 32 0) in
  commit_loop cryptoCtx 0 blobs commitments versionedHashes proofs.

(** What happens to one blob: the commitment or the proof computation
    fails with an underlying error, or both succeed. *)
Definition fails_with (cryptoCtx : Context) (blob : Blob) (e : error) : Prop :=
  BlobToKZGCommitment cryptoCtx blob 1 = Err e ∨
  ∃ c, BlobToKZGCommitment cryptoCtx blob 1 = Ok c ∧
       ComputeBlobKZGProof cryptoCtx blob c 1 = Err e.

Definition succeeds (cryptoCtx : Context) (blob : Blob) : Prop :=
  ∃ c p, BlobToKZGCommitment cryptoCtx blob 1 = Ok c ∧
         ComputeBlobKZGProof cryptoCtx blob c 1 = Ok p.

(** The first blob that fails is the one at index [i]. *)
Definition first_failure (cryptoCtx : Context) (blobs : Blobs) (i : nat)
    (e : error) : Prop :=
  (∃ blob, blobs !! i = Some blob ∧ fails_with cryptoCtx blob e) ∧
  ∀ (j : nat) b, (j < i)%nat → blobs !! j = Some b → succeeds cryptoCtx b.

(** An error text that names the index of the blob that failed: it shows
    the underlying error and the index in decimal. *)
Definition error_names_index (err : option error) (i : nat) (e : error) : Prop :=
  ∃ msg, err = Some msg ∧ contains msg e = true ∧ contains msg (pretty i) = true.

(** *** The text form of a blob

    [Blob] is an array of [FieldElementsPerBlob * 32] bytes: the functions
    below are applied to lists of that length. *)

Definition Blob_MarshalText (blob : Blob) : string * option error :=
  (String.append "0x" (hex_EncodeToString blob), None).

Definition Blob_String (blob : Blob) : string :=
  match Blob_MarshalText blob with
  | (_, Some _) => "<invalid-blob>"%string
  | (v, None) => v
  end.

Section blob_text.

(** [InvalidByteError.Error()] of encoding/hex shows the byte with the verb
    [%#U] of [fmt]; that text is taken as given. *)
Variable InvalidByteError_Error : ascii → error.

Definition hex_error_Error (err : hex_error) : error :=
  match err with
  | InvalidByteError c => InvalidByteError_Error c
  | ErrLength => "encoding/hex: odd length hex string"%string
  end.

(** [UnmarshalText] writes through its receiver: the first component is the
    blob after the call. *)
Definition Blob_UnmarshalText (blob : option Blob) (text : string)
    : option Blob * option error :=
  match blob with
  | None => (None, Some "cannot decode text into nil Blob"%string)
  | Some blob =>
      let l := (2 + FieldElementsPerBlob * 32 * 2)%nat in
      if negb (String.length text =? l)%nat then
        (Some blob,
         Some (String.append "expected "
                 (String.append (fmt_d (Z.of_nat l))
                    (String.append " characters but got "
                       (fmt_d (Z.of_nat (String.length text)))))))
      else if negb (Ascii.eqb (char_at text 0) "0" && Ascii.eqb (char_at text 1) "x")
      then (Some blob, Some "expected '0x' prefix in Blob string"%string)
      else
        match hex_Decode blob 0 (string_from 2 text) with
        | (blob, _, Some err) =>
            (Some blob,
             Some (String.append "blob is not formatted correctly: "
                     (hex_error_Error err)))
        | (blob, _, None) => (Some blob, None)
        end
  end.

End blob_text.

(** *** The blobs bundle of an execution payload *)

(** [Commitments] is compared with [nil]. *)
Record BlobsBundle := {
  bundle_Commitments : option (list KZGCommitment);
  bundle_Blobs : list Blob;
  bundle_Proofs : list KZGProof;
}.

Definition BlobsBundle_VersionedHashes (bb : option BlobsBundle)
    (commitmentVersion : Z) : option (list Hash) * option error :=
  match bb with
  | None => (None, Some "nil blob bundle"%string)
  | Some bb =>
      match bundle_Commitments bb with
      | None => (None, Some "nil commitments"%string)
      | Some commitments =>
          let versionedHashes :=
            replicate (length commitments) (replicate 32 0) in
          let versionedHashes :=
            for_range 0 (length commitments)
              (λ i versionedHashes,
                 let commitment := default [] (commitments !! i) in
                 let sha256Hash := sha256.Sum256 commitment in
                 <[i := BytesToHash ([commitmentVersion] ++ drop 1 sha256Hash)]>
                   versionedHashes)
              versionedHashes in
          (Some versionedHashes, None)
      end
  end.

End types.

(** ** github.com/crate-crypto/go-kzg-4844: the scalar field modulus

    [BlsModulus] is a constant of that library, 32 bytes, most significant
    first.  The synthesizer below takes the modulus as a parameter; this is
    the value the library gives it. *)

Module gokzg4844.

Definition BlsModulus : list Z :=
  [ 0x73; 0xed; 0xa7; 0x53; 0x29; 0x9d; 0x7d; 0x48;
    0x33; 0x39; 0xd8; 0x08; 0x09; 0xa1; 0xd8; 0x05;
    0x53; 0xbd; 0xa4; 0x02; 0xff; 0xfe; 0x5b; 0xfe;
    0xff; 0xff; 0xff; 0xff; 0x00; 0x00; 0x00; 0x01 ].

End gokzg4844.

(** ** package helper: blob identifiers and the deterministic blob synthesizer *)

Module helper.

(** *** Blob identifiers *)

Definition BlobID := Z.
Definition BlobIDs := list BlobID.

(** [make(BlobIDs, count)] *)
Definition make_ids (count : Z) : BlobIDs := replicate (Z.to_nat count) 0.

Definition GetBlobList (startId : BlobID) (count : Z) : BlobIDs :=
  let blobList := make_ids count in
  for_range 0 (Z.to_nat count)
    (λ i l, <[i := wrap64 (startId + Z.of_nat i)]> l) blobList.

Definition GetBlobListByIndex (startIndex endIndex : BlobID) : BlobIDs :=
  let count :=
    if startIndex <? endIndex
    then wrap64 (endIndex - startIndex + 1)
    else wrap64 (startIndex - endIndex + 1) in
  let blobList := make_ids count in
  if startIndex <? endIndex
  then for_range 0 (Z.to_nat count)
         (λ i l, <[i := wrap64 (startIndex + Z.of_nat i)]> l) blobList
  else for_range 0 (Z.to_nat count)
         (λ i l, <[i := wrap64 (endIndex - Z.of_nat i)]> l) blobList.

(** What the index-range form is meant to return: the identifiers from
    [a] to [b] inclusive, walking up or down. *)
Definition ascending (a : BlobID) (n : nat) : BlobIDs :=
  (λ i : nat, a + Z.of_nat i) <$> seq 0 n.
Definition descending (a : BlobID) (n : nat) : BlobIDs :=
  (λ i : nat, a - Z.of_nat i) <$> seq 0 n.

(** *** Filling and verifying blobs *)

(** The digests written to the chunks 0, 1, ...: each is the hash of the
    one before. *)
Fixpoint digests (n : nat) (currentHashed : list Z) : list (list Z) :=
  match n with
  | O => []
  | S n' => currentHashed :: digests n' (sha256.Sum256 currentHashed)
  end.

Section synthesizer.

Variable BlsModulus : list Z.

(** The clamping loop of [VerifyBlob], [for i := ...; i < 32; i++], on the
    local array [expectedFieldElem]; [fuel] is [32 - i]. *)
Fixpoint clamp_elem (i fuel : nat) (expectedFieldElem : list Z) : list Z :=
  match fuel with
  | O => expectedFieldElem
  | S fuel' =>
      let blobByteIdx := i in
      if byte_at expectedFieldElem blobByteIdx <? byte_at BlsModulus i then
        expectedFieldElem
      else if byte_at BlsModulus i <=? byte_at expectedFieldElem blobByteIdx then
        if 0 <? byte_at BlsModulus i then
          <[blobByteIdx := wrap8 (byte_at BlsModulus i - 1)]> expectedFieldElem
        else
          clamp_elem (S i) fuel'
            (<[blobByteIdx := byte_at BlsModulus i]> expectedFieldElem)
      else clamp_elem (S i) fuel' expectedFieldElem
  end.

(** The clamping loop of [FillBlob], in place in the blob. *)
Fixpoint clamp_in_place (chunkIdx i fuel : nat) (blob : types.Blob) : types.Blob :=
  match fuel with
  | O => blob
  | S fuel' =>
      let blobByteIdx := (chunkIdx * 32 + i)%nat in
      if byte_at blob blobByteIdx <? byte_at BlsModulus i then
        blob
      else if byte_at BlsModulus i <=? byte_at blob blobByteIdx then
        if 0 <? byte_at BlsModulus i then
          <[blobByteIdx := wrap8 (byte_at BlsModulus i - 1)]> blob
        else
          clamp_in_place chunkIdx (S i) fuel'
            (<[blobByteIdx := byte_at BlsModulus i]> blob)
      else clamp_in_place chunkIdx (S i) fuel' blob
  end.

(** [VerifyBlob], identifier zero: every chunk is the empty field element. *)
Fixpoint verify_empty (chunkIdx n : nat) (blob : types.Blob) : bool :=
  match n with
  | O => true
  | S n' =>
      let emptyFieldElem := replicate 32 0 in
      if negb (bytes_Equal (slice blob (chunkIdx * 32) ((chunkIdx + 1) * 32))
                 emptyFieldElem)
      then false
      else verify_empty (S chunkIdx) n' blob
  end.

(** [VerifyBlob], other identifiers: every chunk is the clamped digest. *)
Fixpoint verify_chain (chunkIdx n : nat) (currentHashed : list Z)
    (blob : types.Blob) : bool :=
  match n with
  | O => true
  | S n' =>
      let expectedFieldElem := copy_at (replicate 32 0) 0 currentHashed in
      let expectedFieldElem := clamp_elem 0 32 expectedFieldElem in
      if negb (bytes_Equal (slice blob (chunkIdx * 32) ((chunkIdx + 1) * 32))
                 expectedFieldElem)
      then false
      else verify_chain (S chunkIdx) n' (sha256.Sum256 currentHashed) blob
  end.

Definition VerifyBlob (blobId : BlobID) (blob : option types.Blob)
    : bool * option error :=
  match blob with
  | None => (false, Some "nil blob"%string)
  | Some blob =>
      if blobId =? 0 then
        (verify_empty 0 types.FieldElementsPerBlob blob, None)
      else
        let blobIdBytes := binary.PutUint64 blobId in
        let currentHashed := sha256.Sum256 blobIdBytes in
        (verify_chain 0 types.FieldElementsPerBlob currentHashed blob, None)
  end.

(** One iteration of the loop of [FillBlob]. *)
Definition fill_chunk (chunkIdx : nat) (st : types.Blob * list Z)
    : types.Blob * list Z :=
  let '(blob, currentHashed) := st in
  let blob := copy_at blob (chunkIdx * 32) currentHashed in
  let blob := clamp_in_place chunkIdx 0 32 blob in
  (blob, sha256.Sum256 currentHashed).

(** [FillBlob] writes through its pointer: the first component is the
    buffer after the call. *)
Definition FillBlob (blobId : BlobID) (blob : option types.Blob)
    : option types.Blob * option error :=
  match blob with
  | None => (None, Some "nil blob"%string)
  | Some blob =>
      if blobId =? 0 then (Some blob, None)
      else
        let blobIdBytes := binary.PutUint64 blobId in
        let currentHashed := sha256.Sum256 blobIdBytes in
        let '(blob, _) :=
          for_range 0 types.FieldElementsPerBlob fill_chunk (blob, currentHashed) in
        (Some blob, None)
  end.

End synthesizer.

(** [typ.Blob{}] *)
Definition fresh_blob : types.Blob := replicate types.blob_size 0.

(** *** Blobs with their commitments *)

Section generator.

(** The global context [gCryptoCtx] that [CryptoCtx()] returns. *)
Variable CryptoCtx : types.Context.

(** The two pointers returned are [nil] together with an error. *)
Definition GenerateBlob (blobId : BlobID)
    : option types.Blob * option types.KZGCommitment * option error :=
  let blob := fresh_blob in
  match FillBlob gokzg4844.BlsModulus blobId (Some blob) with
  | (_, Some err) => (None, None, Some (errors_Wrap err "GenerateBlob (1)"))
  | (filled, None) =>
      let blob := default blob filled in
      let ctx_4844 := CryptoCtx in
      match types.BlobToKZGCommitment ctx_4844 blob 0 with
      | Err err => (None, None, Some (errors_Wrap err "GenerateBlob (2)"))
      | Ok kzgCommitment => (Some blob, Some kzgCommitment, None)
      end
  end.

Definition GetVersionedHash (blobId : BlobID) (commitmentVersion : Z)
    : types.Hash * option error :=
  match GenerateBlob blobId with
  | (_, _, Some err) =>
      (replicate 32 0, Some (errors_Wrap err "GetVersionedHash"))
  | (_, None, None) => (replicate 32 0, Some "nil kzgCommitment"%string)
  | (_, Some kzgCommitment, None) =>
      let sha256Hash := sha256.Sum256 kzgCommitment in
      let versionedHash :=
        BytesToHash ([commitmentVersion] ++ drop 1 sha256Hash) in
      (versionedHash, None)
  end.

End generator.

End helper.

(** ** package suite_blobs: test steps and payload verification *)

Module suite_blobs.

(** *** Steps and their count parameters *)

Record LaunchClients := {
  ClientCount : Z;
  SkipConnectingToBootnode : bool;
  SkipAddingToCLMock : bool;
}.

Definition GetClientCount (step : LaunchClients) : Z :=
  let clientCount := ClientCount step in
  let clientCount := if clientCount =? 0 then 1 else clientCount in
  clientCount.

Record NewPayloads := {
  PayloadCount : Z;
  ExpectedIncludedBlobCount : Z;
  ExpectedBlobs : list helper.BlobID;
  GetPayloadDelay : Z;
  Version : Z;
  ExpectedError : option Z;
}.

Definition GetPayloadCount (step : NewPayloads) : Z :=
  let payloadCount := PayloadCount step in
  let payloadCount := if payloadCount =? 0 then 1 else payloadCount in
  payloadCount.

Record SendBlobTransactions := {
  BlobTransactionSendCount : Z;
  BlobsPerTransaction : Z;
  BlobTransactionMaxDataGasCost : option Z;
  BlobTransactionGasFeeCap : option Z;
  BlobTransactionGasTipCap : option Z;
  ReplaceTransactions : bool;
  SkipVerificationFromNode : bool;
  AccountIndex : Z;
  ClientIndex : Z;
}.

Definition GetBlobsPerTransaction (step : SendBlobTransactions) : Z :=
  let blobCountPerTx := BlobsPerTransaction step in
  let blobCountPerTx := if blobCountPerTx =? 0 then 1 else blobCountPerTx in
  blobCountPerTx.

(** *** Transactions, the pool and the payload *)

(** What the source reads of a decoded go-ethereum transaction. *)
Record TxData := {
  tx_Type : Z;
  tx_Hash : types.Hash;
  tx_Nonce : Z;
  tx_BlobHashes : list types.Hash;
}.

Definition BlobTxType : Z := 0x03.

Record BlobTxWrapData := {
  Blobs : types.Blobs;
  Commitments : list types.KZGCommitment;
  Proofs : list types.KZGProof;
}.

Record TransactionWithBlobData := {
  Tx : TxData;
  BlobData : option BlobTxWrapData;
}.

(** Modelled from the spec: [TransactionWithBlobData.BlobHashes], whose
    source file is not part of the sources at hand; it is the
    protocol-level blob-hash list of the signed transaction. *)
Definition BlobHashes (blobTx : TransactionWithBlobData) : list types.Hash :=
  tx_BlobHashes (Tx blobTx).

Definition Hash_of (blobTx : TransactionWithBlobData) : types.Hash :=
  tx_Hash (Tx blobTx).

(** The interface [typ.Transaction]: the pool holds transactions with wrap
    data and others. *)
Inductive Transaction :=
  | WithBlobData (blobTx : TransactionWithBlobData)
  | OtherTransaction (tx : TxData).

Record TestBlobTxPool := {
  Transactions : gmap (list Z) Transaction;
}.

Record ExecutableData := {
  Timestamp : Z;
  payload_Transactions : list (list Z);
  ExcessDataGas : option Z;
  DataGasUsed : option Z;
}.

(** go-ethereum's decoding and sender recovery. *)
Record Geth := {
  UnmarshalBinary : list Z → result TxData;
  Sender : TxData → result (list Z);
}.

Record BlobWrapData := {
  VersionedHash : types.Hash;
  KZG : types.KZGCommitment;
  Blob : types.Blob;
  Proof : types.KZGProof;
}.

(** The inner [for i := 0; i < len(versionedHashes); i++] of
    [GetBlobDataInPayload]; an element read out of range is the zero value
    here, the source only runs it on lists of one length. *)
Definition wrap_data_of (versionedHashes : list types.Hash)
    (kzgs : list types.KZGCommitment) (blobs : types.Blobs)
    (proofs : list types.KZGProof) : list BlobWrapData :=
  (λ i, {| VersionedHash := default [] (versionedHashes !! i);
           KZG := default [] (kzgs !! i);
           Blob := default [] (blobs !! i);
           Proof := default [] (proofs !! i) |})
  <$> seq 0 (length versionedHashes).

Definition payload_data : Type :=
  list TransactionWithBlobData * list BlobWrapData * option error.

(** [common.Hash.String]: the hexadecimal text of the hash. *)
Definition Hash_String (h : types.Hash) : string :=
  String.append "0x" (hex_EncodeToString h).

Fixpoint payload_loop (geth : Geth) (pool : TestBlobTxPool)
    (txs : list (list Z))
    (blobTxsInPayload : list TransactionWithBlobData)
    (blobDataInPayload : list BlobWrapData) : payload_data :=
  match txs with
  | [] => (blobTxsInPayload, blobDataInPayload, None)
  | binaryTx :: txs' =>
      match UnmarshalBinary geth binaryTx with
      | Err err => ([], [], Some err)
      | Ok txData =>
          if negb (tx_Type txData =? BlobTxType) then
            payload_loop geth pool txs' blobTxsInPayload blobDataInPayload
          else
            match Sender geth txData with
            | Err err => ([], [], Some err)
            | Ok sender =>
                match Transactions pool !! tx_Hash txData with
                | Some (WithBlobData blobTx) =>
                    match BlobData blobTx with
                    | None => ([], [], Some "blob data is nil"%string)
                    | Some blobData =>
                        let kzgs := Commitments blobData in
                        let blobs := Blobs blobData in
                        let proofs := Proofs blobData in
                        let versionedHashes := BlobHashes blobTx in
                        if negb (length versionedHashes =? length kzgs)%nat
                           || negb (length kzgs =? length blobs)%nat
                           || negb (length blobs =? length proofs)%nat
                        then ([], [], Some "invalid blob wrap data"%string)
                        else
                          payload_loop geth pool txs'
                            (blobTxsInPayload ++ [blobTx])
                            (blobDataInPayload ++
                               wrap_data_of versionedHashes kzgs blobs proofs)
                    end
                | Some (OtherTransaction tx) =>
                    ([], [],
                     Some (String.append "could not find blob data in transaction "
                             (String.append (Hash_String (tx_Hash txData))
                                ", type=*types.Transaction")))
                | None =>
                    ([], [],
                     Some (String.append "could not find transaction "
                             (String.append (Hash_String (tx_Hash txData))
                                " in the pool")))
                end
            end
      end
  end.

Definition GetBlobDataInPayload (geth : Geth) (pool : TestBlobTxPool)
    (payload : ExecutableData) : payload_data :=
  payload_loop geth pool (payload_Transactions payload) [] [].

(** *** Vocabulary for the cross-validation

    What the loop does with one transaction of the payload: it skips it
    (not a blob transaction), matches it with a pool entry that has wrap
    data, or stops on it. *)

Inductive tx_status :=
  | Skipped
  | Matched (blobTx : TransactionWithBlobData) (blobData : BlobTxWrapData)
  | Broken.

Definition classify (geth : Geth) (pool : TestBlobTxPool) (binaryTx : list Z)
    : tx_status :=
  match UnmarshalBinary geth binaryTx with
  | Err _ => Broken
  | Ok txData =>
      if negb (tx_Type txData =? BlobTxType) then Skipped
      else
        match Sender geth txData, Transactions pool !! tx_Hash txData with
        | Ok _, Some (WithBlobData blobTx) =>
            match BlobData blobTx with
            | Some blobData => Matched blobTx blobData
            | None => Broken
            end
        | _, _ => Broken
        end
  end.

(** The versioned hashes of the recorded wrap data: one per commitment, as
    [BlobDataGenerator] computes them. *)
Definition wrap_versioned_hashes (blobData : BlobTxWrapData) : list types.Hash :=
  types.ComputeVersionedHash <$> Commitments blobData.

Definition lengths_agree (blobTx : TransactionWithBlobData)
    (blobData : BlobTxWrapData) : Prop :=
  length (BlobHashes blobTx) = length (Commitments blobData) ∧
  length (Commitments blobData) = length (Blobs blobData) ∧
  length (Blobs blobData) = length (Proofs blobData).

(** *** Verification of a built payload

    The fee recurrence [CalcExcessDataGas], the price [GetDataGasPrice] and
    the constant [DATA_GAS_PER_BLOB] are declared in files of the package
    that are not among the sources at hand: they are parameters.  The
    receipt checks go to the client through the test engine; the model
    records them, in order, as events. *)

Inductive event :=
  | TestTransactionReceipt (txHash : types.Hash)
  | ExpectDataGasUsed (txHash : types.Hash) (expected : Z)
  | ExpectDataGasPrice (txHash : types.Hash) (expected : Z).

Section verify_payload.

Variable CalcExcessDataGas : Z → Z → Z.
Variable GetDataGasPrice : Z → Z.
Variable DATA_GAS_PER_BLOB : Z.

(** [for _, tx := range blobTxsInPayload] of [VerifyPayload]. *)
Fixpoint receipts_loop (expectedDataGasPrice : Z)
    (txs : list TransactionWithBlobData) (totalBlobCount : Z)
    (trace : list event) : Z * list event :=
  match txs with
  | [] => (totalBlobCount, trace)
  | tx :: txs' =>
      let blobCount := Z.of_nat (length (BlobHashes tx)) in
      let totalBlobCount := wrap64 (totalBlobCount + blobCount) in
      let expectedDataGasUsed := wrap64 (blobCount * DATA_GAS_PER_BLOB) in
      receipts_loop expectedDataGasPrice txs' totalBlobCount
        (trace ++ [ TestTransactionReceipt (Hash_of tx);
                    ExpectDataGasUsed (Hash_of tx) expectedDataGasUsed;
                    ExpectDataGasPrice (Hash_of tx) expectedDataGasPrice ])
  end.

Definition VerifyPayload (step : NewPayloads) (forkConfig : config.ForkConfig)
    (blobTxsInPayload : list TransactionWithBlobData)
    (payload : ExecutableData) (previousPayload : option ExecutableData)
    : option error * list event :=
  let parentExcessDataGas :=
    match previousPayload with
    | Some p => default 0 (ExcessDataGas p)
    | None => 0
    end in
  let parentDataGasUsed :=
    match previousPayload with
    | Some p => default 0 (DataGasUsed p)
    | None => 0
    end in
  let expectedExcessDataGas :=
    CalcExcessDataGas parentExcessDataGas parentDataGasUsed in
  if config.IsCancun forkConfig (Timestamp payload) then
    match ExcessDataGas payload, DataGasUsed payload with
    | None, _ => (Some "payload contains nil excessDataGas"%string, [])
    | Some _, None => (Some "payload contains nil dataGasUsed"%string, [])
    | Some excess, Some _ =>
        if negb (excess =? expectedExcessDataGas) then
          (Some (String.append "payload contains incorrect excessDataGas: want 0x"
                   (String.append (fmt_x expectedExcessDataGas)
                      (String.append ", have 0x" (fmt_x excess)))), [])
        else
          let expectedDataGasPrice := GetDataGasPrice expectedExcessDataGas in
          let '(totalBlobCount, trace) :=
            receipts_loop expectedDataGasPrice blobTxsInPayload 0 [] in
          if negb (totalBlobCount =? ExpectedIncludedBlobCount step) then
            (Some (String.append "expected "
                     (String.append (fmt_d (ExpectedIncludedBlobCount step))
                        (String.append " blobs in transactions, got "
                           (fmt_d totalBlobCount)))), trace)
          else (None, trace)
    end
  else
    match ExcessDataGas payload with
    | Some _ => (Some "payload contains non-nil excessDataGas pre-fork"%string, [])
    | None =>
        match DataGasUsed payload with
        | Some _ => (Some "payload contains non-nil dataGasUsed pre-fork"%string, [])
        | None => (None, [])
        end
    end.

End verify_payload.

(** *** Verification of the blobs bundle of a built payload *)

(** [int(v)] of a [uint64] on a 64-bit platform. *)
Definition to_int (v : Z) : Z := if v <? 2 ^ 63 then v else v - 2 ^ 64.

Definition bundle_commitments (blobBundle : types.BlobsBundle)
    : list types.KZGCommitment :=
  default [] (types.bundle_Commitments blobBundle).

(** [for i, blobData := range blobDataInPayload] of [VerifyBlobBundle],
    from index [i] on; the three lengths have been compared before, and an
    entry read out of range is the zero value here. *)
Fixpoint bundle_loop (blobBundle : types.BlobsBundle) (i : nat)
    (rest : list BlobWrapData) : option error :=
  match rest with
  | [] => None
  | blobData :: rest' =>
      let bundleCommitment := default [] (bundle_commitments blobBundle !! i) in
      let bundleBlob := default [] (types.bundle_Blobs blobBundle !! i) in
      let bundleProof := default [] (types.bundle_Proofs blobBundle !! i) in
      if negb (bytes_Equal bundleCommitment (KZG blobData)) then
        Some (String.append "KZG mismatch at index "
                (String.append (fmt_d (Z.of_nat i)) " of the bundle"))
      else if negb (bytes_Equal bundleBlob (Blob blobData)) then
        Some (String.append "blob mismatch at index "
                (String.append (fmt_d (Z.of_nat i)) " of the bundle"))
      else if negb (bytes_Equal bundleProof (Proof blobData)) then
        Some (String.append "proof mismatch at index "
                (String.append (fmt_d (Z.of_nat i)) " of the bundle"))
      else bundle_loop blobBundle (S i) rest'
  end.

(** The inner [for _, blobData := range blobDataInPayload]: whether some
    blob of the payload is the expected one. *)
Fixpoint find_blob (expectedBlob : helper.BlobID) (rest : list BlobWrapData)
    : result bool :=
  match rest with
  | [] => Ok false
  | blobData :: rest' =>
      match helper.VerifyBlob gokzg4844.BlsModulus expectedBlob
              (Some (Blob blobData)) with
      | (_, Some err) => Err err
      | (true, None) => Ok true
      | (false, None) => find_blob expectedBlob rest'
      end
  end.

(** [for _, expectedBlob := range step.ExpectedBlobs] *)
Fixpoint expected_loop (expectedBlobs : list helper.BlobID)
    (blobDataInPayload : list BlobWrapData) : option error :=
  match expectedBlobs with
  | [] => None
  | expectedBlob :: rest =>
      match find_blob expectedBlob blobDataInPayload with
      | Err err => Some err
      | Ok false =>
          Some (String.append "could not find expected blob " (fmt_d expectedBlob))
      | Ok true => expected_loop rest blobDataInPayload
      end
  end.

Definition VerifyBlobBundle (step : NewPayloads)
    (blobDataInPayload : list BlobWrapData) (payload : ExecutableData)
    (blobBundle : types.BlobsBundle) : option error :=
  let nBlobs := length (types.bundle_Blobs blobBundle) in
  let nCommitments := length (bundle_commitments blobBundle) in
  let nProofs := length (types.bundle_Proofs blobBundle) in
  if negb (nBlobs =? nCommitments)%nat || negb (nBlobs =? nProofs)%nat then
    Some (String.append "unexpected length in blob bundle: "
            (String.append (fmt_d (Z.of_nat nBlobs))
               (String.append " blobs, "
                  (String.append (fmt_d (Z.of_nat nProofs))
                     (String.append " proofs, "
                        (String.append (fmt_d (Z.of_nat nCommitments))
                           " commitments"))))))
  else if negb (Z.of_nat nBlobs =? to_int (ExpectedIncludedBlobCount step)) then
    Some (String.append "expected "
            (String.append (fmt_d (ExpectedIncludedBlobCount step))
               (String.append " blob, got " (fmt_d (Z.of_nat nBlobs)))))
  else if negb (length blobDataInPayload =? nBlobs)%nat then
    Some (String.append "expected "
            (String.append (fmt_d (Z.of_nat (length blobDataInPayload)))
               (String.append " blobs in the bundle, got "
                  (fmt_d (Z.of_nat nBlobs)))))
  else
    match bundle_loop blobBundle 0 blobDataInPayload with
    | Some err => Some err
    | None =>
        if negb (length (ExpectedBlobs step) =? 0)%nat then
          expected_loop (ExpectedBlobs step) blobDataInPayload
        else None
    end.

(** *** Modified versioned hashes for a new-payload call *)

(** Both slices are compared with [nil]. *)
Record VersionedHashes := {
  vh_Blobs : option (list helper.BlobID);
  HashVersions : option (list Z);
}.

Section versioned_hashes.

Variable CryptoCtx : types.Context.

(** [for i, blobID := range v.Blobs], from index [i] on. *)
Fixpoint versioned_hashes_loop (v : VersionedHashes) (i : nat)
    (rest : list helper.BlobID) (versionedHashes : list types.Hash)
    : option (list types.Hash) * option error :=
  match rest with
  | [] => (Some versionedHashes, None)
  | blobID :: rest' =>
      let version :=
        match HashVersions v with
        | Some hashVersions =>
            if (i <? length hashVersions)%nat then byte_at hashVersions i else 0
        | None => 0
        end in
      match helper.GetVersionedHash CryptoCtx blobID version with
      | (_, Some err) => (None, Some err)
      | (versionedHash, None) =>
          versioned_hashes_loop v (S i) rest'
            (<[i := versionedHash]> versionedHashes)
      end
  end.

Definition VersionedHashes_VersionedHashes (v : VersionedHashes)
    : option (list types.Hash) * option error :=
  match vh_Blobs v with
  | None => (None, None)
  | Some blobs =>
      let versionedHashes := replicate (length blobs) (replicate 32 0) in
      versioned_hashes_loop v 0 blobs versionedHashes
  end.

End versioned_hashes.

End suite_blobs.

(** ** package helper, continued: wrap data for a blob transaction *)

Module helper_generator.
Import suite_blobs.

Section generator.

Variable CryptoCtx : types.Context.

(** The first loop of [BlobDataGenerator], [for i := ...; i < blobCount; i++],
    from index [i] on; [n] is [blobCount - i]. *)
Fixpoint generate_loop (startBlobId : helper.BlobID) (i n : nat)
    (blobs : types.Blobs) (commitments : list types.KZGCommitment)
    : result (types.Blobs * list types.KZGCommitment) :=
  match n with
  | O => Ok (blobs, commitments)
  | S n' =>
      match helper.GenerateBlob CryptoCtx (wrap64 (startBlobId + Z.of_nat i)) with
      | (_, _, Some err) => Err err
      | (blob, kzgCommitment, None) =>
          generate_loop startBlobId (S i) n'
            (<[i := default [] blob]> blobs)
            (<[i := default [] kzgCommitment]> commitments)
      end
  end.

Definition BlobDataGenerator (startBlobId : helper.BlobID) (blobCount : Z)
    : option (list types.Hash) * option BlobTxWrapData * option error :=
  let n := Z.to_nat blobCount in
  match generate_loop startBlobId 0 n
          (replicate n helper.fresh_blob) (replicate n (replicate 48 0)) with
  | Err err => (None, None, Some err)
  | Ok (blobs, commitments) =>
      let hashes :=
        for_range 0 (length commitments)
          (λ i hashes,
             hashes ++ [types.ComputeVersionedHash (default [] (commitments !! i))])
          [] in
      match types.ComputeCommitmentsAndProofs blobs CryptoCtx with
      | (_, _, _, Some err) => (None, None, Some err)
      | (_, _, proofs, None) =>
          (Some hashes,
           Some {| Blobs := blobs; Commitments := commitments; Proofs := proofs |},
           None)
      end
  end.

(** *** The creator of blob transactions

    Keys are opaque; an address is its 20 bytes.  The fields of
    go-ethereum's [types.BlobTx] are those the creator sets. *)

Definition PrivateKey := Z.
Definition Address := list Z.

Record BlobTransactionCreator := {
  tc_To : option Address;
  tc_GasLimit : Z;
  tc_GasFee : option Z;
  tc_GasTip : option Z;
  tc_DataGasFee : option Z;
  tc_BlobID : helper.BlobID;
  tc_BlobCount : Z;
  tc_Value : option Z;
  tc_Data : list Z;
  tc_PrivateKey : option PrivateKey;
}.

Record BlobTx := {
  btx_ChainID : Z;
  btx_Nonce : Z;
  btx_GasTipCap : option Z;
  btx_GasFeeCap : option Z;
  btx_Gas : Z;
  btx_To : Address;
  btx_Value : option Z;
  btx_Data : list Z;
  btx_AccessList : list (Address * list types.Hash);
  btx_BlobFeeCap : option Z;
  btx_BlobHashes : list types.Hash;
}.

(** The variables of package globals that the creator reads, and
    go-ethereum's [types.SignNewTx] with the Cancun signer of a chain. *)
Variable globals_ChainID : Z.
Variable globals_GasPrice : option Z.
Variable globals_GasTipPrice : option Z.
Variable globals_VaultKey : PrivateKey.
Variable SignNewTx : PrivateKey → Z → BlobTx → result TxData.

Definition MakeTransaction (tc : BlobTransactionCreator) (nonce : Z)
    : option Transaction * option error :=
  match BlobDataGenerator (tc_BlobID tc) (tc_BlobCount tc) with
  | (_, _, Some err) => (None, Some err)
  | (hashes, blobData, None) =>
      match tc_To tc with
      | None => (None, Some "nil to address"%string)
      | Some address =>
          let chainID := globals_ChainID in
          let gasFeeCap :=
            match tc_GasFee tc with
            | None => globals_GasPrice
            | Some gasFee => Some gasFee
            end in
          let gasTipCap :=
            match tc_GasTip tc with
            | None => globals_GasTipPrice
            | Some gasTip => Some gasTip
            end in
          let sbtx :=
            {| btx_ChainID := chainID; btx_Nonce := nonce;
               btx_GasTipCap := gasTipCap; btx_GasFeeCap := gasFeeCap;
               btx_Gas := tc_GasLimit tc; btx_To := address;
               btx_Value := tc_Value tc; btx_Data := tc_Data tc;
               btx_AccessList := []; btx_BlobFeeCap := tc_DataGasFee tc;
               btx_BlobHashes := default [] hashes |} in
          let key := default globals_VaultKey (tc_PrivateKey tc) in
          match SignNewTx key globals_ChainID sbtx with
          | Err err => (None, Some err)
          | Ok signedTx =>
              (Some (WithBlobData {| Tx := signedTx; BlobData := blobData |}),
               None)
          end
      end
  end.

End generator.

End helper_generator.

(** ** package types: execution payloads and their conversions *)

Module types_payload.

Definition Hash := list Z.       (* common.Hash, [32]byte *)
Definition Address := list Z.    (* common.Address, [20]byte *)

(** go-ethereum's [types.Withdrawal]. *)
Record Withdrawal := {
  w_Index : Z;
  w_Validator : Z;
  w_Address : Address;
  w_Amount : Z;
}.

(** A slice of bytes is a list; a slice that the code compares with [nil],
    and every pointer, is an [option]. *)
Record ExecutableDataV1 := {
  v1_ParentHash : Hash;
  v1_FeeRecipient : Address;
  v1_StateRoot : Hash;
  v1_ReceiptsRoot : Hash;
  v1_LogsBloom : list Z;
  v1_Random : Hash;
  v1_Number : Z;
  v1_GasLimit : Z;
  v1_GasUsed : Z;
  v1_Timestamp : Z;
  v1_ExtraData : list Z;
  v1_BaseFeePerGas : option Z;
  v1_BlockHash : Hash;
  v1_Transactions : list (list Z);
}.

Record PayloadAttributes := {
  pa_Timestamp : Z;
  pa_Random : Hash;
  pa_SuggestedFeeRecipient : Address;
  pa_Withdrawals : option (list Withdrawal);
  pa_BeaconRoot : option Hash;
}.

(** [PayloadAttributes{}] *)
Definition zero_PayloadAttributes : PayloadAttributes :=
  {| pa_Timestamp := 0; pa_Random := replicate 32 0;
     pa_SuggestedFeeRecipient := replicate 20 0;
     pa_Withdrawals := None; pa_BeaconRoot := None |}.

Record ExecutableData := {
  ed_ParentHash : Hash;
  ed_FeeRecipient : Address;
  ed_StateRoot : Hash;
  ed_ReceiptsRoot : Hash;
  ed_LogsBloom : list Z;
  ed_Random : Hash;
  ed_Number : Z;
  ed_GasLimit : Z;
  ed_GasUsed : Z;
  ed_Timestamp : Z;
  ed_ExtraData : list Z;
  ed_BaseFeePerGas : option Z;
  ed_BlockHash : Hash;
  ed_Transactions : list (list Z);
  ed_Withdrawals : option (list Withdrawal);
  ed_BlobGasUsed : option Z;
  ed_ExcessBlobGas : option Z;
  ed_VersionedHashes : option (list Hash);
  ed_ParentBeaconBlockRoot : option Hash;
  ed_ExecutionRequests : list (list Z);
  ed_PayloadAttributes : PayloadAttributes;
}.

(** go-ethereum's [engine.ExecutableData]: the fields that the conversions
    set and read. *)
Record BeaconExecutableData := {
  b_ParentHash : Hash;
  b_FeeRecipient : Address;
  b_StateRoot : Hash;
  b_ReceiptsRoot : Hash;
  b_LogsBloom : list Z;
  b_Random : Hash;
  b_Number : Z;
  b_GasLimit : Z;
  b_GasUsed : Z;
  b_Timestamp : Z;
  b_ExtraData : list Z;
  b_BaseFeePerGas : option Z;
  b_BlockHash : Hash;
  b_Transactions : list (list Z);
  b_Withdrawals : option (list Withdrawal);
  b_BlobGasUsed : option Z;
  b_ExcessBlobGas : option Z;
}.

Definition ToExecutableData (edv1 : ExecutableDataV1) : ExecutableData :=
  {| ed_ParentHash := v1_ParentHash edv1;
     ed_FeeRecipient := v1_FeeRecipient edv1;
     ed_StateRoot := v1_StateRoot edv1;
     ed_ReceiptsRoot := v1_ReceiptsRoot edv1;
     ed_LogsBloom := v1_LogsBloom edv1;
     ed_Random := v1_Random edv1;
     ed_Number := v1_Number edv1;
     ed_GasLimit := v1_GasLimit edv1;
     ed_GasUsed := v1_GasUsed edv1;
     ed_Timestamp := v1_Timestamp edv1;
     ed_ExtraData := v1_ExtraData edv1;
     ed_BaseFeePerGas := v1_BaseFeePerGas edv1;
     ed_BlockHash := v1_BlockHash edv1;
     ed_Transactions := v1_Transactions edv1;
     ed_Withdrawals := None;
     ed_BlobGasUsed := None;
     ed_ExcessBlobGas := None;
     ed_VersionedHashes := None;
     ed_ParentBeaconBlockRoot := None;
     ed_ExecutionRequests := [];
     ed_PayloadAttributes := zero_PayloadAttributes |}.

(** [FromExecutableData] writes through its receiver: the result is the
    receiver after the call. *)
Definition FromExecutableData (edv1 : ExecutableDataV1) (ed : ExecutableData)
    : outcome ExecutableDataV1 :=
  match ed_Withdrawals ed with
  | Some _ =>
      Panicked "source executable data contains withdrawals, not supported by V1"
  | None =>
      Returned
        {| v1_ParentHash := ed_ParentHash ed;
           v1_FeeRecipient := ed_FeeRecipient ed;
           v1_StateRoot := ed_StateRoot ed;
           v1_ReceiptsRoot := ed_ReceiptsRoot ed;
           v1_LogsBloom := ed_LogsBloom ed;
           v1_Random := ed_Random ed;
           v1_Number := ed_Number ed;
           v1_GasLimit := ed_GasLimit ed;
           v1_GasUsed := ed_GasUsed ed;
           v1_Timestamp := ed_Timestamp ed;
           v1_ExtraData := ed_ExtraData ed;
           v1_BaseFeePerGas := ed_BaseFeePerGas ed;
           v1_BlockHash := ed_BlockHash ed;
           v1_Transactions := ed_Transactions ed |}
  end.

Definition ToBeaconExecutableData (pl : ExecutableData)
    : BeaconExecutableData * option error :=
  ({| b_ParentHash := ed_ParentHash pl;
      b_FeeRecipient := ed_FeeRecipient pl;
      b_StateRoot := ed_StateRoot pl;
      b_ReceiptsRoot := ed_ReceiptsRoot pl;
      b_LogsBloom := ed_LogsBloom pl;
      b_Random := ed_Random pl;
      b_Number := ed_Number pl;
      b_GasLimit := ed_GasLimit pl;
      b_GasUsed := ed_GasUsed pl;
      b_Timestamp := ed_Timestamp pl;
      b_ExtraData := ed_ExtraData pl;
      b_BaseFeePerGas := ed_BaseFeePerGas pl;
      b_BlockHash := ed_BlockHash pl;
      b_Transactions := ed_Transactions pl;
      b_Withdrawals := ed_Withdrawals pl;
      b_BlobGasUsed := ed_BlobGasUsed pl;
      b_ExcessBlobGas := ed_ExcessBlobGas pl |},
   None).

Definition FromBeaconExecutableData (ed : BeaconExecutableData)
    : ExecutableData * option error :=
  ({| ed_ParentHash := b_ParentHash ed;
      ed_FeeRecipient := b_FeeRecipient ed;
      ed_StateRoot := b_StateRoot ed;
      ed_ReceiptsRoot := b_ReceiptsRoot ed;
      ed_LogsBloom := b_LogsBloom ed;
      ed_Random := b_Random ed;
      ed_Number := b_Number ed;
      ed_GasLimit := b_GasLimit ed;
      ed_GasUsed := b_GasUsed ed;
      ed_Timestamp := b_Timestamp ed;
      ed_ExtraData := b_ExtraData ed;
      ed_BaseFeePerGas := b_BaseFeePerGas ed;
      ed_BlockHash := b_BlockHash ed;
      ed_Transactions := b_Transactions ed;
      ed_Withdrawals := b_Withdrawals ed;
      ed_BlobGasUsed := b_BlobGasUsed ed;
      ed_ExcessBlobGas := b_ExcessBlobGas ed;
      ed_VersionedHashes := None;
      ed_ParentBeaconBlockRoot := None;
      ed_ExecutionRequests := [];
      ed_PayloadAttributes := zero_PayloadAttributes |},
   None).

End types_payload.

(** ** package prague: the genesis block of the Prague fork *)

Module prague.

(** go-ethereum's [common.Address], read as the 160-bit number that its 20
    bytes spell, most significant first; [common.BigToAddress] keeps the
    low 20 bytes of the absolute value. *)
Definition Address := Z.

Definition BigToAddress (b : Z) : Address := Z.abs b mod 2 ^ 160.

(** [hex.DecodeString]: the bytes decoded before an error are returned with
    it.  [common.Hex2Bytes] drops the error, and [common.FromHex] first
    removes a prefix "0x" or "0X" and pads a text of odd length with a
    zero digit. *)
Definition hex_DecodeString (s : string) : list Z * option hex_error :=
  let '(dst, n, err) := hex_Decode (replicate (String.length s / 2) 0) 0 s in
  (take n dst, err).

Definition Hex2Bytes (str : string) : list Z := (hex_DecodeString str).1.

Definition has0xPrefix (str : string) : bool :=
  (2 <=? String.length str)%nat
  && Ascii.eqb (char_at str 0) "0"
  && (Ascii.eqb (char_at str 1) "x" || Ascii.eqb (char_at str 1) "X").

Definition FromHex (s : string) : list Z :=
  let s := if has0xPrefix s then string_from 2 s else s in
  let s := if Nat.eqb (String.length s mod 2) 1 then String "0" s else s in
  Hex2Bytes s.

(** [core.GenesisAccount], an alias of [types.Account]: the fields that the
    code sets; the others keep their zero value. *)
Record GenesisAccount := {
  Code : list Z;
  Balance : Z;
  Nonce : Z;
}.

(** The fields of [params.ChainConfig] and of [core.Genesis] that the code
    reads or writes.  [Alloc] is a map that has been made: the code writes
    into it. *)
Record ChainConfig := {
  ShanghaiTime : option Z;
  CancunTime : option Z;
  PragueTime : option Z;
  DepositContractAddress : Address;
}.

Record Genesis := {
  Config : ChainConfig;
  Timestamp : Z;
  BlobGasUsed : option Z;
  ExcessBlobGas : option Z;
  Alloc : gmap Address GenesisAccount;
}.

(** Assignments to one field. *)
Definition set_PragueTime (genesis : Genesis) (t : option Z) : Genesis :=
  {| Config := {| ShanghaiTime := ShanghaiTime (Config genesis);
                  CancunTime := CancunTime (Config genesis);
                  PragueTime := t;
                  DepositContractAddress :=
                    DepositContractAddress (Config genesis) |};
     Timestamp := Timestamp genesis;
     BlobGasUsed := BlobGasUsed genesis;
     ExcessBlobGas := ExcessBlobGas genesis;
     Alloc := Alloc genesis |}.

Definition set_BlobGasUsed (genesis : Genesis) (v : option Z) : Genesis :=
  {| Config := Config genesis; Timestamp := Timestamp genesis;
     BlobGasUsed := v; ExcessBlobGas := ExcessBlobGas genesis;
     Alloc := Alloc genesis |}.

Definition set_ExcessBlobGas (genesis : Genesis) (v : option Z) : Genesis :=
  {| Config := Config genesis; Timestamp := Timestamp genesis;
     BlobGasUsed := BlobGasUsed genesis; ExcessBlobGas := v;
     Alloc := Alloc genesis |}.

Definition set_Alloc (genesis : Genesis) (alloc : gmap Address GenesisAccount)
    : Genesis :=
  {| Config := Config genesis; Timestamp := Timestamp genesis;
     BlobGasUsed := BlobGasUsed genesis;
     ExcessBlobGas := ExcessBlobGas genesis; Alloc := alloc |}.

(** The bytecode deployed at the EIP-4788 address, as the source spells it. *)
Definition beacon_roots_code_hex : string :=
  String.concat EmptyString
    [ "3373fffffffffffffffffffffffffffffffffffffffe14604d57602036146024"%string;
      "575f5ffd5b5f35801560495762001fff810690815414603c575f5ffd5b62001f"%string;
      "ff01545f5260205ff35b5f5ffd5b62001fff42064281555f359062001fff0155"%string;
      "00"%string ].

(** The bytecode of the deposit generator, as the source spells it. *)
Definition deposits_generator_code_hex : string :=
  String.concat EmptyString
    [ "6080604052366103aa575f603067ffffffffffffffff81111561002557610024"%string;
      "6103ae565b5b6040519080825280601f01601f19166020018201604052801561"%string;
      "00575781602001600182028036833780820191505090505b5090505f80549061"%string;
      "01000a900460ff1660f81b815f8151811061007d5761007c6103db565b5b6020"%string;
      "0101907effffffffffffffffffffffffffffffffffffffffffffffffffffffff"%string;
      "ffffff191690815f1a9053505f602067ffffffffffffffff8111156100c75761"%string;
      "00c66103ae565b5b6040519080825280601f01601f1916602001820160405280"%string;
      "156100f95781602001600182028036833780820191505090505b5090505f8054"%string;
      "906101000a900460ff1660f81b815f8151811061011f5761011e6103db565b5b"%string;
      "60200101907effffffffffffffffffffffffffffffffffffffffffffffffffff"%string;
      "ffffffffff191690815f1a9053505f600867ffffffffffffffff811115610169"%string;
      "576101686103ae565b5b6040519080825280601f01601f191660200182016040"%string;
      "52801561019b5781602001600182028036833780820191505090505b5090505f"%string;
      "8054906101000a900460ff1660f81b815f815181106101c1576101c06103db56"%string;
      "5b5b60200101907effffffffffffffffffffffffffffffffffffffffffffffff"%string;
      "ffffffffffffff191690815f1a9053505f606067ffffffffffffffff81111561"%string;
      "020b5761020a6103ae565b5b6040519080825280601f01601f19166020018201"%string;
      "604052801561023d5781602001600182028036833780820191505090505b5090"%string;
      "505f8054906101000a900460ff1660f81b815f81518110610263576102626103"%string;
      "db565b5b60200101907effffffffffffffffffffffffffffffffffffffffffff"%string;
      "ffffffffffffffffff191690815f1a9053505f600867ffffffffffffffff8111"%string;
      "156102ad576102ac6103ae565b5b6040519080825280601f01601f1916602001"%string;
      "820160405280156102df5781602001600182028036833780820191505090505b"%string;
      "5090505f8054906101000a900460ff1660f81b815f8151811061030557610304"%string;
      "6103db565b5b60200101907effffffffffffffffffffffffffffffffffffffff"%string;
      "ffffffffffffffffffffff191690815f1a9053505f8081819054906101000a90"%string;
      "0460ff168092919061035090610441565b91906101000a81548160ff02191690"%string;
      "8360ff160217905550507f649bbc62d0e31342afea4e5cd82d4049e7e1ee912f"%string;
      "c0889aa790803be39038c585858585856040516103a09594939291906104d956"%string;
      "5b60405180910390a1005b5f80fd5b7f4e487b71000000000000000000000000"%string;
      "000000000000000000000000000000005f52604160045260245ffd5b7f4e487b"%string;
      "71000000000000000000000000000000000000000000000000000000005f5260"%string;
      "3260045260245ffd5b7f4e487b71000000000000000000000000000000000000"%string;
      "000000000000000000005f52601160045260245ffd5b5f60ff82169050919050"%string;
      "565b5f61044b82610435565b915060ff820361045e5761045d610408565b5b60"%string;
      "0182019050919050565b5f81519050919050565b5f8282526020820190509291"%string;
      "5050565b8281835e5f83830152505050565b5f601f19601f8301169050919050"%string;
      "565b5f6104ab82610469565b6104b58185610473565b93506104c58185602086"%string;
      "01610483565b6104ce81610491565b840191505092915050565b5f60a0820190"%string;
      "508181035f8301526104f181886104a1565b9050818103602083015261050581"%string;
      "876104a1565b9050818103604083015261051981866104a1565b905081810360"%string;
      "6083015261052d81856104a1565b9050818103608083015261054181846104a1"%string;
      "565b9050969550505050505056fea26469706673582212208569967e58690162"%string;
      "d7d6fe3513d07b393b4c15e70f41505cbbfd08f53eba739364736f6c63430008"%string;
      "190033"%string ].

Definition datahashCode : list Z :=
  [ 0x5F; 0x80; 0x49; 0x55;
    0x60; 0x01; 0x80; 0x49; 0x55;
    0x60; 0x02; 0x80; 0x49; 0x55;
    0x60; 0x03; 0x80; 0x49; 0x55 ].

Section genesis.

(** Constants of the package that are declared in other files, and the
    checksummed text [Address.Hex] of an address. *)
Variable BEACON_ROOTS_ADDRESS : Address.
Variable DATAHASH_START_ADDRESS : Z.
Variable DATAHASH_ADDRESS_COUNT : Z.
Variable Address_Hex : Address → string.

Definition ConfigGenesis (genesis : Genesis) (forkTimestamp : Z)
    : Genesis * option error :=
  match ShanghaiTime (Config genesis) with
  | None => (genesis, Some "prague fork requires shanghai fork"%string)
  | Some shanghaiTime =>
      match CancunTime (Config genesis) with
      | None => (genesis, Some "prague fork requires cancun fork"%string)
      | Some cancunTime =>
          let genesis := set_PragueTime genesis (Some forkTimestamp) in
          if forkTimestamp <? shanghaiTime then
            (genesis, Some "prague fork must be after shanghai fork"%string)
          else if forkTimestamp <? cancunTime then
            (genesis, Some "prague fork must be after cancun fork"%string)
          else
            let genesis :=
              if forkTimestamp <=? Timestamp genesis then
                let genesis :=
                  match BlobGasUsed genesis with
                  | None => set_BlobGasUsed genesis (Some 0)
                  | Some _ => genesis
                  end in
                match ExcessBlobGas genesis with
                | None => set_ExcessBlobGas genesis (Some 0)
                | Some _ => genesis
                end
              else genesis in
            let genesis :=
              set_Alloc genesis
                (<[BEACON_ROOTS_ADDRESS :=
                     {| Balance := 0; Nonce := 1;
                        Code := Hex2Bytes beacon_roots_code_hex |}]>
                   (Alloc genesis)) in
            let depositsGeneratorCode := FromHex deposits_generator_code_hex in
            let genesis :=
              set_Alloc genesis
                (<[DepositContractAddress (Config genesis) :=
                     {| Balance := 0; Nonce := 1;
                        Code := depositsGeneratorCode |}]>
                   (Alloc genesis)) in
            (genesis, None)
      end
  end.

(** [for i := 0; i < DATAHASH_ADDRESS_COUNT; i++] of [ConfigTestAccounts],
    from [i] on; [n] is the number of rounds left. *)
Fixpoint test_accounts_loop (i : Z) (n : nat)
    (alloc : gmap Address GenesisAccount)
    : outcome (gmap Address GenesisAccount) :=
  match n with
  | O => Returned alloc
  | S n' =>
      let address := BigToAddress (DATAHASH_START_ADDRESS + i) in
      match alloc !! address with
      | Some _ =>
          Panicked
            (String.append "reused address "
               (String.append (Address_Hex address)
                  " during genesis configuration for prague"))
      | None =>
          test_accounts_loop (i + 1) n'
            (<[address := {| Code := datahashCode; Balance := 0; Nonce := 0 |}]>
               alloc)
      end
  end.

Definition ConfigTestAccounts (genesis : Genesis)
    : outcome (Genesis * option error) :=
  match test_accounts_loop 0 (Z.to_nat DATAHASH_ADDRESS_COUNT) (Alloc genesis) with
  | Panicked msg => Panicked msg
  | Returned alloc => Returned (set_Alloc genesis alloc, None)
  end.

End genesis.

End prague.

(** ** Concrete inputs used below *)

Module inputs.
Import config suite_blobs.

Definition forks_10_20_30 : ForkConfig :=
  {| ShanghaiTimestamp := Some 10; CancunTimestamp := Some 20;
     PragueTimestamp := Some 30 |}.

Definition two_payloads : NewPayloads :=
  {| PayloadCount := 2; ExpectedIncludedBlobCount := 0; ExpectedBlobs := [];
     GetPayloadDelay := 0; Version := 0; ExpectedError := None |}.

Definition one_client_by_default : LaunchClients :=
  {| ClientCount := 0; SkipConnectingToBootnode := false;
     SkipAddingToCLMock := false |}.

Definition one_blob_by_default : SendBlobTransactions :=
  {| BlobTransactionSendCount := 3; BlobsPerTransaction := 0;
     BlobTransactionMaxDataGasCost := Some 1;
     BlobTransactionGasFeeCap := None; BlobTransactionGasTipCap := None;
     ReplaceTransactions := false; SkipVerificationFromNode := false;
     AccountIndex := 0; ClientIndex := 0 |}.

(** A payload built before the blob fork, without blob-gas fields. *)
Definition pre_fork_payload : ExecutableData :=
  {| Timestamp := 15; payload_Transactions := [];
     ExcessDataGas := None; DataGasUsed := None |}.

(** Sample values for the fee parameters of [VerifyPayload]. *)
Definition sample_CalcExcessDataGas (parentExcessDataGas parentDataGasUsed : Z) : Z :=
  let excessDataGas := wrap64 (parentExcessDataGas + parentDataGasUsed) in
  if excessDataGas <? 393216 then 0 else wrap64 (excessDataGas - 393216).
Definition sample_GetDataGasPrice (excessDataGas : Z) : Z := 1.
Definition sample_DATA_GAS_PER_BLOB : Z := 0x20000.

(** A crypto context that rejects every blob whose first byte is not
    zero, and two blobs, the second of which it rejects. *)
Definition picky_ctx : types.Context :=
  {| types.BlobToKZGCommitment := λ blob _,
       if byte_at blob 0 =? 0 then Ok (replicate 48 0) else Err "boom"%string;
     types.ComputeBlobKZGProof := λ _ _ _, Ok (replicate 48 0) |}.

Definition good_blob : types.Blob := replicate types.blob_size 0.
Definition bad_blob : types.Blob := 1 :: replicate (types.blob_size - 1) 0.
Definition good_then_bad : types.Blobs := [good_blob; bad_blob].

(** A pool with one blob transaction whose blob-hash list has the right
    length and the wrong entry (an all-zero hash, while a versioned hash
    starts with 0x01), and a payload that includes it.  This decoder reads
    the hash of a transaction off its bytes. *)
Definition zero_hash_tx (h : types.Hash) : suite_blobs.TxData :=
  {| tx_Type := BlobTxType; tx_Hash := h; tx_Nonce := 0;
     tx_BlobHashes := [replicate 32 0] |}.

Definition toy_geth : Geth :=
  {| UnmarshalBinary := λ binaryTx, Ok (zero_hash_tx binaryTx);
     Sender := λ _, Ok (replicate 20 0) |}.

Definition mismatched_tx : TransactionWithBlobData :=
  {| Tx := zero_hash_tx [7];
     BlobData := Some {| Blobs := [good_blob];
                         Commitments := [replicate 48 0];
                         Proofs := [replicate 48 0] |} |}.

Definition mismatched_pool : TestBlobTxPool :=
  {| Transactions := {[ [7] := WithBlobData mismatched_tx ]} |}.

Definition mismatched_payload : ExecutableData :=
  {| Timestamp := 25; payload_Transactions := [[7]];
     ExcessDataGas := Some 0; DataGasUsed := Some 0x20000 |}.

(** The text of a blob that starts with the byte 0xab and goes on with a
    character that is no hexadecimal digit; it has the length of a blob
    text. *)
Definition broken_blob_text : string :=
  String.append "0x"
    (String.append (hex_EncodeToString [0xab])
       (String "g" (string_of_list_ascii
                      (replicate (types.FieldElementsPerBlob * 32 * 2 - 3)
                         "0"%char)))).

(** A genesis block with Shanghai and Cancun at time zero and no account,
    and sample values for the constants of package prague. *)
Definition cancun_genesis : prague.Genesis :=
  {| prague.Config :=
       {| prague.ShanghaiTime := Some 0; prague.CancunTime := Some 0;
          prague.PragueTime := None; prague.DepositContractAddress := 0 |};
     prague.Timestamp := 0; prague.BlobGasUsed := None;
     prague.ExcessBlobGas := None; prague.Alloc := ∅ |}.

Definition sample_BEACON_ROOTS_ADDRESS : prague.Address :=
  0xbeac00ddb15f3b6d645c48263dc93862413a222d.
Definition sample_DATAHASH_START_ADDRESS : Z := 0x100.
Definition sample_DATAHASH_ADDRESS_COUNT : Z := 1000.
Definition sample_Address_Hex (address : prague.Address) : string :=
  String.append "0x" (fmt_x address).

(** A signer that keeps the fields of the transaction it signs, and a
    creator of transactions with the one blob of identifier zero. *)
Definition toy_SignNewTx (key : helper_generator.PrivateKey) (chainID : Z)
    (sbtx : helper_generator.BlobTx) : result TxData :=
  Ok {| tx_Type := BlobTxType; tx_Hash := [7];
        tx_Nonce := helper_generator.btx_Nonce sbtx;
        tx_BlobHashes := helper_generator.btx_BlobHashes sbtx |}.

Definition one_blob_creator : helper_generator.BlobTransactionCreator :=
  {| helper_generator.tc_To := Some (replicate 20 0);
     helper_generator.tc_GasLimit := 100000;
     helper_generator.tc_GasFee := None;
     helper_generator.tc_GasTip := None;
     helper_generator.tc_DataGasFee := Some 1;
     helper_generator.tc_BlobID := 0;
     helper_generator.tc_BlobCount := 1;
     helper_generator.tc_Value := None;
     helper_generator.tc_Data := [];
     helper_generator.tc_PrivateKey := None |}.

(** A step that expects the blob of identifier zero in the payload. *)
Definition blob_zero_expected : NewPayloads :=
  {| PayloadCount := 1; ExpectedIncludedBlobCount := 1;
     ExpectedBlobs := helper.GetBlobList 0 1; GetPayloadDelay := 0;
     Version := 0; ExpectedError := None |}.

(** A step that expects one blob in the payload. *)
Definition one_blob_expected : NewPayloads :=
  {| PayloadCount := 1; ExpectedIncludedBlobCount := 1; ExpectedBlobs := [];
     GetPayloadDelay := 0; Version := 0; ExpectedError := None |}.

(** Modified versioned hashes for the blob of identifier zero, with no
    hash versions given. *)
Definition blob_zero_unversioned : VersionedHashes :=
  {| vh_Blobs := Some [0]; HashVersions := None |}.

End inputs.

(** * Properties *)

(** ** Loops that fill a preallocated slice *)

Lemma for_range_fill (f : nat → Z) (n lo : nat) (l : list Z) :
  length l = (lo + n)%nat →
  for_range lo n (λ i l, <[i := f i]> l) l = take lo l ++ (f <$> seq lo n).
Proof.
  revert lo l. induction n as [|n IH]; intros lo l Hlen; simpl.
  - rewrite app_nil_r, firstn_all2; [done | lia].
  - rewrite IH by (rewrite length_insert; lia).
    rewrite (take_S_r _ _ (f lo)) by (apply list_lookup_insert_eq; lia).
    rewrite take_insert_ge by lia.
    by rewrite <- app_assoc.
Qed.

Lemma for_range_fill_all (f : nat → Z) (n : nat) :
  for_range 0 n (λ i l, <[i := f i]> l) (replicate n 0) = f <$> seq 0 n.
Proof. rewrite for_range_fill by (rewrite length_replicate; lia). done. Qed.

(** ** Blob identifier lists *)

Section blob_lists.
Import helper.

Lemma GetBlobList_spec (startId count : Z) :
  GetBlobList startId count
  = (λ i : nat, wrap64 (startId + Z.of_nat i)) <$> seq 0 (Z.to_nat count).
Proof. unfold GetBlobList, make_ids. apply for_range_fill_all. Qed.

(** The branch taken when the start index is below the end index walks up
    from the start to the end. *)
Lemma GetBlobListByIndex_ascending (a b : BlobID) :
  is_uint64 a → is_uint64 b → a < b → b - a + 1 < 2 ^ 64 →
  GetBlobListByIndex a b = ascending a (Z.to_nat (b - a + 1)).
Proof.
  unfold is_uint64. intros Ha Hb Hlt Hsmall. unfold GetBlobListByIndex, make_ids.
  destruct (Z.ltb_spec a b) as [_|]; [|lia].
  replace (wrap64 (b - a + 1)) with (b - a + 1)
    by (unfold wrap64; rewrite Z.mod_small; lia).
  rewrite (for_range_fill_all (λ i : nat, wrap64 (a + Z.of_nat i))).
  unfold ascending.
  apply list_fmap_ext. intros i x Hx.
  apply lookup_seq in Hx as [-> Hi].
  unfold wrap64. apply Z.mod_small. lia.
Qed.

(** The other branch starts from the END index and walks down from there,
    below the end index, wrapping around at zero. *)
Lemma GetBlobListByIndex_other_branch (a b : BlobID) :
  is_uint64 a → is_uint64 b → b ≤ a → a - b + 1 < 2 ^ 64 →
  GetBlobListByIndex a b
  = (λ i : nat, wrap64 (b - Z.of_nat i)) <$> seq 0 (Z.to_nat (a - b + 1)).
Proof.
  unfold is_uint64. intros Ha Hb Hle Hsmall. unfold GetBlobListByIndex, make_ids.
  destruct (Z.ltb_spec a b) as [|_]; [lia|].
  replace (wrap64 (a - b + 1)) with (a - b + 1)
    by (unfold wrap64; rewrite Z.mod_small; lia).
  apply (for_range_fill_all (λ i : nat, wrap64 (b - Z.of_nat i))).
Qed.

(** C1 (as the code has it).  On the call the test catalogue makes,
    [GetBlobListByIndex(2, 0)], the result is [0, 2^64-1, 2^64-2]: three
    identifiers, but counted down from the end index, not the descending
    sequence [2, 1, 0] from the start index to the end index. *)
Theorem GetBlobListByIndex_2_0 :
  GetBlobListByIndex 2 0 = [0; 18446744073709551615; 18446744073709551614] ∧
  GetBlobListByIndex 2 0 ≠ descending 2 3 ∧
  descending 2 3 = [2; 1; 0].
Proof. split; [|split]; [reflexivity | discriminate | reflexivity]. Qed.

End blob_lists.

(** ** Fork and version policy *)

Section fork_policy.
Import config inputs.

Lemma active_mono (ts : option Z) (t1 t2 : Z) :
  t1 ≤ t2 → active ts t1 = true → active ts t2 = true.
Proof.
  destruct ts as [t|]; simpl; [|done].
  intros Hle H1. apply Z.leb_le. apply Z.leb_le in H1. lia.
Qed.

Lemma GetPayloadVersion_range (f : ForkConfig) (t : Z) :
  1 ≤ GetPayloadVersion f t ≤ 4.
Proof. unfold GetPayloadVersion. repeat case_match; lia. Qed.

(** Monotonicity needs no assumption on the order of the forks. *)
Lemma GetPayloadVersion_mono_any (f : ForkConfig) (t1 t2 : Z) :
  t1 ≤ t2 → GetPayloadVersion f t1 ≤ GetPayloadVersion f t2.
Proof.
  intros Hle. unfold GetPayloadVersion, IsPrague, IsCancun, IsShanghai.
  pose proof (active_mono (PragueTimestamp f) _ _ Hle) as HP.
  pose proof (active_mono (CancunTimestamp f) _ _ Hle) as HC.
  pose proof (active_mono (ShanghaiTimestamp f) _ _ Hle) as HS.
  destruct (active (PragueTimestamp f) t1); [rewrite HP by done; lia|].
  destruct (active (CancunTimestamp f) t1).
  { rewrite HC by done. destruct (active (PragueTimestamp f) t2); lia. }
  destruct (active (ShanghaiTimestamp f) t1).
  { rewrite HS by done.
    destruct (active (PragueTimestamp f) t2), (active (CancunTimestamp f) t2); lia. }
  repeat case_match; lia.
Qed.

(** C8.  For a fork configuration with ordered activation timestamps
    (Shanghai ≤ Cancun ≤ Prague, each when present) and timestamps
    [t1 ≤ t2], [GetPayloadVersion t1 ≤ GetPayloadVersion t2], and the same
    for [NewPayloadVersion]. *)
Theorem payload_version_monotone (f : ForkConfig) (t1 t2 : Z) :
  ordered f → t1 ≤ t2 →
  GetPayloadVersion f t1 ≤ GetPayloadVersion f t2 ∧
  NewPayloadVersion f t1 ≤ NewPayloadVersion f t2.
Proof.
  intros _ Hle. unfold NewPayloadVersion.
  split; by apply GetPayloadVersion_mono_any.
Qed.

Lemma payload_version_monotone_witness :
  ordered forks_10_20_30 ∧ 15 ≤ 25 ∧
  GetPayloadVersion forks_10_20_30 15 ≤ GetPayloadVersion forks_10_20_30 25 ∧
  NewPayloadVersion forks_10_20_30 15 ≤ NewPayloadVersion forks_10_20_30 25.
Proof.
  assert (Ho : ordered forks_10_20_30) by (repeat split; simpl; lia).
  assert (Hle : 15 ≤ 25) by lia.
  split; [exact Ho | split; [exact Hle|]].
  exact (payload_version_monotone forks_10_20_30 15 25 Ho Hle).
Defined.

End fork_policy.

(** ** Count parameters of steps *)

Section step_counts.
Import suite_blobs inputs.

(** C10.  A zero count parameter defaults to one and any other value is
    returned unchanged, for [NewPayloads.GetPayloadCount],
    [LaunchClients.GetClientCount] and
    [SendBlobTransactions.GetBlobsPerTransaction]. *)
Theorem zero_counts_default_to_one
    (np : NewPayloads) (lc : LaunchClients) (sb : SendBlobTransactions) :
  (PayloadCount np = 0 → GetPayloadCount np = 1) ∧
  (PayloadCount np ≠ 0 → GetPayloadCount np = PayloadCount np) ∧
  (ClientCount lc = 0 → GetClientCount lc = 1) ∧
  (ClientCount lc ≠ 0 → GetClientCount lc = ClientCount lc) ∧
  (BlobsPerTransaction sb = 0 → GetBlobsPerTransaction sb = 1) ∧
  (BlobsPerTransaction sb ≠ 0 → GetBlobsPerTransaction sb = BlobsPerTransaction sb).
Proof.
  unfold GetPayloadCount, GetClientCount, GetBlobsPerTransaction.
  repeat split; intros H;
    match goal with
    | |- context [?x =? 0] => destruct (Z.eqb_spec x 0); congruence
    end.
Qed.

Lemma zero_counts_default_to_one_witness :
  GetPayloadCount two_payloads = 2 ∧
  GetClientCount one_client_by_default = 1 ∧
  GetBlobsPerTransaction one_blob_by_default = 1.
Proof.
  destruct (zero_counts_default_to_one two_payloads one_client_by_default
              one_blob_by_default) as (_ & H2 & H3 & _ & H5 & _).
  split; [|split].
  - apply H2. discriminate.
  - apply H3. reflexivity.
  - apply H5. reflexivity.
Defined.

End step_counts.

(** ** Versioned hashes *)

Section versioned_hash.
Import types.

Lemma PutUint32_length (w : Z) : length (binary.PutUint32 w) = 4%nat.
Proof. reflexivity. Qed.

Lemma PutUint32_bytes (w : Z) : Forall is_byte (binary.PutUint32 w).
Proof.
  unfold binary.PutUint32, is_byte.
  repeat constructor; apply Z.mod_pos_bound; lia.
Qed.

Lemma Sum256_length (msg : list Z) : length (sha256.Sum256 msg) = 32%nat.
Proof. unfold sha256.Sum256. rewrite !length_app, !PutUint32_length. done. Qed.

Lemma Sum256_bytes (msg : list Z) : Forall is_byte (sha256.Sum256 msg).
Proof.
  unfold sha256.Sum256. rewrite !Forall_app.
  repeat split; apply PutUint32_bytes.
Qed.

Example fmt_examples :
  fmt_x 0x20000 = "20000"%string ∧ fmt_x 0 = "0"%string ∧
  fmt_d 393216 = "393216"%string ∧
  hex_EncodeToString [0x01; 0xab; 0x0f] = "01ab0f"%string.
Proof. vm_compute. done. Qed.

Example sha256_constants :
  length sha256.K = 64%nat ∧ sha256.K !! 0%nat = Some 0x428a2f98 ∧
  sha256.K !! 63%nat = Some 0xc67178f2 ∧
  sha256.H0 !! 0%nat = Some 0x6a09e667 ∧ sha256.H0 !! 7%nat = Some 0x5be0cd19.
Proof. vm_compute. done. Qed.

Example Sum256_abc :
  sha256.Sum256 [0x61; 0x62; 0x63]
  = [ 0xba; 0x78; 0x16; 0xbf; 0x8f; 0x01; 0xcf; 0xea;
      0x41; 0x41; 0x40; 0xde; 0x5d; 0xae; 0x22; 0x23;
      0xb0; 0x03; 0x61; 0xa3; 0x96; 0x17; 0x7a; 0x9c;
      0xb4; 0x10; 0xff; 0x61; 0xf2; 0x00; 0x15; 0xad ].
Proof. vm_compute. reflexivity. Qed.

(** C7.  For a 48-byte commitment [c], [ComputeVersionedHash c] is 32 bytes
    long, its first byte is the version constant 0x01, and its bytes 1..31
    are bytes 1..31 of [sha256(c)]. *)
Theorem ComputeVersionedHash_layout (c : KZGCommitment) :
  length c = 48%nat →
  length (ComputeVersionedHash c) = 32%nat ∧
  ComputeVersionedHash c !! 0%nat = Some 0x01 ∧
  (∀ i : nat, (1 ≤ i < 32)%nat →
     ComputeVersionedHash c !! i = sha256.Sum256 c !! i) ∧
  drop 1 (ComputeVersionedHash c) = drop 1 (sha256.Sum256 c).
Proof.
  intros _. unfold ComputeVersionedHash, KZGToVersionedHash.
  pose proof (Sum256_length c) as Hlen.
  split; [by rewrite length_insert|].
  split; [apply list_lookup_insert_eq; lia|].
  split.
  - intros i Hi. apply list_lookup_insert_ne. lia.
  - destruct (sha256.Sum256 c); [done|]. done.
Qed.

Lemma ComputeVersionedHash_layout_witness :
  length (replicate 48 0) = 48%nat ∧
  length (ComputeVersionedHash (replicate 48 0)) = 32%nat ∧
  ComputeVersionedHash (replicate 48 0) !! 0%nat = Some 0x01 ∧
  (∀ i : nat, (1 ≤ i < 32)%nat →
     ComputeVersionedHash (replicate 48 0) !! i
     = sha256.Sum256 (replicate 48 0) !! i) ∧
  drop 1 (ComputeVersionedHash (replicate 48 0))
  = drop 1 (sha256.Sum256 (replicate 48 0)).
Proof.
  split; [reflexivity|].
  apply (ComputeVersionedHash_layout (replicate 48 0)). reflexivity.
Defined.

End versioned_hash.

(** ** Payload verification before the fork *)

Section pre_fork.
Import suite_blobs inputs.

Lemma VerifyPayload_pre_fork_cases
    (CalcExcessDataGas : Z → Z → Z) (GetDataGasPrice : Z → Z)
    (DATA_GAS_PER_BLOB : Z) (step : NewPayloads)
    (forkConfig : config.ForkConfig) (txs : list TransactionWithBlobData)
    (payload : ExecutableData) (previousPayload : option ExecutableData) :
  config.IsCancun forkConfig (Timestamp payload) = false →
  VerifyPayload CalcExcessDataGas GetDataGasPrice DATA_GAS_PER_BLOB
    step forkConfig txs payload previousPayload =
    match ExcessDataGas payload, DataGasUsed payload with
    | Some _, _ => (Some "payload contains non-nil excessDataGas pre-fork"%string, [])
    | None, Some _ => (Some "payload contains non-nil dataGasUsed pre-fork"%string, [])
    | None, None => (None, [])
    end.
Proof.
  intros Hpre. unfold VerifyPayload. rewrite Hpre.
  destruct (ExcessDataGas payload), (DataGasUsed payload); reflexivity.
Qed.

(** C9.  For a payload whose timestamp is before the fork activation,
    [VerifyPayload] returns an error if and only if the payload's
    excess-blob-gas field or its blob-gas-used field is present; when both
    are absent it succeeds, and in no case does it query a receipt: the
    result does not depend on the fee recurrence, the previous payload or
    the included transactions. *)
Theorem VerifyPayload_pre_fork
    (CalcExcessDataGas : Z → Z → Z) (GetDataGasPrice : Z → Z)
    (DATA_GAS_PER_BLOB : Z) (step : NewPayloads)
    (forkConfig : config.ForkConfig) (txs : list TransactionWithBlobData)
    (payload : ExecutableData) (previousPayload : option ExecutableData) :
  config.IsCancun forkConfig (Timestamp payload) = false →
  (is_Some (VerifyPayload CalcExcessDataGas GetDataGasPrice DATA_GAS_PER_BLOB
              step forkConfig txs payload previousPayload).1
   ↔ is_Some (ExcessDataGas payload) ∨ is_Some (DataGasUsed payload)) ∧
  (ExcessDataGas payload = None → DataGasUsed payload = None →
   VerifyPayload CalcExcessDataGas GetDataGasPrice DATA_GAS_PER_BLOB
     step forkConfig txs payload previousPayload = (None, [])) ∧
  (VerifyPayload CalcExcessDataGas GetDataGasPrice DATA_GAS_PER_BLOB
     step forkConfig txs payload previousPayload).2 = [].
Proof.
  intros Hpre.
  rewrite (VerifyPayload_pre_fork_cases _ _ _ _ _ _ _ _ Hpre).
  destruct (ExcessDataGas payload) as [e|], (DataGasUsed payload) as [u|]; simpl.
  - split; [split; eauto | split; [discriminate | done]].
  - split; [split; eauto | split; [discriminate | done]].
  - split; [split; eauto | split; [discriminate | done]].
  - split; [|split; done].
    split; [intros [? [=]] | intros [[? [=]]|[? [=]]]].
Qed.

Lemma VerifyPayload_pre_fork_witness :
  config.IsCancun forks_10_20_30 (Timestamp pre_fork_payload) = false ∧
  VerifyPayload sample_CalcExcessDataGas sample_GetDataGasPrice
    sample_DATA_GAS_PER_BLOB two_payloads forks_10_20_30 []
    pre_fork_payload None = (None, []).
Proof.
  assert (Hpre : config.IsCancun forks_10_20_30 (Timestamp pre_fork_payload) = false)
    by reflexivity.
  split; [exact Hpre|].
  destruct (VerifyPayload_pre_fork sample_CalcExcessDataGas sample_GetDataGasPrice
              sample_DATA_GAS_PER_BLOB two_payloads forks_10_20_30 []
              pre_fork_payload None Hpre) as (_ & H & _).
  apply H; reflexivity.
Defined.

End pre_fork.

(** ** The commitment engine *)

Section commitment_engine.
Import types inputs.

Variable cryptoCtx : Context.

(** The loop from index [i] on: either it fails and returns nothing, or it
    fills the entries [i], [i+1], ... from the remaining blobs and leaves
    the earlier entries alone. *)
Lemma commit_loop_spec (rest : Blobs) :
  ∀ (i : nat) (cs : list KZGCommitment) (hs : list Hash) (ps : list KZGProof),
  length cs = (i + length rest)%nat →
  length hs = (i + length rest)%nat →
  length ps = (i + length rest)%nat →
  match commit_loop cryptoCtx i rest cs hs ps with
  | (cs', hs', ps', Some _) => cs' = [] ∧ hs' = [] ∧ ps' = []
  | (cs', hs', ps', None) =>
      length cs' = length cs ∧ length hs' = length hs ∧ length ps' = length ps ∧
      (∀ j : nat, (j < i)%nat →
         cs' !! j = cs !! j ∧ hs' !! j = hs !! j ∧ ps' !! j = ps !! j) ∧
      (∀ (j : nat) blob, rest !! j = Some blob →
         ∃ c p, BlobToKZGCommitment cryptoCtx blob 1 = Ok c ∧
                ComputeBlobKZGProof cryptoCtx blob c 1 = Ok p ∧
                cs' !! (i + j)%nat = Some c ∧
                hs' !! (i + j)%nat = Some (KZGToVersionedHash c) ∧
                ps' !! (i + j)%nat = Some p)
  end.
Proof.
  induction rest as [|blob rest IH]; intros i cs hs ps Hcs Hhs Hps; simpl.
  - repeat split; done.
  - destruct (BlobToKZGCommitment cryptoCtx blob 1) as [c|e] eqn:Hc; [|done].
    destruct (ComputeBlobKZGProof cryptoCtx blob c 1) as [p|e] eqn:Hp; [|done].
    simpl in Hcs, Hhs, Hps.
    specialize (IH (S i) (<[i:=c]> cs) (<[i:=KZGToVersionedHash c]> hs)
                  (<[i:=p]> ps)).
    rewrite !length_insert in IH.
    specialize (IH ltac:(lia) ltac:(lia) ltac:(lia)).
    destruct (commit_loop cryptoCtx (S i) rest _ _ _) as [[[cs' hs'] ps'] [e|]];
      [done|].
    destruct IH as (Lc & Lh & Lp & Hbefore & Hafter).
    split; [done|]. split; [done|]. split; [done|]. split.
    + intros j Hj. destruct (Hbefore j ltac:(lia)) as (E1 & E2 & E3).
      rewrite E1, E2, E3.
      rewrite !list_lookup_insert_ne by lia. done.
    + intros [|j] b Hb; simpl in Hb.
      * injection Hb as <-. exists c, p.
        destruct (Hbefore i ltac:(lia)) as (E1 & E2 & E3).
        rewrite Nat.add_0_r, E1, E2, E3.
        rewrite !list_lookup_insert_eq by lia. done.
      * destruct (Hafter j b Hb) as (c' & p' & ? & ? & ? & ? & ?).
        exists c', p'. replace (i + S j)%nat with (S i + j)%nat by lia. done.
Qed.

(** When the blob at index [k] of what remains is the first to fail, the
    loop returns the prefixed text of the underlying error and nothing
    else, whatever the index and the accumulators. *)
Lemma commit_loop_first_failure (rest : Blobs) :
  ∀ (k i : nat) (cs : list KZGCommitment) (hs : list Hash) (ps : list KZGProof)
    (e : error),
  first_failure cryptoCtx rest k e →
  ∃ blob, rest !! k = Some blob ∧
    ((BlobToKZGCommitment cryptoCtx blob 1 = Err e ∧
      commit_loop cryptoCtx i rest cs hs ps
      = ([], [], [],
         Some (String.append "could not convert blob to commitment: " e)))
     ∨ (∃ c, BlobToKZGCommitment cryptoCtx blob 1 = Ok c ∧
             ComputeBlobKZGProof cryptoCtx blob c 1 = Err e ∧
             commit_loop cryptoCtx i rest cs hs ps
             = ([], [], [],
                Some (String.append "could not compute proof for blob: " e)))).
Proof.
  induction rest as [|blob rest IH]; intros k i cs hs ps e [[b [Hb Hf]] Hprev].
  - done.
  - destruct k as [|k]; simpl in Hb.
    + injection Hb as <-. exists blob. split; [done|]. simpl.
      destruct Hf as [Hc | (c & Hc & Hp)].
      * left. by rewrite Hc.
      * right. exists c. by rewrite Hc, Hp.
    + destruct (Hprev 0%nat blob ltac:(lia) eq_refl) as (c & p & Hc & Hp).
      simpl. rewrite Hc, Hp. apply (IH k). split; [eauto|].
      intros j b' Hj Hb'. apply (Hprev (S j) b'); [lia | done].
Qed.

End commitment_engine.

Section commitment_claims.
Import types inputs.

(** C4.  [ComputeCommitmentsAndProofs] is atomic: either it returns an
    error and the three result lists are empty, or it returns no error and
    the three lists have the length of the input, entry [i] being the
    commitment of blob [i], the versioned hash of that commitment and the
    proof for blob [i] and that commitment. *)
Theorem ComputeCommitmentsAndProofs_atomic (blobs : Blobs) (cryptoCtx : Context) :
  match ComputeCommitmentsAndProofs blobs cryptoCtx with
  | (commitments, versionedHashes, proofs, Some _) =>
      commitments = [] ∧ versionedHashes = [] ∧ proofs = []
  | (commitments, versionedHashes, proofs, None) =>
      length commitments = length blobs ∧
      length versionedHashes = length blobs ∧
      length proofs = length blobs ∧
      ∀ (i : nat) blob, blobs !! i = Some blob →
        ∃ c p, BlobToKZGCommitment cryptoCtx blob 1 = Ok c ∧
               ComputeBlobKZGProof cryptoCtx blob c 1 = Ok p ∧
               commitments !! i = Some c ∧
               versionedHashes !! i = Some (KZGToVersionedHash c) ∧
               proofs !! i = Some p
  end.
Proof.
  unfold ComputeCommitmentsAndProofs.
  pose proof (commit_loop_spec cryptoCtx blobs 0
                (replicate (length blobs) (replicate 48 0))
                (replicate (length blobs) (replicate 32 0))
                (replicate (length blobs) (replicate 48 0))) as H.
  rewrite !length_replicate in H.
  specialize (H eq_refl eq_refl eq_refl).
  destruct (commit_loop _ _ _ _ _ _) as [[[cs hs] ps] [e|]]; [done|].
  destruct H as (Lc & Lh & Lp & _ & Hentries).
  split; [done|]. split; [done|]. split; [done|].
  intros i blob Hi. apply (Hentries i blob Hi).
Qed.

(** C3 (as the code has it).  When the blob at index [i] is the first whose
    commitment or proof computation fails, with underlying error [e], the
    engine returns no partial result and an error whose text is
    "could not convert blob to commitment: " or
    "could not compute proof for blob: " followed by the text of [e]; the
    index is not part of the text. *)
Theorem ComputeCommitmentsAndProofs_error_text
    (blobs : Blobs) (cryptoCtx : Context) (i : nat) (e : error) :
  first_failure cryptoCtx blobs i e →
  ∃ blob, blobs !! i = Some blob ∧
    ((BlobToKZGCommitment cryptoCtx blob 1 = Err e ∧
      ComputeCommitmentsAndProofs blobs cryptoCtx
      = ([], [], [],
         Some (String.append "could not convert blob to commitment: " e)))
     ∨ (∃ c, BlobToKZGCommitment cryptoCtx blob 1 = Ok c ∧
             ComputeBlobKZGProof cryptoCtx blob c 1 = Err e ∧
             ComputeCommitmentsAndProofs blobs cryptoCtx
             = ([], [], [],
                Some (String.append "could not compute proof for blob: " e)))).
Proof.
  intros Hfirst. unfold ComputeCommitmentsAndProofs.
  by apply commit_loop_first_failure.
Qed.

Lemma picky_first_failure : first_failure picky_ctx good_then_bad 1 "boom".
Proof.
  split.
  - exists bad_blob. split; [reflexivity|]. left. reflexivity.
  - intros j b Hj Hb. destruct j as [|j]; [|lia].
    injection Hb as <-. exists (replicate 48 0), (replicate 48 0).
    split; reflexivity.
Qed.

Lemma ComputeCommitmentsAndProofs_error_text_witness :
  first_failure picky_ctx good_then_bad 1 "boom" ∧
  ∃ blob, good_then_bad !! 1%nat = Some blob ∧
    ((BlobToKZGCommitment picky_ctx blob 1 = Err "boom"%string ∧
      ComputeCommitmentsAndProofs good_then_bad picky_ctx
      = ([], [], [],
         Some (String.append "could not convert blob to commitment: " "boom")))
     ∨ (∃ c, BlobToKZGCommitment picky_ctx blob 1 = Ok c ∧
             ComputeBlobKZGProof picky_ctx blob c 1 = Err "boom"%string ∧
             ComputeCommitmentsAndProofs good_then_bad picky_ctx
             = ([], [], [],
                Some (String.append "could not compute proof for blob: " "boom")))).
Proof.
  split; [exact picky_first_failure|].
  exact (ComputeCommitmentsAndProofs_error_text good_then_bad picky_ctx 1 "boom"
           picky_first_failure).
Defined.

(** C3 (as stated) fails: the second of two blobs is the first to fail, and
    the error returned is "could not convert blob to commitment: boom",
    which does not show the index 1. *)
Lemma error_text_omits_index :
  ¬ (∀ (blobs : Blobs) (cryptoCtx : Context) (i : nat) (e : error),
       first_failure cryptoCtx blobs i e →
       error_names_index (ComputeCommitmentsAndProofs blobs cryptoCtx).2 i e).
Proof.
  intros H.
  destruct (H good_then_bad picky_ctx 1%nat "boom"%string picky_first_failure)
    as (msg & Hmsg & _ & Hidx).
  assert (Hres : (ComputeCommitmentsAndProofs good_then_bad picky_ctx).2
                 = Some "could not convert blob to commitment: boom"%string)
    by (vm_compute; reflexivity).
  rewrite Hres in Hmsg. injection Hmsg as <-.
  vm_compute in Hidx. discriminate.
Qed.

End commitment_claims.

(** ** Cross-validation of payload and pool *)

Section cross_validation.
Import suite_blobs inputs.

Variable geth : Geth.
Variable pool : TestBlobTxPool.

Lemma lengths_agree_test (blobTx : TransactionWithBlobData)
    (blobData : BlobTxWrapData) :
  (negb (length (BlobHashes blobTx) =? length (Commitments blobData))%nat
   || negb (length (Commitments blobData) =? length (Blobs blobData))%nat
   || negb (length (Blobs blobData) =? length (Proofs blobData))%nat) = false
  ↔ lengths_agree blobTx blobData.
Proof.
  unfold lengths_agree.
  destruct (Nat.eqb_spec (length (BlobHashes blobTx)) (length (Commitments blobData)));
  destruct (Nat.eqb_spec (length (Commitments blobData)) (length (Blobs blobData)));
  destruct (Nat.eqb_spec (length (Blobs blobData)) (length (Proofs blobData)));
  simpl; split; intros H; try done; destruct H as (? & ? & ?); done.
Qed.


End cross_validation.

Section cross_validation_claims.
Import suite_blobs inputs.






End cross_validation_claims.

(** ** Byte strings *)

Section byte_strings.

Lemma byte_at_mid (pre elem post : list Z) (n i : nat) :
  length pre = n → (i < length elem)%nat →
  byte_at (pre ++ elem ++ post) (n + i) = byte_at elem i.
Proof.
  intros <- Hi. unfold byte_at.
  rewrite lookup_app_r by lia.
  replace (length pre + i - length pre)%nat with i by lia.
  by rewrite lookup_app_l.
Qed.

Lemma insert_mid (pre elem post : list Z) (n i : nat) (v : Z) :
  length pre = n → (i < length elem)%nat →
  <[(n + i)%nat := v]> (pre ++ elem ++ post) = pre ++ <[i := v]> elem ++ post.
Proof.
  intros <- Hi. rewrite insert_app_r_alt by lia.
  replace (length pre + i - length pre)%nat with i by lia.
  by rewrite insert_app_l.
Qed.

Lemma copy_at_mid (src : list Z) :
  ∀ pre old post : list Z, length old = length src →
  copy_at (pre ++ old ++ post) (length pre) src = pre ++ src ++ post.
Proof.
  induction src as [|x src IH]; intros pre old post Hlen; simpl.
  - by destruct old.
  - destruct old as [|o old]; [done|]. simpl in Hlen.
    rewrite insert_app_r_alt by lia. rewrite Nat.sub_diag. simpl.
    replace (pre ++ x :: old ++ post) with ((pre ++ [x]) ++ old ++ post)
      by (by rewrite <- app_assoc).
    replace (S (length pre)) with (length (pre ++ [x]))
      by (rewrite length_app; simpl; lia).
    rewrite IH by lia. by rewrite <- app_assoc.
Qed.

Lemma copy_at_whole (src old : list Z) :
  length old = length src → copy_at old 0 src = src.
Proof.
  intros Hlen. pose proof (copy_at_mid src [] old [] Hlen) as H.
  simpl in H. by rewrite !app_nil_r in H.
Qed.

Lemma slice_mid (pre elem post : list Z) (lo hi : nat) :
  length pre = lo → (lo + length elem)%nat = hi →
  slice (pre ++ elem ++ post) lo hi = elem.
Proof.
  intros <- <-. unfold slice. rewrite drop_app_length.
  replace (length pre + length elem - length pre)%nat with (length elem) by lia.
  by rewrite take_app_length.
Qed.

Lemma be_int_from (b : list Z) :
  ∀ acc : Z,
  foldl (λ acc b, acc * 256 + b) acc b
  = acc * 256 ^ Z.of_nat (length b) + be_int b.
Proof.
  unfold be_int. induction b as [|x b IH]; intros acc; simpl.
  - lia.
  - rewrite (IH (acc * 256 + x)), (IH (0 * 256 + x)).
    replace (Z.of_nat (S (length b))) with (Z.of_nat (length b) + 1) by lia.
    rewrite Z.pow_add_r by lia. lia.
Qed.

Lemma be_int_app (a b : list Z) :
  be_int (a ++ b) = be_int a * 256 ^ Z.of_nat (length b) + be_int b.
Proof. unfold be_int at 1. rewrite foldl_app. apply be_int_from. Qed.

Lemma be_int_cons (x : Z) (l : list Z) :
  be_int (x :: l) = x * 256 ^ Z.of_nat (length l) + be_int l.
Proof. change (x :: l) with ([x] ++ l). rewrite be_int_app. unfold be_int at 1. simpl. lia. Qed.

Lemma be_int_range (l : list Z) :
  Forall is_byte l → 0 ≤ be_int l < 256 ^ Z.of_nat (length l).
Proof.
  induction 1 as [|x l Hx Hl IH].
  - unfold be_int. simpl. lia.
  - rewrite be_int_cons. simpl length. unfold is_byte in Hx.
    replace (Z.of_nat (S (length l))) with (Z.of_nat (length l) + 1) by lia.
    rewrite Z.pow_add_r by lia. nia.
Qed.

(** Two strings with a common prefix and the same length compare as their
    first differing bytes. *)
Lemma be_int_lt_at (p s1 s2 : list Z) (x y : Z) :
  length s1 = length s2 → Forall is_byte s1 → Forall is_byte s2 → x < y →
  be_int (p ++ x :: s1) < be_int (p ++ y :: s2).
Proof.
  intros Hlen H1 H2 Hxy.
  rewrite !be_int_app, !be_int_cons. simpl length. rewrite Hlen.
  pose proof (be_int_range s1 H1) as R1. pose proof (be_int_range s2 H2) as R2.
  rewrite Hlen in R1.
  assert (0 < 256 ^ Z.of_nat (length s2)) by (apply Z.pow_pos_nonneg; lia).
  nia.
Qed.

End byte_strings.

(** ** Clamping a field element *)

Section clamping.
Import helper.

Variable BlsModulus : list Z.

Lemma clamp_elem_length (fuel : nat) :
  ∀ (i : nat) (e : list Z), length (clamp_elem BlsModulus i fuel e) = length e.
Proof.
  induction fuel as [|fuel IH]; intros i e; simpl; [done|].
  repeat case_match; rewrite ?IH, ?length_insert; done.
Qed.

(** The loop of [FillBlob], in place in the blob, does to the chunk what
    the loop of [VerifyBlob] does to its local array. *)
Lemma clamp_in_place_mid (fuel : nat) :
  ∀ (chunkIdx i : nat) (pre elem post : list Z),
  length pre = (chunkIdx * 32)%nat → (i + fuel ≤ length elem)%nat →
  clamp_in_place BlsModulus chunkIdx i fuel (pre ++ elem ++ post)
  = pre ++ clamp_elem BlsModulus i fuel elem ++ post.
Proof.
  induction fuel as [|fuel IH]; intros chunkIdx i pre elem post Hpre Hi; simpl;
    [done|].
  rewrite (byte_at_mid pre elem post (chunkIdx * 32) i) by (done || lia).
  destruct (byte_at elem i <? byte_at BlsModulus i); [done|].
  destruct (byte_at BlsModulus i <=? byte_at elem i).
  - destruct (0 <? byte_at BlsModulus i).
    + apply insert_mid; [done | lia].
    + rewrite insert_mid by (done || lia).
      apply IH; [done | rewrite length_insert; lia].
  - apply IH; [done | lia].
Qed.

(** Once the bytes before position [i] agree with the modulus, and the
    modulus has a nonzero byte from [i] on, the clamped element is below
    the modulus. *)
Lemma clamp_elem_below (fuel : nat) :
  ∀ (i : nat) (e : list Z),
  (i + fuel)%nat = length BlsModulus → length e = length BlsModulus →
  Forall is_byte e → Forall is_byte BlsModulus →
  take i e = take i BlsModulus →
  Exists (λ b, 0 < b) (drop i BlsModulus) →
  be_int (clamp_elem BlsModulus i fuel e) < be_int BlsModulus.
Proof.
  induction fuel as [|fuel IH]; intros i e Hi Hlen He Hm Hpre Hnz.
  - rewrite drop_ge in Hnz by lia. inversion Hnz.
  - destruct (lookup_lt_is_Some_2 BlsModulus i ltac:(lia)) as [mi Hmi].
    destruct (lookup_lt_is_Some_2 e i ltac:(lia)) as [b Hb].
    assert (Hmi_byte : is_byte mi) by exact (Forall_lookup_1 _ _ _ _ Hm Hmi).
    assert (Hb_byte : is_byte b) by exact (Forall_lookup_1 _ _ _ _ He Hb).
    unfold is_byte in Hmi_byte, Hb_byte.
    assert (Hsuffix : length (drop (S i) e) = length (drop (S i) BlsModulus))
      by (rewrite !length_drop; lia).
    assert (He_suffix : Forall is_byte (drop (S i) e)) by by apply Forall_drop.
    assert (Hm_suffix : Forall is_byte (drop (S i) BlsModulus))
      by by apply Forall_drop.
    simpl. unfold byte_at. rewrite Hmi, Hb. simpl.
    destruct (Z.ltb_spec b mi) as [Hlt|Hge].
    { rewrite <- (take_drop_middle BlsModulus i mi Hmi).
      rewrite <- (take_drop_middle e i b Hb).
      rewrite Hpre. by apply be_int_lt_at. }
    destruct (Z.leb_spec mi b) as [_|]; [|lia].
    destruct (Z.ltb_spec 0 mi) as [Hpos|Hzero].
    { rewrite insert_take_drop by lia.
      rewrite <- (take_drop_middle BlsModulus i mi Hmi).
      rewrite Hpre. apply be_int_lt_at; try done.
      unfold wrap8. rewrite Z.mod_small; lia. }
    assert (mi = 0) as -> by lia.
    apply IH.
    + lia.
    + by rewrite length_insert.
    + apply Forall_insert; [done | unfold is_byte; lia].
    + done.
    + rewrite (take_S_r _ _ 0) by (apply list_lookup_insert_eq; lia).
      rewrite take_insert_ge by lia.
      rewrite (take_S_r BlsModulus i 0 Hmi). by rewrite Hpre.
    + rewrite (drop_S _ _ _ Hmi) in Hnz.
      apply Exists_cons in Hnz as [?|?]; [lia | done].
Qed.

Lemma field_element_below (e : list Z) :
  length BlsModulus = 32%nat → Forall is_byte BlsModulus →
  Exists (λ b, 0 < b) BlsModulus →
  length e = 32%nat → Forall is_byte e →
  be_int (clamp_elem BlsModulus 0 32 e) < be_int BlsModulus.
Proof.
  intros Hm Hmb Hnz He Heb.
  apply clamp_elem_below; try done; lia.
Qed.

End clamping.

(** ** Filling and verifying a blob *)

Section filling.
Import helper.

Variable BlsModulus : list Z.

Local Arguments clamp_elem : simpl never.
Local Arguments clamp_in_place : simpl never.

Local Abbreviation field_element := (clamp_elem BlsModulus 0 32).

Lemma digests_S (n : nat) (cur : list Z) :
  digests (S n) cur = cur :: digests n (sha256.Sum256 cur).
Proof. reflexivity. Qed.

Lemma digests_length (n : nat) : ∀ cur, length (digests n cur) = n.
Proof. induction n as [|n IH]; intros cur; [done|]. rewrite digests_S. simpl. by rewrite IH. Qed.

Lemma digests_wf (n : nat) :
  ∀ cur, length cur = 32%nat → Forall is_byte cur →
  Forall (λ d, length d = 32%nat ∧ Forall is_byte d) (digests n cur).
Proof.
  induction n as [|n IH]; intros cur Hlen Hbytes; [constructor|].
  rewrite digests_S. constructor; [done|].
  apply IH; [apply Sum256_length | apply Sum256_bytes].
Qed.

Lemma for_range_S {St : Type} (lo n : nat) (body : nat → St → St) (s : St) :
  for_range lo (S n) body s = for_range (S lo) n body (body lo s).
Proof. reflexivity. Qed.

Lemma fill_chunk_mid (chunkIdx : nat) (pre old post cur : list Z) :
  length pre = (chunkIdx * 32)%nat → length old = 32%nat →
  length cur = 32%nat →
  fill_chunk BlsModulus chunkIdx (pre ++ old ++ post, cur)
  = (pre ++ field_element cur ++ post, sha256.Sum256 cur).
Proof.
  intros Hpre Hold Hcur. unfold fill_chunk. cbv zeta. f_equal.
  rewrite <- Hpre.
  rewrite (copy_at_mid cur pre old post) by lia.
  apply clamp_in_place_mid; [done | lia].
Qed.

Lemma split_chunk (rest : list Z) :
  (32 ≤ length rest)%nat →
  ∃ old post, rest = old ++ post ∧ length old = 32%nat.
Proof.
  intros H. exists (take 32 rest), (drop 32 rest).
  split; [by rewrite take_drop | rewrite length_take; lia].
Qed.

(** After [n] iterations from chunk [lo] the chunks [lo .. lo+n-1] hold
    the clamped digests and the rest of the buffer is as it was. *)
Lemma fill_loop_spec (n : nat) :
  ∀ (lo : nat) (pre rest cur : list Z),
  length pre = (lo * 32)%nat → (n * 32 ≤ length rest)%nat →
  length cur = 32%nat →
  (for_range lo n (fill_chunk BlsModulus) (pre ++ rest, cur)).1
  = pre ++ concat (field_element <$> digests n cur) ++ drop (n * 32) rest.
Proof.
  induction n as [|n IH]; intros lo pre rest cur Hpre Hrest Hcur.
  - done.
  - destruct (split_chunk rest ltac:(lia)) as (old & post & -> & Hold).
    rewrite length_app in Hrest.
    rewrite for_range_S, fill_chunk_mid by done.
    rewrite (app_assoc pre).
    rewrite IH.
    + rewrite digests_S, fmap_cons, concat_cons.
      replace (S n * 32)%nat with (32 + n * 32)%nat by lia.
      rewrite (drop_app_add' old post 32 (n * 32)) by done.
      by rewrite <- !app_assoc.
    + rewrite length_app, clamp_elem_length. lia.
    + lia.
    + apply Sum256_length.
Qed.

Lemma concat_length_32 (ls : list (list Z)) :
  Forall (λ l, length l = 32%nat) ls → length (concat ls) = (length ls * 32)%nat.
Proof. induction 1 as [|l ls Hl _ IH]; [done|]. rewrite concat_cons, length_app, IH. simpl. lia. Qed.

Lemma slice_concat (ls : list (list Z)) (c : nat) (x : list Z) :
  Forall (λ l, length l = 32%nat) ls → ls !! c = Some x →
  slice (concat ls) (c * 32) ((c + 1) * 32) = x.
Proof.
  intros Hall Hc.
  assert (Hx : length x = 32%nat) by exact (Forall_lookup_1 _ _ _ _ Hall Hc).
  rewrite <- (take_drop_middle ls c x Hc).
  rewrite concat_app, concat_cons.
  apply slice_mid.
  - rewrite concat_length_32 by by apply Forall_take.
    rewrite length_take. apply lookup_lt_Some in Hc. lia.
  - lia.
Qed.

Lemma fill_all (n : nat) (blob cur : list Z) :
  length blob = (n * 32)%nat → length cur = 32%nat →
  (for_range 0 n (fill_chunk BlsModulus) (blob, cur)).1
  = concat (field_element <$> digests n cur).
Proof.
  intros Hblob Hcur.
  pose proof (fill_loop_spec n 0 [] blob cur eq_refl) as H.
  rewrite !app_nil_l in H. rewrite H by (done || lia).
  rewrite drop_ge by lia. by rewrite app_nil_r.
Qed.

Lemma fst_of_let {A B C : Type} (s : A * B) (f : A → C) :
  (let '(a, _) := s in f a) = f s.1.
Proof. by destruct s. Qed.

Local Opaque types.FieldElementsPerBlob.

(** What [FillBlob] leaves in the buffer for a nonzero identifier. *)
Lemma FillBlob_nonzero (blobId : BlobID) (blob : types.Blob) :
  blobId ≠ 0 → length blob = types.blob_size →
  FillBlob BlsModulus blobId (Some blob)
  = (Some (concat (field_element <$>
             digests types.FieldElementsPerBlob
               (sha256.Sum256 (binary.PutUint64 blobId)))), None).
Proof.
  intros Hid Hlen. unfold FillBlob.
  destruct (Z.eqb_spec blobId 0) as [|_]; [done|].
  rewrite (fst_of_let _ (λ b, (Some b, None))).
  rewrite fill_all; [done | exact Hlen | apply Sum256_length].
Qed.

Lemma digests_of_hash (n : nat) (x : list Z) :
  Forall (λ d, length d = 32%nat ∧ Forall is_byte d)
    (digests n (sha256.Sum256 x)).
Proof. apply digests_wf; [apply Sum256_length | apply Sum256_bytes]. Qed.

Lemma field_elements_lengths (n : nat) (x : list Z) :
  Forall (λ l, length l = 32%nat)
    (field_element <$> digests n (sha256.Sum256 x)).
Proof.
  apply Forall_fmap. eapply Forall_impl; [apply digests_of_hash|].
  intros d [Hd _]. simpl. by rewrite clamp_elem_length.
Qed.

(** Every chunk that [FillBlob] writes is below the modulus, for any
    32-byte modulus that is not zero. *)
Lemma FillBlob_below (blobId : BlobID) (blob : types.Blob) (chunkIdx : nat) :
  length BlsModulus = 32%nat → Forall is_byte BlsModulus →
  Exists (λ b, 0 < b) BlsModulus →
  blobId ≠ 0 → length blob = types.blob_size →
  (chunkIdx < types.FieldElementsPerBlob)%nat →
  ∃ blob', FillBlob BlsModulus blobId (Some blob) = (Some blob', None) ∧
           length blob' = types.blob_size ∧
           be_int (slice blob' (chunkIdx * 32) ((chunkIdx + 1) * 32))
           < be_int BlsModulus.
Proof.
  intros Hm Hmb Hnz Hid Hlen Hc.
  rewrite (FillBlob_nonzero blobId blob Hid Hlen).
  eexists. split; [reflexivity|].
  set (seed := binary.PutUint64 blobId).
  pose proof (field_elements_lengths types.FieldElementsPerBlob seed) as Hls.
  split.
  - rewrite (concat_length_32 _ Hls), length_fmap, digests_length. done.
  - destruct (lookup_lt_is_Some_2
                (digests types.FieldElementsPerBlob (sha256.Sum256 seed)) chunkIdx)
      as [d Hd]; [by rewrite digests_length|].
    rewrite (slice_concat _ chunkIdx (field_element d) Hls)
      by (by rewrite list_lookup_fmap, Hd).
    destruct (Forall_lookup_1 _ _ _ _ (digests_of_hash _ seed) Hd) as [Hdl Hdb].
    by apply field_element_below.
Qed.

Lemma verify_chain_S (c n : nat) (cur blob : list Z) :
  verify_chain BlsModulus c (S n) cur blob
  = if negb (bytes_Equal (slice blob (c * 32) ((c + 1) * 32))
               (field_element (copy_at (replicate 32 0) 0 cur)))
    then false
    else verify_chain BlsModulus (S c) n (sha256.Sum256 cur) blob.
Proof. reflexivity. Qed.

Lemma bytes_Equal_refl (l : list Z) : bytes_Equal l l = true.
Proof. unfold bytes_Equal. by apply bool_decide_eq_true. Qed.

(** [VerifyBlob] accepts what [FillBlob] wrote, chunk after chunk. *)
Lemma verify_chain_mid (n : nat) :
  ∀ (c : nat) (pre cur post : list Z),
  length pre = (c * 32)%nat → length cur = 32%nat →
  verify_chain BlsModulus c n cur
    (pre ++ concat (field_element <$> digests n cur) ++ post) = true.
Proof.
  induction n as [|n IH]; intros c pre cur post Hpre Hcur; [done|].
  rewrite verify_chain_S, digests_S, fmap_cons, concat_cons.
  rewrite (copy_at_whole cur (replicate 32 0))
    by (by rewrite length_replicate).
  rewrite <- (app_assoc (field_element cur)).
  rewrite (slice_mid pre (field_element cur) _ (c * 32) ((c + 1) * 32) Hpre)
    by (rewrite clamp_elem_length; lia).
  rewrite bytes_Equal_refl. simpl negb. cbv iota.
  rewrite (app_assoc pre).
  apply IH; [|apply Sum256_length].
  rewrite length_app, clamp_elem_length. lia.
Qed.

End filling.

Section empty_blob.
Import helper.

Lemma verify_empty_S (c n : nat) (blob : list Z) :
  verify_empty c (S n) blob
  = if negb (bytes_Equal (slice blob (c * 32) ((c + 1) * 32)) (replicate 32 0))
    then false
    else verify_empty (S c) n blob.
Proof. reflexivity. Qed.

(** Identifier zero: [VerifyBlob] accepts the chunks that are all zero,
    and only those. *)
Lemma verify_empty_iff (n : nat) :
  ∀ (c : nat) (pre rest : list Z),
  length pre = (c * 32)%nat → length rest = (n * 32)%nat →
  verify_empty c n (pre ++ rest) = true ↔ rest = replicate (n * 32) 0.
Proof.
  induction n as [|n IH]; intros c pre rest Hpre Hrest.
  - destruct rest; [done|]. simpl in Hrest. lia.
  - destruct (split_chunk rest ltac:(lia)) as (old & post & -> & Hold).
    rewrite length_app in Hrest.
    rewrite verify_empty_S.
    rewrite (slice_mid pre old post (c * 32) ((c + 1) * 32) Hpre) by lia.
    replace (S n * 32)%nat with (32 + n * 32)%nat by lia.
    rewrite replicate_add.
    unfold bytes_Equal. destruct (decide (old = replicate 32 0)) as [->|Hne].
    + rewrite bool_decide_eq_true_2 by done. simpl negb. cbv iota.
      rewrite (app_assoc pre).
      rewrite IH by (rewrite ?length_app, ?length_replicate; lia).
      split; [by intros -> | by intros ?%app_inv_head].
    + rewrite bool_decide_eq_false_2 by done. simpl negb. cbv iota.
      split; [done|]. intros Heq. destruct Hne.
      apply (f_equal (take 32)) in Heq.
      rewrite !take_app_length' in Heq by (by rewrite ?length_replicate).
      done.
Qed.

End empty_blob.

Section synthesizer_claims.
Import helper.

Local Opaque types.FieldElementsPerBlob.

Example BlsModulus_value :
  be_int gokzg4844.BlsModulus
  = 0x73eda753299d7d483339d80809a1d80553bda402fffe5bfeffffffff00000001.
Proof. reflexivity. Qed.

Lemma BlsModulus_wf :
  length gokzg4844.BlsModulus = 32%nat ∧
  Forall is_byte gokzg4844.BlsModulus ∧
  Exists (λ b, 0 < b) gokzg4844.BlsModulus.
Proof.
  split; [reflexivity|]. split.
  - unfold gokzg4844.BlsModulus, is_byte. repeat constructor; lia.
  - apply Exists_cons_hd. lia.
Qed.

(** C5.  For every nonzero identifier, after [FillBlob] on a blob buffer
    each of the 4096 32-byte field elements of the buffer, read as a
    big-endian integer, is strictly below the BLS modulus. *)
Theorem FillBlob_elements_below_modulus
    (blobId : BlobID) (blob : types.Blob) (chunkIdx : nat) :
  blobId ≠ 0 → length blob = types.blob_size →
  (chunkIdx < types.FieldElementsPerBlob)%nat →
  ∃ blob', FillBlob gokzg4844.BlsModulus blobId (Some blob) = (Some blob', None) ∧
           length blob' = types.blob_size ∧
           be_int (slice blob' (chunkIdx * 32) ((chunkIdx + 1) * 32))
           < be_int gokzg4844.BlsModulus.
Proof.
  destruct BlsModulus_wf as (Hlen & Hbytes & Hnz).
  by apply FillBlob_below.
Qed.

Lemma fresh_blob_length : length fresh_blob = types.blob_size.
Proof. apply length_replicate. Qed.

Lemma chunk_7_in_range : (7 < types.FieldElementsPerBlob)%nat.
Proof. apply Nat.ltb_lt. vm_compute. reflexivity. Qed.

Lemma FillBlob_elements_below_modulus_witness :
  1 ≠ 0 ∧ length fresh_blob = types.blob_size ∧
  (7 < types.FieldElementsPerBlob)%nat ∧
  ∃ blob', FillBlob gokzg4844.BlsModulus 1 (Some fresh_blob) = (Some blob', None) ∧
           length blob' = types.blob_size ∧
           be_int (slice blob' (7 * 32) ((7 + 1) * 32))
           < be_int gokzg4844.BlsModulus.
Proof.
  assert (H1 : 1 ≠ 0) by discriminate.
  split; [exact H1|]. split; [exact fresh_blob_length|].
  split; [exact chunk_7_in_range|].
  exact (FillBlob_elements_below_modulus 1 fresh_blob 7 H1 fresh_blob_length
           chunk_7_in_range).
Defined.

(** Identifier zero: [FillBlob] leaves the buffer as it is, and
    [VerifyBlob] accepts the all-zero blob and no other. *)
Lemma VerifyBlob_zero_exact (BlsModulus : list Z) (blob : types.Blob) :
  length blob = types.blob_size →
  VerifyBlob BlsModulus 0 (Some blob) = (true, None) ↔ blob = fresh_blob.
Proof.
  intros Hlen. unfold VerifyBlob, fresh_blob, types.blob_size in *.
  change (0 =? 0) with true. cbv iota.
  rewrite <- (verify_empty_iff types.FieldElementsPerBlob 0 [] blob eq_refl Hlen).
  rewrite app_nil_l. split; [by intros [= ->] | by intros ->].
Qed.

Lemma VerifyBlob_accepts_filled (BlsModulus : list Z) (blobId : BlobID) :
  ∃ blob', FillBlob BlsModulus blobId (Some fresh_blob) = (Some blob', None) ∧
           VerifyBlob BlsModulus blobId (Some blob') = (true, None).
Proof.
  destruct (decide (blobId = 0)) as [->|Hid].
  - exists fresh_blob. split; [reflexivity|].
    by apply VerifyBlob_zero_exact; [apply fresh_blob_length|].
  - rewrite (FillBlob_nonzero BlsModulus blobId fresh_blob Hid fresh_blob_length).
    eexists. split; [reflexivity|].
    unfold VerifyBlob. destruct (Z.eqb_spec blobId 0) as [|_]; [done|].
    pose proof (verify_chain_mid BlsModulus types.FieldElementsPerBlob 0 []
                  (sha256.Sum256 (binary.PutUint64 blobId)) []
                  eq_refl (Sum256_length _)) as H.
    rewrite app_nil_l, app_nil_r in H. by rewrite H.
Qed.


End synthesizer_claims.

(** * Further properties of the code *)

(** ** Fork configuration *)

Section fork_versions.
Import config.

(** X1.  The forkchoice-updated version is the payload version at the
    timestamp that counts, capped at 3; the timestamp of the payload
    attributes, when present, replaces the head timestamp.  No order of
    the forks is assumed. *)
Theorem ForkchoiceUpdatedVersion_caps_payload_version
    (f : ForkConfig) (headTimestamp : Z) (payloadAttributesTimestamp : option Z) :
  ForkchoiceUpdatedVersion f headTimestamp payloadAttributesTimestamp
  = Z.min 3 (GetPayloadVersion f (default headTimestamp payloadAttributesTimestamp)).
Proof.
  unfold ForkchoiceUpdatedVersion, GetPayloadVersion.
  destruct (IsPrague f _), (IsCancun f _), (IsShanghai f _); reflexivity.
Qed.

(** X2.  The supported transaction types are the legacy and the dynamic-fee
    type, in that order, preceded by the blob type exactly when the payload
    version at the timestamp is 3 or more; the access-list type is never
    offered. *)
Theorem GetSupportedTransactionTypes_by_version (f : ForkConfig) (timestamp : Z) :
  GetSupportedTransactionTypes f timestamp
  = (if 3 <=? GetPayloadVersion f timestamp then [gethtypes.BlobTxType] else [])
    ++ [gethtypes.LegacyTxType; gethtypes.DynamicFeeTxType] ∧
  gethtypes.AccessListTxType ∉ GetSupportedTransactionTypes f timestamp.
Proof.
  unfold GetSupportedTransactionTypes, GetPayloadVersion.
  destruct (IsPrague f timestamp), (IsCancun f timestamp),
    (IsShanghai f timestamp); simpl;
    (split; [reflexivity|]); intros H;
    repeat (apply elem_of_cons in H as [H|H]; [discriminate H|]);
    by apply elem_of_nil in H.
Qed.

Lemma PreviousFork_other (f : Fork) :
  f ∉ [Paris; Shanghai; Cancun; Prague] → PreviousFork f = NA.
Proof.
  intros H. unfold PreviousFork.
  rewrite (proj2 (String.eqb_neq f Paris)), (proj2 (String.eqb_neq f Shanghai)),
    (proj2 (String.eqb_neq f Cancun)), (proj2 (String.eqb_neq f Prague));
    [done|..]; intros ->; apply H; set_solver.
Qed.

(** X3.  Walking back with [PreviousFork] from any fork name reaches [NA]
    within five steps, and a name has no previous fork exactly when it is
    not one of Paris, Shanghai, Cancun, Prague: London and every unknown
    name map to [NA]. *)
Theorem PreviousFork_chain (f : Fork) :
  Nat.iter 5 PreviousFork f = NA ∧
  (PreviousFork f = NA ↔ f ∉ [Paris; Shanghai; Cancun; Prague]).
Proof.
  destruct (decide (f ∈ [Paris; Shanghai; Cancun; Prague])) as [Hin|Hout].
  - split; [|split; [|done]].
    + repeat (apply elem_of_cons in Hin as [->|Hin]; [reflexivity|]).
      by apply elem_of_nil in Hin.
    + intros Hna Hnot.
      repeat (apply elem_of_cons in Hin as [->|Hin]; [discriminate Hna|]).
      by apply elem_of_nil in Hin.
  - split; [|by split; [|apply PreviousFork_other]].
    simpl. by rewrite (PreviousFork_other f Hout).
Qed.

End fork_versions.

(** ** Ranges of blob identifiers *)

Section blob_ranges.
Import helper.

(** X4.  [GetBlobList startId count] has [count] entries and its entry [i]
    is [startId + i], wrapped around at 2^64. *)
Theorem GetBlobList_entries (startId count : Z) :
  length (GetBlobList startId count) = Z.to_nat count ∧
  ∀ i : nat, (i < Z.to_nat count)%nat →
    GetBlobList startId count !! i = Some (wrap64 (startId + Z.of_nat i)).
Proof.
  split.
  - by rewrite GetBlobList_spec, length_fmap, length_seq.
  - intros i Hi. rewrite GetBlobList_spec.
    apply list_lookup_fmap_Some. exists i. split; [done|].
    by apply lookup_seq.
Qed.

(** X5.  For a start index not above the end index, the index-range form
    agrees with the count form: [GetBlobListByIndex a b] is
    [GetBlobList a (b - a + 1)], a single identifier when [a = b].  The
    range must not be all of the 2^64 identifiers, for which the count
    wraps around to zero. *)
Theorem GetBlobListByIndex_is_GetBlobList (a b : BlobID) :
  is_uint64 a → is_uint64 b → a ≤ b → b - a + 1 < 2 ^ 64 →
  GetBlobListByIndex a b = GetBlobList a (b - a + 1) ∧
  (a = b → GetBlobListByIndex a b = [a]).
Proof.
  intros Ha Hb Hle Hsmall. rewrite GetBlobList_spec.
  destruct (decide (a = b)) as [->|Hne].
  - rewrite GetBlobListByIndex_other_branch by (done || lia).
    replace (b - b + 1) with 1 by lia. simpl.
    rewrite Z.sub_0_r, Z.add_0_r. split; [done|]. intros _.
    unfold is_uint64 in Hb. unfold wrap64. by rewrite Z.mod_small by lia.
  - split; [|done].
    rewrite GetBlobListByIndex_ascending by (done || lia).
    unfold ascending. apply list_fmap_ext. intros i x Hx.
    apply lookup_seq in Hx as [-> Hi].
    unfold is_uint64 in *. unfold wrap64. symmetry. apply Z.mod_small. lia.
Qed.

Lemma GetBlobListByIndex_is_GetBlobList_witness :
  is_uint64 3 ∧ is_uint64 6 ∧ 3 ≤ 6 ∧ 6 - 3 + 1 < 2 ^ 64 ∧
  GetBlobListByIndex 3 6 = GetBlobList 3 (6 - 3 + 1) ∧
  (3 = 6 → GetBlobListByIndex 3 6 = [3]).
Proof.
  assert (H3 : is_uint64 3) by (unfold is_uint64; lia).
  assert (H6 : is_uint64 6) by (unfold is_uint64; lia).
  assert (Hle : 3 ≤ 6) by lia.
  assert (Hs : 6 - 3 + 1 < 2 ^ 64) by lia.
  repeat (split; [assumption|]).
  exact (GetBlobListByIndex_is_GetBlobList 3 6 H3 H6 Hle Hs).
Defined.

End blob_ranges.

(** ** The synthesizer with the modulus of the library *)

Section synthesizer_more.
Import helper inputs.

Local Arguments clamp_elem : simpl never.
Local Arguments clamp_in_place : simpl never.
Local Opaque types.FieldElementsPerBlob.

Lemma clamp_elem_S (M : list Z) (i fuel : nat) (e : list Z) :
  clamp_elem M i (S fuel) e
  = if byte_at e i <? byte_at M i then e
    else if byte_at M i <=? byte_at e i then
      if 0 <? byte_at M i then <[i := wrap8 (byte_at M i - 1)]> e
      else clamp_elem M (S i) fuel (<[i := byte_at M i]> e)
    else clamp_elem M (S i) fuel e.
Proof. reflexivity. Qed.

(** The first byte of the modulus is 0x73, not zero: the clamping loop
    stops at its first round. *)
Lemma clamp_elem_BlsModulus (e : list Z) :
  clamp_elem gokzg4844.BlsModulus 0 32 e
  = if byte_at e 0 <? 0x73 then e else <[0%nat := 0x72]> e.
Proof.
  rewrite clamp_elem_S.
  change (byte_at gokzg4844.BlsModulus 0) with 0x73.
  destruct (Z.ltb_spec (byte_at e 0) 0x73); [done|].
  destruct (Z.leb_spec 0x73 (byte_at e 0)); [|lia].
  reflexivity.
Qed.

(** X6.  For a nonzero identifier [FillBlob] overwrites the whole buffer,
    whatever it held: chunk [k] is the [k]-th digest of the chain that
    starts at the SHA-256 of the big-endian identifier, with its first
    byte replaced by 0x72 when that byte is 0x73 or more; no other byte of
    a digest is ever changed. *)
Theorem FillBlob_closed_form (blobId : BlobID) (blob : types.Blob) :
  blobId ≠ 0 → length blob = types.blob_size →
  FillBlob gokzg4844.BlsModulus blobId (Some blob)
  = (Some (concat ((λ d, if byte_at d 0 <? 0x73 then d else <[0%nat := 0x72]> d)
                   <$> digests types.FieldElementsPerBlob
                         (sha256.Sum256 (binary.PutUint64 blobId)))),
     None).
Proof.
  intros Hid Hlen. rewrite FillBlob_nonzero by done.
  assert (Hext : ∀ ds : list (list Z),
            clamp_elem gokzg4844.BlsModulus 0 32 <$> ds
            = (λ d, if byte_at d 0 <? 0x73 then d else <[0%nat := 0x72]> d) <$> ds).
  { intros ds. apply list_fmap_ext. intros i d _. apply clamp_elem_BlsModulus. }
  by rewrite Hext.
Qed.

Lemma FillBlob_closed_form_witness :
  1 ≠ 0 ∧ length fresh_blob = types.blob_size ∧
  FillBlob gokzg4844.BlsModulus 1 (Some fresh_blob)
  = (Some (concat ((λ d, if byte_at d 0 <? 0x73 then d else <[0%nat := 0x72]> d)
                   <$> digests types.FieldElementsPerBlob
                         (sha256.Sum256 (binary.PutUint64 1)))),
     None).
Proof.
  assert (H1 : 1 ≠ 0) by discriminate.
  split; [exact H1|]. split; [exact fresh_blob_length|].
  exact (FillBlob_closed_form 1 fresh_blob H1 fresh_blob_length).
Defined.

(** [VerifyBlob] accepts the clamped digest chain and nothing else. *)
Lemma verify_chain_iff (M : list Z) (n : nat) :
  ∀ (c : nat) (pre rest cur : list Z),
  length pre = (c * 32)%nat → length rest = (n * 32)%nat → length cur = 32%nat →
  verify_chain M c n cur (pre ++ rest) = true
  ↔ rest = concat (clamp_elem M 0 32 <$> digests n cur).
Proof.
  induction n as [|n IH]; intros c pre rest cur Hpre Hrest Hcur.
  - destruct rest; [done|]. simpl in Hrest. lia.
  - destruct (split_chunk rest ltac:(lia)) as (old & post & -> & Hold).
    rewrite length_app in Hrest.
    rewrite verify_chain_S, digests_S, fmap_cons, concat_cons.
    rewrite (copy_at_whole cur (replicate 32 0)) by (by rewrite length_replicate).
    rewrite (slice_mid pre old post (c * 32) ((c + 1) * 32) Hpre) by lia.
    unfold bytes_Equal.
    destruct (decide (old = clamp_elem M 0 32 cur)) as [->|Hne].
    + rewrite bool_decide_eq_true_2 by done. simpl negb. cbv iota.
      rewrite (app_assoc pre).
      rewrite IH by (rewrite ?length_app, ?Sum256_length; lia).
      split; [by intros -> | by intros ?%app_inv_head].
    + rewrite bool_decide_eq_false_2 by done. simpl negb. cbv iota.
      split; [done|]. intros Heq. destruct Hne.
      apply (f_equal (take 32)) in Heq.
      rewrite !take_app_length' in Heq by (by rewrite ?clamp_elem_length).
      done.
Qed.

(** X7.  For every identifier, [VerifyBlob] accepts a blob if and only if
    it is, byte for byte, what [FillBlob] writes for that identifier into a
    fresh buffer: each identifier has exactly one blob. *)
Theorem VerifyBlob_accepts_only_filled (blobId : BlobID) (blob : types.Blob) :
  length blob = types.blob_size →
  VerifyBlob gokzg4844.BlsModulus blobId (Some blob) = (true, None)
  ↔ FillBlob gokzg4844.BlsModulus blobId (Some fresh_blob) = (Some blob, None).
Proof.
  intros Hlen. destruct (decide (blobId = 0)) as [->|Hid].
  - rewrite VerifyBlob_zero_exact by done.
    change (FillBlob gokzg4844.BlsModulus 0 (Some fresh_blob))
      with (Some fresh_blob, @None error).
    split; [by intros -> | by intros [= ->]].
  - rewrite (FillBlob_nonzero _ blobId fresh_blob Hid fresh_blob_length).
    unfold VerifyBlob. destruct (Z.eqb_spec blobId 0) as [|_]; [done|].
    pose proof (verify_chain_iff gokzg4844.BlsModulus types.FieldElementsPerBlob
                  0 [] blob (sha256.Sum256 (binary.PutUint64 blobId))
                  eq_refl Hlen (Sum256_length _)) as H.
    rewrite app_nil_l in H.
    set (v := verify_chain _ _ _ _ _) in *.
    set (r := concat _) in *.
    clearbody v r. destruct H as [H1 H2]. split.
    + intros Hv. destruct v; [|discriminate Hv]. by rewrite (H1 eq_refl).
    + intros Hb. assert (Hr : blob = r) by congruence.
      by rewrite (H2 Hr).
Qed.

Lemma VerifyBlob_accepts_only_filled_witness :
  length fresh_blob = types.blob_size ∧
  (VerifyBlob gokzg4844.BlsModulus 0 (Some fresh_blob) = (true, None)
   ↔ FillBlob gokzg4844.BlsModulus 0 (Some fresh_blob) = (Some fresh_blob, None)).
Proof.
  split; [exact fresh_blob_length|].
  exact (VerifyBlob_accepts_only_filled 0 fresh_blob fresh_blob_length).
Defined.

Lemma bad_blob_length : length bad_blob = types.blob_size.
Proof.
  unfold bad_blob. cbn [length]. rewrite length_replicate.
  pose proof chunk_7_in_range. unfold types.blob_size. lia.
Qed.

Lemma bad_blob_not_fresh : bad_blob ≠ fresh_blob.
Proof.
  intros H. apply (f_equal (λ l, byte_at l 0)) in H.
  unfold bad_blob, fresh_blob, types.blob_size, byte_at in H.
  rewrite lookup_replicate_2 in H by (pose proof chunk_7_in_range; lia).
  discriminate H.
Qed.

(** X8.  For identifier zero [FillBlob] writes nothing: a buffer that is
    not all-zero comes back as it was, and [VerifyBlob] with identifier
    zero then rejects it.  The round trip of identifier zero depends on the
    buffer being fresh. *)
Theorem FillBlob_zero_keeps_buffer (blob : types.Blob) :
  length blob = types.blob_size → blob ≠ fresh_blob →
  FillBlob gokzg4844.BlsModulus 0 (Some blob) = (Some blob, None) ∧
  VerifyBlob gokzg4844.BlsModulus 0 (Some blob) = (false, None).
Proof.
  intros Hlen Hne. split; [reflexivity|].
  pose proof (VerifyBlob_zero_exact gokzg4844.BlsModulus blob Hlen) as H.
  unfold VerifyBlob in *. change (0 =? 0) with true in *. cbv iota in *.
  destruct (verify_empty 0 types.FieldElementsPerBlob blob); [|done].
  destruct Hne. by apply H.
Qed.

Lemma FillBlob_zero_keeps_buffer_witness :
  length bad_blob = types.blob_size ∧ bad_blob ≠ fresh_blob ∧
  FillBlob gokzg4844.BlsModulus 0 (Some bad_blob) = (Some bad_blob, None) ∧
  VerifyBlob gokzg4844.BlsModulus 0 (Some bad_blob) = (false, None).
Proof.
  split; [exact bad_blob_length|]. split; [exact bad_blob_not_fresh|].
  exact (FillBlob_zero_keeps_buffer bad_blob bad_blob_length bad_blob_not_fresh).
Defined.

End synthesizer_more.

(** ** Versioned hashes of generated blobs *)

Section more_loops.

Lemma for_range_fill_any {A : Type} (f : nat → A) (n lo : nat) (l : list A) :
  length l = (lo + n)%nat →
  for_range lo n (λ i l, <[i := f i]> l) l = take lo l ++ (f <$> seq lo n).
Proof.
  revert lo l. induction n as [|n IH]; intros lo l Hlen; simpl.
  - rewrite app_nil_r, firstn_all2; [done | lia].
  - rewrite IH by (rewrite length_insert; lia).
    rewrite (take_S_r _ _ (f lo)) by (apply list_lookup_insert_eq; lia).
    rewrite take_insert_ge by lia.
    by rewrite <- app_assoc.
Qed.

Lemma for_range_append {A : Type} (f : nat → A) (n : nat) :
  ∀ (lo : nat) (l : list A),
  for_range lo n (λ i l, l ++ [f i]) l = l ++ (f <$> seq lo n).
Proof.
  induction n as [|n IH]; intros lo l; simpl.
  - by rewrite app_nil_r.
  - rewrite IH. by rewrite <- app_assoc.
Qed.

Lemma fmap_by_index {A B : Type} (g : A → B) (d : A) (l : list A) :
  (λ i : nat, g (default d (l !! i))) <$> seq 0 (length l) = g <$> l.
Proof.
  apply list_eq. intros i. rewrite !list_lookup_fmap.
  destruct (l !! i) as [x|] eqn:Hx.
  - rewrite lookup_seq_lt by (by eapply lookup_lt_Some). simpl. by rewrite Hx.
  - rewrite lookup_seq_ge by (by apply lookup_ge_None). done.
Qed.

End more_loops.

Section versioned_hashes_more.
Import types helper inputs.
Local Opaque types.FieldElementsPerBlob.

Lemma BytesToHash_whole (b : list Z) : length b = 32%nat → BytesToHash b = b.
Proof.
  intros Hlen. unfold BytesToHash. cbv zeta.
  replace (32 <? length b)%nat with false by (by rewrite Hlen).
  rewrite Hlen. change (32 - 32)%nat with 0%nat.
  apply copy_at_whole. by rewrite length_replicate.
Qed.

Lemma versioned_bytes (v : Z) (c : KZGCommitment) :
  BytesToHash ([v] ++ drop 1 (sha256.Sum256 c)) = <[0%nat := v]> (ComputeVersionedHash c).
Proof.
  unfold ComputeVersionedHash, KZGToVersionedHash.
  pose proof (Sum256_length c) as Hlen.
  rewrite BytesToHash_whole by (rewrite length_app, length_drop, Hlen; done).
  destruct (sha256.Sum256 c); [done|]. done.
Qed.

Lemma version_kzg_kept (c : KZGCommitment) :
  <[0%nat := BlobCommitmentVersionKZG]> (ComputeVersionedHash c) = ComputeVersionedHash c.
Proof.
  unfold ComputeVersionedHash, KZGToVersionedHash.
  destruct (sha256.Sum256 c); done.
Qed.

(** X9.  The versioned hashes of a blobs bundle: a nil bundle and nil
    commitments are errors; otherwise there is one hash per commitment, in
    order, which is the versioned hash of the commitment with its first
    byte replaced by the version given.  With the version constant 0x01
    the result is [ComputeVersionedHash] of every commitment. *)
Theorem BlobsBundle_VersionedHashes_result (bb : BlobsBundle) (commitmentVersion : Z) :
  BlobsBundle_VersionedHashes None commitmentVersion
  = (None, Some "nil blob bundle"%string) ∧
  BlobsBundle_VersionedHashes (Some bb) commitmentVersion
  = match bundle_Commitments bb with
    | None => (None, Some "nil commitments"%string)
    | Some commitments =>
        (Some ((λ c, <[0%nat := commitmentVersion]> (ComputeVersionedHash c))
               <$> commitments), None)
    end ∧
  BlobsBundle_VersionedHashes (Some bb) BlobCommitmentVersionKZG
  = match bundle_Commitments bb with
    | None => (None, Some "nil commitments"%string)
    | Some commitments => (Some (ComputeVersionedHash <$> commitments), None)
    end.
Proof.
  assert (Hgen : ∀ v,
    BlobsBundle_VersionedHashes (Some bb) v
    = match bundle_Commitments bb with
      | None => (None, Some "nil commitments"%string)
      | Some commitments =>
          (Some ((λ c, <[0%nat := v]> (ComputeVersionedHash c)) <$> commitments), None)
      end).
  { intros v. unfold BlobsBundle_VersionedHashes.
    destruct (bundle_Commitments bb) as [cs|]; [|done].
    rewrite (for_range_fill_any
               (λ i, BytesToHash ([v] ++ drop 1 (sha256.Sum256 (default [] (cs !! i))))))
      by (by rewrite length_replicate).
    rewrite take_0, app_nil_l.
    rewrite (fmap_by_index (λ c, BytesToHash ([v] ++ drop 1 (sha256.Sum256 c)))).
    assert (Hext : (λ c, BytesToHash ([v] ++ drop 1 (sha256.Sum256 c))) <$> cs
                   = (λ c, <[0%nat := v]> (ComputeVersionedHash c)) <$> cs)
      by (apply list_fmap_ext; intros i c _; apply versioned_bytes).
    by rewrite Hext. }
  split; [done|]. split; [apply Hgen|].
  rewrite Hgen. destruct (bundle_Commitments bb) as [cs|]; [|done].
  assert (Hext : (λ c, <[0%nat := BlobCommitmentVersionKZG]> (ComputeVersionedHash c))
                   <$> cs = ComputeVersionedHash <$> cs)
    by (apply list_fmap_ext; intros i c _; apply version_kzg_kept).
  by rewrite Hext.
Qed.

Lemma GenerateBlob_cases (CryptoCtx : Context) (blobId : BlobID) :
  ∃ blob, FillBlob gokzg4844.BlsModulus blobId (Some fresh_blob) = (Some blob, None) ∧
    VerifyBlob gokzg4844.BlsModulus blobId (Some blob) = (true, None) ∧
    GenerateBlob CryptoCtx blobId
    = match BlobToKZGCommitment CryptoCtx blob 0 with
      | Ok kzgCommitment => (Some blob, Some kzgCommitment, None)
      | Err err => (None, None, Some (String.append "GenerateBlob (2): " err))
      end.
Proof.
  destruct (VerifyBlob_accepts_filled gokzg4844.BlsModulus blobId)
    as (blob & Hfill & Hverify).
  exists blob. split; [done|]. split; [done|].
  unfold GenerateBlob. rewrite Hfill. cbv beta iota zeta.
  change (default fresh_blob (Some blob)) with blob.
  destruct (BlobToKZGCommitment CryptoCtx blob 0); reflexivity.
Qed.

(** X10.  [GenerateBlob] returns the blob that [FillBlob] writes for the
    identifier into a fresh buffer, which [VerifyBlob] accepts for that
    identifier, with the commitment the context computes for it.  It fails
    exactly when that computation fails, with the text "GenerateBlob (2): "
    before the underlying error; the error "GenerateBlob (1)" never occurs. *)
Theorem GenerateBlob_result (CryptoCtx : Context) (blobId : BlobID) :
  ∃ blob, FillBlob gokzg4844.BlsModulus blobId (Some fresh_blob) = (Some blob, None) ∧
    VerifyBlob gokzg4844.BlsModulus blobId (Some blob) = (true, None) ∧
    GenerateBlob CryptoCtx blobId
    = match BlobToKZGCommitment CryptoCtx blob 0 with
      | Ok kzgCommitment => (Some blob, Some kzgCommitment, None)
      | Err err => (None, None, Some (String.append "GenerateBlob (2): " err))
      end.
Proof. apply GenerateBlob_cases. Qed.

(** X11.  [GetVersionedHash] returns the versioned hash of the commitment
    of the generated blob with its first byte replaced by the version
    given, which for the version constant 0x01 is [ComputeVersionedHash] of
    that commitment; when the commitment fails it returns the zero hash and
    the text "GetVersionedHash: GenerateBlob (2): " before the underlying
    error. *)
Theorem GetVersionedHash_result (CryptoCtx : Context) (blobId : BlobID)
    (commitmentVersion : Z) :
  ∃ blob, FillBlob gokzg4844.BlsModulus blobId (Some fresh_blob) = (Some blob, None) ∧
    GetVersionedHash CryptoCtx blobId commitmentVersion
    = match BlobToKZGCommitment CryptoCtx blob 0 with
      | Ok kzgCommitment =>
          (<[0%nat := commitmentVersion]> (ComputeVersionedHash kzgCommitment), None)
      | Err err =>
          (replicate 32 0,
           Some (String.append "GetVersionedHash: GenerateBlob (2): " err))
      end ∧
    GetVersionedHash CryptoCtx blobId BlobCommitmentVersionKZG
    = match BlobToKZGCommitment CryptoCtx blob 0 with
      | Ok kzgCommitment => (ComputeVersionedHash kzgCommitment, None)
      | Err err =>
          (replicate 32 0,
           Some (String.append "GetVersionedHash: GenerateBlob (2): " err))
      end.
Proof.
  destruct (GenerateBlob_cases CryptoCtx blobId) as (blob & Hfill & _ & Hgen).
  exists blob. split; [done|].
  unfold GetVersionedHash. rewrite Hgen.
  destruct (BlobToKZGCommitment CryptoCtx blob 0) as [c|e]; [|split; reflexivity].
  cbv beta iota zeta. rewrite !versioned_bytes. split; [done|].
  by rewrite version_kzg_kept.
Qed.

Lemma GetVersionedHash_cases (CryptoCtx : Context) (blobId : BlobID)
    (commitmentVersion : Z) :
  (∃ blob c, GenerateBlob CryptoCtx blobId = (Some blob, Some c, None) ∧
     GetVersionedHash CryptoCtx blobId commitmentVersion
     = (<[0%nat := commitmentVersion]> (ComputeVersionedHash c), None)) ∨
  (∃ h e, GetVersionedHash CryptoCtx blobId commitmentVersion = (h, Some e)).
Proof.
  destruct (GenerateBlob_cases CryptoCtx blobId) as (blob & _ & _ & Hgen).
  unfold GetVersionedHash. rewrite Hgen.
  destruct (BlobToKZGCommitment CryptoCtx blob 0) as [c|e].
  - left. exists blob, c. split; [done|]. cbv beta iota zeta.
    by rewrite versioned_bytes.
  - right. eauto.
Qed.

Lemma picky_accepts_fresh :
  BlobToKZGCommitment picky_ctx fresh_blob 0 = Ok (replicate 48 0) ∧
  BlobToKZGCommitment picky_ctx fresh_blob 1 = Ok (replicate 48 0).
Proof.
  assert (H0 : byte_at fresh_blob 0 = 0).
  { unfold byte_at, fresh_blob, types.blob_size.
    rewrite lookup_replicate_2 by (pose proof chunk_7_in_range; lia). done. }
  unfold picky_ctx. cbn [BlobToKZGCommitment]. by rewrite H0.
Qed.

Lemma picky_GenerateBlob_0 :
  GenerateBlob picky_ctx 0 = (Some fresh_blob, Some (replicate 48 0), None).
Proof.
  unfold GenerateBlob.
  change (FillBlob gokzg4844.BlsModulus 0 (Some fresh_blob))
    with (Some fresh_blob, @None error).
  cbv beta iota zeta. change (default fresh_blob (Some fresh_blob)) with fresh_blob.
  by rewrite (proj1 picky_accepts_fresh).
Qed.

End versioned_hashes_more.

Section modified_hashes.
Import types helper suite_blobs inputs.
Local Opaque types.FieldElementsPerBlob.

Lemma versioned_hashes_loop_spec (CryptoCtx : Context) (v : VersionedHashes)
    (rest : list BlobID) :
  ∀ (i : nat) (acc hs : list Hash),
  length acc = (i + length rest)%nat →
  versioned_hashes_loop CryptoCtx v i rest acc = (Some hs, None) →
  length hs = length acc ∧
  (∀ j : nat, (j < i)%nat → hs !! j = acc !! j) ∧
  ∀ (j : nat) blobID, rest !! j = Some blobID →
    ∃ blob c, GenerateBlob CryptoCtx blobID = (Some blob, Some c, None) ∧
      hs !! (i + j)%nat
      = Some (<[0%nat := byte_at (default [] (HashVersions v)) (i + j)]>
                (ComputeVersionedHash c)).
Proof.
  induction rest as [|blobID rest IH]; intros i acc hs Hlen Hrun; simpl in Hrun.
  - injection Hrun as <-. split; [done|]. split; [done|]. intros j b Hj. done.
  - set (version := match HashVersions v with
                    | Some hashVersions =>
                        if (i <? length hashVersions)%nat
                        then byte_at hashVersions i else 0
                    | None => 0
                    end) in *.
    assert (Hversion : version = byte_at (default [] (HashVersions v)) i).
    { unfold version. destruct (HashVersions v) as [hv|]; simpl; [|done].
      destruct (Nat.ltb_spec i (length hv)); [done|].
      unfold byte_at. by rewrite lookup_ge_None_2. }
    destruct (GetVersionedHash_cases CryptoCtx blobID version)
      as [(blob & c & Hgen & Hh) | (h & e & Hh)]; rewrite Hh in Hrun; [|done].
    simpl in Hlen.
    apply IH in Hrun as (L & Hbefore & Hafter); [|rewrite length_insert; lia].
    rewrite length_insert in L. split; [done|]. split.
    + intros j Hj. rewrite Hbefore by lia. apply list_lookup_insert_ne. lia.
    + intros [|j] b Hb; simpl in Hb.
      * injection Hb as <-. exists blob, c. split; [done|].
        rewrite Nat.add_0_r, Hbefore by lia.
        rewrite list_lookup_insert_eq by lia. by rewrite Hversion.
      * destruct (Hafter j b Hb) as (blob' & c' & ? & ?).
        exists blob', c'. replace (i + S j)%nat with (S i + j)%nat by lia. done.
Qed.

(** X12.  When the modified versioned hashes are computed without error,
    there is one hash per blob identifier, entry [i] being the versioned
    hash of the commitment of blob [i] with its first byte replaced by
    [HashVersions[i]], or by zero where [HashVersions] is nil or too short.
    Without [HashVersions] every hash starts with the byte zero and equals
    the versioned hash of no commitment. *)
Theorem VersionedHashes_result (CryptoCtx : Context) (v : VersionedHashes)
    (hs : list Hash) :
  VersionedHashes_VersionedHashes CryptoCtx v = (Some hs, None) →
  ∃ blobs, vh_Blobs v = Some blobs ∧ length hs = length blobs ∧
    (∀ (i : nat) blobID, blobs !! i = Some blobID →
       ∃ blob c, GenerateBlob CryptoCtx blobID = (Some blob, Some c, None) ∧
         hs !! i = Some (<[0%nat := byte_at (default [] (HashVersions v)) i]>
                           (ComputeVersionedHash c))) ∧
    (HashVersions v = None →
     ∀ h c, h ∈ hs → h !! 0%nat = Some 0 ∧ h ≠ ComputeVersionedHash c).
Proof.
  unfold VersionedHashes_VersionedHashes. intros Hrun.
  destruct (vh_Blobs v) as [blobs|]; [|done]. exists blobs. split; [done|].
  apply versioned_hashes_loop_spec in Hrun as (L & _ & Hentries);
    [|by rewrite length_replicate].
  rewrite length_replicate in L. split; [done|]. split; [exact Hentries|].
  intros Hnone h c' Hin. apply list_elem_of_lookup in Hin as [i Hi].
  destruct (lookup_lt_is_Some_2 blobs i) as [blobID Hb];
    [apply lookup_lt_Some in Hi; lia|].
  destruct (Hentries i blobID Hb) as (blob & c & _ & Hh).
  change (0 + i)%nat with i in Hh. rewrite Hi in Hh. injection Hh as ->. rewrite Hnone. simpl.
  unfold ComputeVersionedHash, KZGToVersionedHash.
  pose proof (Sum256_length c) as Hlen. pose proof (Sum256_length c') as Hlen'.
  destruct (sha256.Sum256 c); [done|]. destruct (sha256.Sum256 c'); [done|].
  split; [done|]. simpl. intros [=].
Qed.

Lemma picky_VersionedHashes :
  VersionedHashes_VersionedHashes picky_ctx blob_zero_unversioned
  = (Some [<[0%nat := 0]> (ComputeVersionedHash (replicate 48 0))], None).
Proof.
  unfold VersionedHashes_VersionedHashes, blob_zero_unversioned.
  cbn [vh_Blobs HashVersions]. unfold versioned_hashes_loop, GetVersionedHash.
  rewrite picky_GenerateBlob_0. cbv beta iota zeta.
  rewrite versioned_bytes. reflexivity.
Qed.

Lemma VersionedHashes_result_witness :
  VersionedHashes_VersionedHashes picky_ctx blob_zero_unversioned
  = (Some [<[0%nat := 0]> (ComputeVersionedHash (replicate 48 0))], None) ∧
  ∀ h c, h ∈ [<[0%nat := 0]> (ComputeVersionedHash (replicate 48 0))] →
    h !! 0%nat = Some 0 ∧ h ≠ ComputeVersionedHash c.
Proof.
  split; [exact picky_VersionedHashes|].
  destruct (VersionedHashes_result picky_ctx blob_zero_unversioned _
              picky_VersionedHashes) as (blobs & _ & _ & _ & H).
  exact (H eq_refl).
Defined.

End modified_hashes.

Section data_generator.
Import types helper suite_blobs helper_generator inputs.
Local Opaque types.FieldElementsPerBlob.

Lemma generate_loop_spec (CryptoCtx : Context) (startBlobId : BlobID) (n : nat) :
  ∀ (i : nat) (blobs blobs' : types.Blobs) (cs cs' : list KZGCommitment),
  length blobs = (i + n)%nat → length cs = (i + n)%nat →
  generate_loop CryptoCtx startBlobId i n blobs cs = Ok (blobs', cs') →
  length blobs' = length blobs ∧ length cs' = length cs ∧
  (∀ j : nat, (j < i)%nat → blobs' !! j = blobs !! j ∧ cs' !! j = cs !! j) ∧
  ∀ j : nat, (j < n)%nat →
    ∃ blob c,
      GenerateBlob CryptoCtx (wrap64 (startBlobId + Z.of_nat (i + j)))
      = (Some blob, Some c, None) ∧
      blobs' !! (i + j)%nat = Some blob ∧ cs' !! (i + j)%nat = Some c.
Proof.
  induction n as [|n IH]; intros i blobs blobs' cs cs' Hb Hc Hrun; simpl in Hrun.
  - injection Hrun as <- <-. repeat split; try done. intros j Hj. lia.
  - destruct (GenerateBlob_cases CryptoCtx (wrap64 (startBlobId + Z.of_nat i)))
      as (blob & _ & _ & Hgen).
    rewrite Hgen in Hrun.
    destruct (BlobToKZGCommitment CryptoCtx blob 0) as [c|e] eqn:Hcommit; [|done].
    cbv beta iota zeta in Hrun. simpl default in Hrun.
    unfold types.Blobs in *.
    apply IH in Hrun as (Lb & Lc & Hbefore & Hafter);
      [|rewrite length_insert; lia..].
    rewrite length_insert in Lb, Lc.
    split; [done|]. split; [done|]. split.
    + intros j Hj. destruct (Hbefore j ltac:(lia)) as [E1 E2].
      rewrite E1, E2. rewrite !list_lookup_insert_ne by lia. done.
    + intros [|j] Hj.
      * exists blob, c. rewrite Nat.add_0_r. split; [exact Hgen|].
        destruct (Hbefore i ltac:(lia)) as [E1 E2]. rewrite E1, E2.
        rewrite !list_lookup_insert_eq by lia. done.
      * destruct (Hafter j ltac:(lia)) as (blob' & c' & ? & ? & ?).
        exists blob', c'. replace (i + S j)%nat with (S i + j)%nat by lia. done.
Qed.

(** What a successful run of the generator returns. *)
Lemma BlobDataGenerator_facts (CryptoCtx : Context) (startBlobId : BlobID)
    (blobCount : Z) (hashes : list Hash) (blobData : BlobTxWrapData) :
  BlobDataGenerator CryptoCtx startBlobId blobCount
  = (Some hashes, Some blobData, None) →
  length (Blobs blobData) = Z.to_nat blobCount ∧
  length (Commitments blobData) = Z.to_nat blobCount ∧
  length (Proofs blobData) = Z.to_nat blobCount ∧
  hashes = wrap_versioned_hashes blobData ∧
  ∀ (i : nat) blob, Blobs blobData !! i = Some blob →
    VerifyBlob gokzg4844.BlsModulus (wrap64 (startBlobId + Z.of_nat i)) (Some blob)
    = (true, None) ∧
    ∃ c, Commitments blobData !! i = Some c ∧
         BlobToKZGCommitment CryptoCtx blob 0 = Ok c.
Proof.
  unfold BlobDataGenerator. intros Hrun.
  destruct (generate_loop _ _ _ _ _ _) as [[blobs cs]|e] eqn:Hloop; [|done].
  apply generate_loop_spec in Hloop as (Lb & Lc & _ & Hentries);
    [|by rewrite length_replicate..].
  rewrite length_replicate in Lb, Lc.
  pose proof (commit_loop_spec CryptoCtx blobs 0
                (replicate (length blobs) (replicate 48 0))
                (replicate (length blobs) (replicate 32 0))
                (replicate (length blobs) (replicate 48 0))) as Hproofs.
  rewrite !length_replicate in Hproofs.
  specialize (Hproofs eq_refl eq_refl eq_refl).
  unfold ComputeCommitmentsAndProofs in Hrun.
  destruct (commit_loop _ _ _ _ _ _) as [[[cs2 hs2] ps] [e|]]; [done|].
  destruct Hproofs as (_ & _ & Lp & _).
  injection Hrun as <- <-. cbn [Blobs Commitments Proofs].
  split; [done|]. split; [done|]. split; [lia|]. split.
  - unfold wrap_versioned_hashes. cbn [Commitments].
    rewrite for_range_append, app_nil_l.
    apply (fmap_by_index ComputeVersionedHash).
  - intros i blob Hi.
    destruct (Hentries i) as (blob' & c & Hgen & Hb & Hc);
      [apply lookup_lt_Some in Hi; lia|].
    change (0 + i)%nat with i in *. rewrite Hi in Hb. injection Hb as <-.
    destruct (GenerateBlob_cases CryptoCtx (wrap64 (startBlobId + Z.of_nat i)))
      as (blob2 & _ & Hverify & Hgen2).
    rewrite Hgen in Hgen2.
    destruct (BlobToKZGCommitment CryptoCtx blob2 0) as [c2|e2] eqn:Hcommit;
      [|done].
    injection Hgen2 as -> ->. split; [done|]. exists c2. done.
Qed.

(** X13.  When [BlobDataGenerator] succeeds, the blobs, commitments and
    proofs of the wrap data all have [blobCount] entries, the hashes
    returned are the versioned hashes of the commitments in order, and
    blob [i] is the one [VerifyBlob] accepts for the identifier
    [startBlobId + i], its recorded commitment being the one the context
    computes for it. *)
Theorem BlobDataGenerator_success (CryptoCtx : Context) (startBlobId : BlobID)
    (blobCount : Z) (hashes : list Hash) (blobData : BlobTxWrapData) :
  BlobDataGenerator CryptoCtx startBlobId blobCount
  = (Some hashes, Some blobData, None) →
  length (Blobs blobData) = Z.to_nat blobCount ∧
  length (Commitments blobData) = Z.to_nat blobCount ∧
  length (Proofs blobData) = Z.to_nat blobCount ∧
  hashes = wrap_versioned_hashes blobData ∧
  ∀ (i : nat) blob, Blobs blobData !! i = Some blob →
    VerifyBlob gokzg4844.BlsModulus (wrap64 (startBlobId + Z.of_nat i)) (Some blob)
    = (true, None) ∧
    ∃ c, Commitments blobData !! i = Some c ∧
         BlobToKZGCommitment CryptoCtx blob 0 = Ok c.
Proof. apply BlobDataGenerator_facts. Qed.

Lemma picky_BlobDataGenerator :
  BlobDataGenerator picky_ctx 0 1
  = (Some [ComputeVersionedHash (replicate 48 0)],
     Some {| Blobs := [fresh_blob]; Commitments := [replicate 48 0];
             Proofs := [replicate 48 0] |},
     None).
Proof.
  assert (Hloop : generate_loop picky_ctx 0 0 1 (replicate 1 fresh_blob)
                    (replicate 1 (replicate 48 0))
                  = Ok ([fresh_blob], [replicate 48 0])).
  { unfold generate_loop. change (wrap64 (0 + Z.of_nat 0)) with 0.
    rewrite picky_GenerateBlob_0. reflexivity. }
  assert (Hproofs : ComputeCommitmentsAndProofs [fresh_blob] picky_ctx
                    = ([replicate 48 0], [KZGToVersionedHash (replicate 48 0)],
                       [replicate 48 0], None)).
  { unfold ComputeCommitmentsAndProofs, commit_loop.
    rewrite (proj2 picky_accepts_fresh). reflexivity. }
  unfold BlobDataGenerator. change (Z.to_nat 1) with 1%nat.
  rewrite Hloop. cbv beta iota zeta. rewrite Hproofs. reflexivity.
Qed.

Lemma BlobDataGenerator_success_witness :
  BlobDataGenerator picky_ctx 0 1
  = (Some [ComputeVersionedHash (replicate 48 0)],
     Some {| Blobs := [fresh_blob]; Commitments := [replicate 48 0];
             Proofs := [replicate 48 0] |},
     None) ∧
  VerifyBlob gokzg4844.BlsModulus (wrap64 (0 + Z.of_nat 0)) (Some fresh_blob)
  = (true, None).
Proof.
  split; [exact picky_BlobDataGenerator|].
  destruct (BlobDataGenerator_success picky_ctx 0 1 _ _ picky_BlobDataGenerator)
    as (_ & _ & _ & _ & H).
  exact (proj1 (H 0%nat fresh_blob eq_refl)).
Defined.

End data_generator.

(** ** Verification of a payload after the fork *)

Section post_fork.
Import suite_blobs inputs.

Variable CalcExcessDataGas : Z → Z → Z.
Variable GetDataGasPrice : Z → Z.
Variable DATA_GAS_PER_BLOB : Z.

Lemma receipts_loop_spec (price : Z) (txs : list TransactionWithBlobData) :
  ∀ (total : Z) (trace : list event),
  receipts_loop DATA_GAS_PER_BLOB price txs total trace
  = (match txs with
     | [] => total
     | _ => wrap64 (total + Z.of_nat (sum_list_with (λ tx, length (BlobHashes tx)) txs))
     end,
     trace ++ (txs ≫= λ tx,
       [ TestTransactionReceipt (Hash_of tx);
         ExpectDataGasUsed (Hash_of tx)
           (wrap64 (Z.of_nat (length (BlobHashes tx)) * DATA_GAS_PER_BLOB));
         ExpectDataGasPrice (Hash_of tx) price ])).
Proof.
  induction txs as [|tx txs IH]; intros total trace.
  - simpl. by rewrite app_nil_r.
  - cbn [receipts_loop]. rewrite IH. f_equal.
    + destruct txs as [|tx' txs]; cbn [sum_list_with].
      * f_equal. lia.
      * unfold wrap64. rewrite Zplus_mod_idemp_l. f_equal. lia.
    + rewrite bind_cons, <- app_assoc. done.
Qed.

(** What [VerifyPayload] expects of the excess-gas field. *)
Lemma VerifyPayload_post_fork_cases (step : NewPayloads)
    (forkConfig : config.ForkConfig) (txs : list TransactionWithBlobData)
    (payload : ExecutableData) (previousPayload : option ExecutableData) :
  config.IsCancun forkConfig (Timestamp payload) = true →
  let expected :=
    CalcExcessDataGas (default 0 (previousPayload ≫= ExcessDataGas))
      (default 0 (previousPayload ≫= DataGasUsed)) in
  let total :=
    wrap64 (Z.of_nat (sum_list_with (λ tx, length (BlobHashes tx)) txs)) in
  let trace := txs ≫= λ tx,
    [ TestTransactionReceipt (Hash_of tx);
      ExpectDataGasUsed (Hash_of tx)
        (wrap64 (Z.of_nat (length (BlobHashes tx)) * DATA_GAS_PER_BLOB));
      ExpectDataGasPrice (Hash_of tx) (GetDataGasPrice expected) ] in
  VerifyPayload CalcExcessDataGas GetDataGasPrice DATA_GAS_PER_BLOB
    step forkConfig txs payload previousPayload
  = match ExcessDataGas payload, DataGasUsed payload with
    | None, _ => (Some "payload contains nil excessDataGas"%string, [])
    | Some _, None => (Some "payload contains nil dataGasUsed"%string, [])
    | Some excess, Some _ =>
        if negb (excess =? expected) then
          (Some (String.append "payload contains incorrect excessDataGas: want 0x"
                   (String.append (fmt_x expected)
                      (String.append ", have 0x" (fmt_x excess)))), [])
        else if negb (total =? ExpectedIncludedBlobCount step) then
          (Some (String.append "expected "
                   (String.append (fmt_d (ExpectedIncludedBlobCount step))
                      (String.append " blobs in transactions, got "
                         (fmt_d total)))), trace)
        else (None, trace)
    end.
Proof.
  intros Hpost expected total trace. unfold VerifyPayload. rewrite Hpost.
  assert (Hexp : CalcExcessDataGas
                   match previousPayload with
                   | Some p => default 0 (ExcessDataGas p)
                   | None => 0
                   end
                   match previousPayload with
                   | Some p => default 0 (DataGasUsed p)
                   | None => 0
                   end = expected)
    by (by destruct previousPayload).
  rewrite Hexp.
  destruct (ExcessDataGas payload) as [excess|]; [|done].
  destruct (DataGasUsed payload) as [used|]; [|done].
  destruct (negb (excess =? expected)); [done|].
  rewrite receipts_loop_spec. rewrite app_nil_l.
  assert (Htotal : match txs with
                   | [] => 0
                   | _ :: _ =>
                       wrap64 (0 + Z.of_nat
                                 (sum_list_with (λ tx, length (BlobHashes tx)) txs))
                   end = total) by (by destruct txs).
  rewrite Htotal. done.
Qed.

(** X14.  For a payload at or after the fork, [VerifyPayload] returns no
    error if and only if the excess-gas field is present and equal to
    [CalcExcessDataGas] of the parent's two fields (zero for a missing
    parent or field), the gas-used field is present, and the number of blob
    hashes of the included blob transactions, modulo 2^64, is the expected
    blob count of the step. *)
Theorem VerifyPayload_post_fork (step : NewPayloads)
    (forkConfig : config.ForkConfig) (txs : list TransactionWithBlobData)
    (payload : ExecutableData) (previousPayload : option ExecutableData) :
  config.IsCancun forkConfig (Timestamp payload) = true →
  (VerifyPayload CalcExcessDataGas GetDataGasPrice DATA_GAS_PER_BLOB
     step forkConfig txs payload previousPayload).1 = None
  ↔ ExcessDataGas payload
    = Some (CalcExcessDataGas (default 0 (previousPayload ≫= ExcessDataGas))
              (default 0 (previousPayload ≫= DataGasUsed))) ∧
    is_Some (DataGasUsed payload) ∧
    wrap64 (Z.of_nat (sum_list_with (λ tx, length (BlobHashes tx)) txs))
    = ExpectedIncludedBlobCount step.
Proof.
  intros Hpost. rewrite (VerifyPayload_post_fork_cases _ _ _ _ _ Hpost).
  cbv zeta.
  destruct (ExcessDataGas payload) as [excess|];
    [|split; [done | by intros [[=] _]]].
  destruct (DataGasUsed payload) as [used|];
    [|split; [done | by intros (_ & [? [=]] & _)]].
  destruct (Z.eqb_spec excess
              (CalcExcessDataGas (default 0 (previousPayload ≫= ExcessDataGas))
                 (default 0 (previousPayload ≫= DataGasUsed)))) as [->|Hne];
    cbn [negb]; [|split; [done | intros ([= ?] & _); done]].
  destruct (Z.eqb_spec
              (wrap64 (Z.of_nat (sum_list_with (λ tx, length (BlobHashes tx)) txs)))
              (ExpectedIncludedBlobCount step)) as [Heq|Hne]; cbn [negb fst].
  - split; [|done]. intros _. split; [done|]. split; [by eexists | done].
  - split; [done|]. intros (_ & _ & ?). done.
Qed.

(** X15.  When the payload is at or after the fork with the right
    excess-gas field and a gas-used field, [VerifyPayload] checks the
    receipt of every included blob transaction, in order: the gas used must
    be the number of its blob hashes times [DATA_GAS_PER_BLOB] (modulo
    2^64) and the price the one of the expected excess gas.  The checks are
    made whether or not the blob count then matches. *)
Theorem VerifyPayload_receipt_checks (step : NewPayloads)
    (forkConfig : config.ForkConfig) (txs : list TransactionWithBlobData)
    (payload : ExecutableData) (previousPayload : option ExecutableData) :
  config.IsCancun forkConfig (Timestamp payload) = true →
  ExcessDataGas payload
  = Some (CalcExcessDataGas (default 0 (previousPayload ≫= ExcessDataGas))
            (default 0 (previousPayload ≫= DataGasUsed))) →
  is_Some (DataGasUsed payload) →
  (VerifyPayload CalcExcessDataGas GetDataGasPrice DATA_GAS_PER_BLOB
     step forkConfig txs payload previousPayload).2
  = txs ≫= λ tx,
      [ TestTransactionReceipt (Hash_of tx);
        ExpectDataGasUsed (Hash_of tx)
          (wrap64 (Z.of_nat (length (BlobHashes tx)) * DATA_GAS_PER_BLOB));
        ExpectDataGasPrice (Hash_of tx)
          (GetDataGasPrice
             (CalcExcessDataGas (default 0 (previousPayload ≫= ExcessDataGas))
                (default 0 (previousPayload ≫= DataGasUsed)))) ].
Proof.
  intros Hpost Hexcess [used Hused].
  rewrite (VerifyPayload_post_fork_cases _ _ _ _ _ Hpost). cbv zeta.
  rewrite Hexcess, Hused, Z.eqb_refl. cbn [negb].
  by destruct (negb _).
Qed.

(** X16.  [VerifyPayload] never reads the value of the gas-used field of
    the payload, only whether it is present: two payloads that differ only
    in that value give the same result and the same receipt checks. *)
Theorem VerifyPayload_ignores_gas_used_value (step : NewPayloads)
    (forkConfig : config.ForkConfig) (txs : list TransactionWithBlobData)
    (payload : ExecutableData) (previousPayload : option ExecutableData)
    (used1 used2 : Z) :
  VerifyPayload CalcExcessDataGas GetDataGasPrice DATA_GAS_PER_BLOB
    step forkConfig txs
    {| Timestamp := Timestamp payload;
       payload_Transactions := payload_Transactions payload;
       ExcessDataGas := ExcessDataGas payload; DataGasUsed := Some used1 |}
    previousPayload
  = VerifyPayload CalcExcessDataGas GetDataGasPrice DATA_GAS_PER_BLOB
      step forkConfig txs
      {| Timestamp := Timestamp payload;
         payload_Transactions := payload_Transactions payload;
         ExcessDataGas := ExcessDataGas payload; DataGasUsed := Some used2 |}
      previousPayload.
Proof.
  unfold VerifyPayload. cbn [Timestamp ExcessDataGas DataGasUsed].
  destruct (config.IsCancun forkConfig (Timestamp payload));
    destruct (ExcessDataGas payload); reflexivity.
Qed.

End post_fork.

Section post_fork_witnesses.
Import suite_blobs inputs.

Lemma post_fork_at_25 :
  config.IsCancun forks_10_20_30 (Timestamp mismatched_payload) = true.
Proof. reflexivity. Qed.

Lemma VerifyPayload_post_fork_witness :
  config.IsCancun forks_10_20_30 (Timestamp mismatched_payload) = true ∧
  (VerifyPayload sample_CalcExcessDataGas sample_GetDataGasPrice
     sample_DATA_GAS_PER_BLOB one_blob_expected forks_10_20_30 [mismatched_tx]
     mismatched_payload None).1 = None.
Proof.
  split; [exact post_fork_at_25|].
  apply (VerifyPayload_post_fork sample_CalcExcessDataGas sample_GetDataGasPrice
           sample_DATA_GAS_PER_BLOB one_blob_expected forks_10_20_30
           [mismatched_tx] mismatched_payload None post_fork_at_25).
  split; [reflexivity|]. split; [by eexists | reflexivity].
Defined.

Lemma VerifyPayload_receipt_checks_witness :
  config.IsCancun forks_10_20_30 (Timestamp mismatched_payload) = true ∧
  ExcessDataGas mismatched_payload = Some (sample_CalcExcessDataGas 0 0) ∧
  is_Some (DataGasUsed mismatched_payload) ∧
  (VerifyPayload sample_CalcExcessDataGas sample_GetDataGasPrice
     sample_DATA_GAS_PER_BLOB two_payloads forks_10_20_30 [mismatched_tx]
     mismatched_payload None).2
  = [ TestTransactionReceipt [7]; ExpectDataGasUsed [7] 0x20000;
      ExpectDataGasPrice [7] 1 ].
Proof.
  assert (Hexcess : ExcessDataGas mismatched_payload
                    = Some (sample_CalcExcessDataGas 0 0)) by reflexivity.
  assert (Hused : is_Some (DataGasUsed mismatched_payload)) by (by eexists).
  split; [exact post_fork_at_25|]. split; [exact Hexcess|].
  split; [exact Hused|].
  exact (VerifyPayload_receipt_checks sample_CalcExcessDataGas
           sample_GetDataGasPrice sample_DATA_GAS_PER_BLOB two_payloads
           forks_10_20_30 [mismatched_tx] mismatched_payload None
           post_fork_at_25 Hexcess Hused).
Defined.

End post_fork_witnesses.

(** ** Verification of the blobs bundle *)

Section bundle_verification.
Import types helper suite_blobs inputs.
Local Opaque types.FieldElementsPerBlob.

Lemma VerifyBlob_no_error (M : list Z) (blobId : BlobID) (blob : types.Blob) :
  (VerifyBlob M blobId (Some blob)).2 = None.
Proof. unfold VerifyBlob. by destruct (blobId =? 0). Qed.

Lemma bytes_Equal_true (a b : list Z) : bytes_Equal a b = true ↔ a = b.
Proof. unfold bytes_Equal. apply bool_decide_eq_true. Qed.

Lemma bundle_loop_spec (blobBundle : BlobsBundle) (rest : list BlobWrapData) :
  ∀ i : nat,
  (i + length rest ≤ length (bundle_commitments blobBundle))%nat →
  (i + length rest ≤ length (bundle_Blobs blobBundle))%nat →
  (i + length rest ≤ length (bundle_Proofs blobBundle))%nat →
  bundle_loop blobBundle i rest = None ↔
  ∀ (j : nat) d, rest !! j = Some d →
    bundle_commitments blobBundle !! (i + j)%nat = Some (KZG d) ∧
    bundle_Blobs blobBundle !! (i + j)%nat = Some (Blob d) ∧
    bundle_Proofs blobBundle !! (i + j)%nat = Some (Proof d).
Proof.
  induction rest as [|d rest IH]; intros i Hc Hb Hp; cbn [bundle_loop length] in *.
  - split; [|done]. intros _ j d Hj. done.
  - destruct (lookup_lt_is_Some_2 (bundle_commitments blobBundle) i) as [c Ec]; [lia|].
    destruct (lookup_lt_is_Some_2 (bundle_Blobs blobBundle) i) as [b Eb]; [lia|].
    destruct (lookup_lt_is_Some_2 (bundle_Proofs blobBundle) i) as [p Ep]; [lia|].
    unfold types.KZGCommitment, types.KZGProof, types.Blob in *.
    rewrite Ec, Eb, Ep. unfold default. cbn [from_option id].
    destruct (bytes_Equal c (KZG d)) eqn:E1; cbn [negb].
    2:{ split; [done|]. intros H. destruct (H 0%nat d eq_refl) as (H1 & _).
        rewrite Nat.add_0_r, Ec in H1. injection H1 as ->.
        by rewrite (proj2 (bytes_Equal_true _ _) eq_refl) in E1. }
    destruct (bytes_Equal b (Blob d)) eqn:E2; cbn [negb].
    2:{ split; [done|]. intros H. destruct (H 0%nat d eq_refl) as (_ & H1 & _).
        rewrite Nat.add_0_r, Eb in H1. injection H1 as ->.
        by rewrite (proj2 (bytes_Equal_true _ _) eq_refl) in E2. }
    destruct (bytes_Equal p (Proof d)) eqn:E3; cbn [negb].
    2:{ split; [done|]. intros H. destruct (H 0%nat d eq_refl) as (_ & _ & H1).
        rewrite Nat.add_0_r, Ep in H1. injection H1 as ->.
        by rewrite (proj2 (bytes_Equal_true _ _) eq_refl) in E3. }
    apply bytes_Equal_true in E1 as ->. apply bytes_Equal_true in E2 as ->.
    apply bytes_Equal_true in E3 as ->.
    rewrite IH by lia. split.
    + intros H [|j] d' Hj; simpl in Hj.
      * injection Hj as <-. by rewrite Nat.add_0_r.
      * replace (i + S j)%nat with (S i + j)%nat by lia. by apply H.
    + intros H j d' Hj. replace (S i + j)%nat with (i + S j)%nat by lia.
      by apply H.
Qed.

Lemma same_entries {A B : Type} (f : A → B) (l : list B) (data : list A) :
  length l = length data →
  (∀ (j : nat) d, data !! j = Some d → l !! j = Some (f d)) ↔ l = f <$> data.
Proof.
  intros Hlen. split.
  - intros H. apply list_eq. intros j. rewrite list_lookup_fmap.
    destruct (data !! j) as [d|] eqn:Hd; simpl.
    + by apply H.
    + apply lookup_ge_None. apply lookup_ge_None in Hd. lia.
  - intros -> j d Hd. by rewrite list_lookup_fmap, Hd.
Qed.

Lemma find_blob_spec (expectedBlob : BlobID) (data : list BlobWrapData) :
  find_blob expectedBlob data
  = Ok (bool_decide
          (Exists (λ d, (VerifyBlob gokzg4844.BlsModulus expectedBlob
                           (Some (Blob d))).1 = true) data)).
Proof.
  induction data as [|d data IH]; cbn [find_blob].
  - rewrite bool_decide_eq_false_2; [done|]. intros H. inversion H.
  - pose proof (VerifyBlob_no_error gokzg4844.BlsModulus expectedBlob (Blob d)) as He.
    destruct (VerifyBlob gokzg4844.BlsModulus expectedBlob (Some (Blob d)))
      as [ok err] eqn:Hv.
    simpl in He. subst err. destruct ok.
    + rewrite bool_decide_eq_true_2; [done|]. apply Exists_cons_hd. by rewrite Hv.
    + rewrite IH. f_equal. apply bool_decide_ext. rewrite Exists_cons.
      rewrite Hv. simpl. split; [tauto|]. intros [?|?]; done.
Qed.

Lemma expected_loop_spec (expectedBlobs : list BlobID) (data : list BlobWrapData) :
  expected_loop expectedBlobs data = None ↔
  Forall (λ blobId,
            Exists (λ d, (VerifyBlob gokzg4844.BlsModulus blobId
                            (Some (Blob d))).1 = true) data) expectedBlobs.
Proof.
  induction expectedBlobs as [|blobId ids IH]; cbn [expected_loop].
  - split; [by constructor | done].
  - rewrite find_blob_spec, Forall_cons.
    destruct (decide (Exists (λ d, (VerifyBlob gokzg4844.BlsModulus blobId
                                      (Some (Blob d))).1 = true) data)) as [Hy|Hn].
    + rewrite bool_decide_eq_true_2 by done. rewrite IH. tauto.
    + rewrite bool_decide_eq_false_2 by done. split; [done|]. tauto.
Qed.

(** What [VerifyBlobBundle] compares. *)
Lemma VerifyBlobBundle_iff (step : NewPayloads)
    (blobDataInPayload : list BlobWrapData) (payload : ExecutableData)
    (blobBundle : BlobsBundle) :
  VerifyBlobBundle step blobDataInPayload payload blobBundle = None ↔
  bundle_commitments blobBundle = KZG <$> blobDataInPayload ∧
  bundle_Blobs blobBundle = Blob <$> blobDataInPayload ∧
  bundle_Proofs blobBundle = Proof <$> blobDataInPayload ∧
  Z.of_nat (length blobDataInPayload) = to_int (ExpectedIncludedBlobCount step) ∧
  Forall (λ blobId,
            Exists (λ d, (VerifyBlob gokzg4844.BlsModulus blobId
                            (Some (Blob d))).1 = true) blobDataInPayload)
    (ExpectedBlobs step).
Proof.
  unfold VerifyBlobBundle. cbv zeta.
  destruct (Nat.eqb_spec (length (bundle_Blobs blobBundle))
              (length (bundle_commitments blobBundle))) as [Hbc|Hbc]; cbn [negb orb].
  2:{ split; [done|]. intros (H1 & H2 & _).
      rewrite H1, H2, !length_fmap in Hbc. done. }
  destruct (Nat.eqb_spec (length (bundle_Blobs blobBundle))
              (length (bundle_Proofs blobBundle))) as [Hbp|Hbp]; cbn [negb].
  2:{ split; [done|]. intros (_ & H2 & H3 & _).
      rewrite H2, H3, !length_fmap in Hbp. done. }
  destruct (Z.eqb_spec (Z.of_nat (length (bundle_Blobs blobBundle)))
              (to_int (ExpectedIncludedBlobCount step))) as [Hcount|Hcount];
    cbn [negb].
  2:{ split; [done|]. intros (_ & Hb & _ & Hn & _).
      rewrite Hb, length_fmap in Hcount. done. }
  destruct (Nat.eqb_spec (length blobDataInPayload)
              (length (bundle_Blobs blobBundle))) as [Hdata|Hdata]; cbn [negb].
  2:{ split; [done|]. intros (_ & Hb & _). rewrite Hb, length_fmap in Hdata. done. }
  pose proof (bundle_loop_spec blobBundle blobDataInPayload 0
                ltac:(simpl; lia) ltac:(simpl; lia) ltac:(simpl; lia)) as Hloop.
  simpl in Hloop.
  assert (Hentries :
    (∀ (j : nat) d, blobDataInPayload !! j = Some d →
       bundle_commitments blobBundle !! j = Some (KZG d) ∧
       bundle_Blobs blobBundle !! j = Some (Blob d) ∧
       bundle_Proofs blobBundle !! j = Some (Proof d))
    ↔ bundle_commitments blobBundle = KZG <$> blobDataInPayload ∧
      bundle_Blobs blobBundle = Blob <$> blobDataInPayload ∧
      bundle_Proofs blobBundle = Proof <$> blobDataInPayload).
  { split.
    - intros H. split; [|split].
      + apply same_entries; [lia|]. intros j d Hd. apply (H j d Hd).
      + apply same_entries; [lia|]. intros j d Hd. apply (H j d Hd).
      + apply same_entries; [lia|]. intros j d Hd. apply (H j d Hd).
    - intros (H1 & H2 & H3) j d Hd. rewrite H1, H2, H3.
      rewrite !list_lookup_fmap, Hd. done. }
  destruct (bundle_loop blobBundle 0 blobDataInPayload) as [err|].
  { split; [done|]. intros (H1 & H2 & H3 & _).
    assert (Hnone : Some err = None) by (apply Hloop, Hentries; done). done. }
  assert (Hok : bundle_commitments blobBundle = KZG <$> blobDataInPayload ∧
                bundle_Blobs blobBundle = Blob <$> blobDataInPayload ∧
                bundle_Proofs blobBundle = Proof <$> blobDataInPayload)
    by (by apply Hentries, Hloop).
  destruct Hok as (H1 & H2 & H3).
  assert (Hn : Z.of_nat (length blobDataInPayload)
               = to_int (ExpectedIncludedBlobCount step)) by (by rewrite Hdata).
  destruct (ExpectedBlobs step) as [|blobId ids] eqn:Hids.
  - cbn [length Nat.eqb negb]. split; [|done]. intros _.
    repeat split; done.
  - cbn [length Nat.eqb negb]. rewrite expected_loop_spec. tauto.
Qed.

(** X17.  [VerifyBlobBundle] returns no error if and only if the
    commitments, blobs and proofs of the bundle are, entry for entry, those
    of the blob data of the payload, their number is the expected blob
    count of the step (read as an [int]), and every expected blob
    identifier is accepted by [VerifyBlob] on some blob of the payload.
    The payload argument is not used. *)
Theorem VerifyBlobBundle_accepts (step : NewPayloads)
    (blobDataInPayload : list BlobWrapData) (payload : ExecutableData)
    (blobBundle : BlobsBundle) :
  VerifyBlobBundle step blobDataInPayload payload blobBundle = None ↔
  bundle_commitments blobBundle = KZG <$> blobDataInPayload ∧
  bundle_Blobs blobBundle = Blob <$> blobDataInPayload ∧
  bundle_Proofs blobBundle = Proof <$> blobDataInPayload ∧
  Z.of_nat (length blobDataInPayload) = to_int (ExpectedIncludedBlobCount step) ∧
  Forall (λ blobId,
            Exists (λ d, (VerifyBlob gokzg4844.BlsModulus blobId
                            (Some (Blob d))).1 = true) blobDataInPayload)
    (ExpectedBlobs step).
Proof. apply VerifyBlobBundle_iff. Qed.

End bundle_verification.

(** ** Blob data of a payload, and failing commitments *)

Section payload_data.
Import suite_blobs inputs.

Variable geth : Geth.
Variable pool : TestBlobTxPool.

Lemma payload_loop_atomic (txs : list (list Z)) :
  ∀ (acc : list TransactionWithBlobData) (data : list BlobWrapData) e,
  (payload_loop geth pool txs acc data).2 = Some e →
  payload_loop geth pool txs acc data = ([], [], Some e).
Proof.
  induction txs as [|binaryTx txs IH]; intros acc data e; simpl; [done|].
  destruct (UnmarshalBinary geth binaryTx) as [txData|err]; [|by intros [= ->]].
  destruct (negb (tx_Type txData =? BlobTxType)); [apply IH|].
  destruct (Sender geth txData) as [sender|err]; [|by intros [= ->]].
  destruct (Transactions pool !! tx_Hash txData) as [[blobTx|tx]|];
    [|by intros [= <-]..].
  destruct (BlobData blobTx) as [blobData|]; [|by intros [= <-]].
  destruct (negb _ || negb _ || negb _); [by intros [= <-]|apply IH].
Qed.

Lemma payload_loop_success (txs : list (list Z)) :
  ∀ (acc res : list TransactionWithBlobData) (data resData : list BlobWrapData),
  payload_loop geth pool txs acc data = (res, resData, None) →
  ∃ new,
    res = acc ++ new ∧
    new = omap (λ binaryTx,
                  match classify geth pool binaryTx with
                  | Matched blobTx _ => Some blobTx
                  | _ => None
                  end) txs ∧
    Forall (λ blobTx, ∃ blobData,
              BlobData blobTx = Some blobData ∧ lengths_agree blobTx blobData) new ∧
    resData = data ++ (new ≫= λ blobTx,
                match BlobData blobTx with
                | Some blobData =>
                    wrap_data_of (BlobHashes blobTx) (Commitments blobData)
                      (Blobs blobData) (Proofs blobData)
                | None => []
                end).
Proof.
  induction txs as [|binaryTx txs IH]; intros acc res data resData; simpl.
  - intros [= <- <-]. exists []. by rewrite !app_nil_r.
  - unfold classify at 1.
    destruct (UnmarshalBinary geth binaryTx) as [txData|err]; [|done].
    destruct (negb (tx_Type txData =? BlobTxType)); [apply IH|].
    destruct (Sender geth txData) as [sender|err]; [|done].
    destruct (Transactions pool !! tx_Hash txData) as [[blobTx|tx]|]; [|done..].
    destruct (BlobData blobTx) as [blobData|] eqn:Hdata; [|done].
    pose proof (lengths_agree_test blobTx blobData) as Htest.
    destruct (negb _ || negb _ || negb _); [done|].
    intros Hrun. apply IH in Hrun as (new & -> & Hnew & Hall & ->).
    exists (blobTx :: new). rewrite <- !app_assoc. split; [done|].
    split; [by rewrite Hnew|]. split.
    + constructor; [|done]. exists blobData. split; [done|]. by apply Htest.
    + rewrite bind_cons, Hdata. done.
Qed.

(** X18.  When [GetBlobDataInPayload] succeeds, the transactions returned
    are the pool entries of the blob transactions of the payload, in
    payload order, each with wrap data whose lists have one length; the
    blob data returned are the entries of their wrap data, in order, one
    per blob hash: their number is the total number of blob hashes. *)
Theorem GetBlobDataInPayload_success (payload : ExecutableData)
    (blobTxsInPayload : list TransactionWithBlobData)
    (blobDataInPayload : list BlobWrapData) :
  GetBlobDataInPayload geth pool payload
  = (blobTxsInPayload, blobDataInPayload, None) →
  blobTxsInPayload
  = omap (λ binaryTx,
            match classify geth pool binaryTx with
            | Matched blobTx _ => Some blobTx
            | _ => None
            end) (payload_Transactions payload) ∧
  Forall (λ blobTx, ∃ blobData,
            BlobData blobTx = Some blobData ∧ lengths_agree blobTx blobData)
    blobTxsInPayload ∧
  blobDataInPayload
  = (blobTxsInPayload ≫= λ blobTx,
       match BlobData blobTx with
       | Some blobData =>
           wrap_data_of (BlobHashes blobTx) (Commitments blobData)
             (Blobs blobData) (Proofs blobData)
       | None => []
       end) ∧
  length blobDataInPayload
  = sum_list_with (λ blobTx, length (BlobHashes blobTx)) blobTxsInPayload.
Proof.
  unfold GetBlobDataInPayload. intros Hrun.
  apply payload_loop_success in Hrun as (new & -> & Hnew & Hall & ->).
  rewrite !app_nil_l. split; [done|]. split; [done|]. split; [done|].
  clear Hnew. induction Hall as [|blobTx new (blobData & Hdata & _) _ IH]; [done|].
  rewrite bind_cons, length_app, IH, Hdata. cbn [sum_list_with].
  unfold wrap_data_of. by rewrite length_fmap, length_seq.
Qed.

(** X19.  When [GetBlobDataInPayload] returns an error, it returns no
    transactions and no blob data with it. *)
Theorem GetBlobDataInPayload_atomic (payload : ExecutableData) (e : error) :
  (GetBlobDataInPayload geth pool payload).2 = Some e →
  GetBlobDataInPayload geth pool payload = ([], [], Some e).
Proof. unfold GetBlobDataInPayload. apply payload_loop_atomic. Qed.

End payload_data.

Section payload_data_witnesses.
Import suite_blobs inputs.

Lemma mismatched_run :
  GetBlobDataInPayload toy_geth mismatched_pool mismatched_payload
  = ([mismatched_tx],
     [ {| VersionedHash := replicate 32 0; KZG := replicate 48 0;
          Blob := good_blob; Proof := replicate 48 0 |} ],
     None).
Proof. reflexivity. Qed.

Lemma GetBlobDataInPayload_success_witness :
  GetBlobDataInPayload toy_geth mismatched_pool mismatched_payload
  = ([mismatched_tx],
     [ {| VersionedHash := replicate 32 0; KZG := replicate 48 0;
          Blob := good_blob; Proof := replicate 48 0 |} ],
     None) ∧
  length [ {| VersionedHash := replicate 32 0; KZG := replicate 48 0;
              Blob := good_blob; Proof := replicate 48 0 |} ]
  = sum_list_with (λ blobTx, length (BlobHashes blobTx)) [mismatched_tx].
Proof.
  split; [exact mismatched_run|].
  exact (proj2 (proj2 (proj2
           (GetBlobDataInPayload_success toy_geth mismatched_pool
              mismatched_payload _ _ mismatched_run)))).
Defined.

Lemma missing_run :
  (GetBlobDataInPayload toy_geth {| Transactions := ∅ |} mismatched_payload).2
  = Some "could not find transaction 0x07 in the pool"%string.
Proof. reflexivity. Qed.

Lemma GetBlobDataInPayload_atomic_witness :
  (GetBlobDataInPayload toy_geth {| Transactions := ∅ |} mismatched_payload).2
  = Some "could not find transaction 0x07 in the pool"%string ∧
  GetBlobDataInPayload toy_geth {| Transactions := ∅ |} mismatched_payload
  = ([], [], Some "could not find transaction 0x07 in the pool"%string).
Proof.
  split; [exact missing_run|].
  exact (GetBlobDataInPayload_atomic toy_geth {| Transactions := ∅ |}
           mismatched_payload _ missing_run).
Defined.

End payload_data_witnesses.

Section commitment_failures.
Import types inputs.

Lemma commit_loop_fails (cryptoCtx : Context) (rest : Blobs) :
  ∀ (i : nat) (cs : list KZGCommitment) (hs : list Hash) (ps : list KZGProof),
  is_Some (commit_loop cryptoCtx i rest cs hs ps).2 ↔
  Exists (λ blob, ∃ e, fails_with cryptoCtx blob e) rest.
Proof.
  induction rest as [|blob rest IH]; intros i cs hs ps; simpl.
  - split; [intros [? [=]] | intros H; inversion H].
  - rewrite Exists_cons. unfold fails_with at 1.
    destruct (BlobToKZGCommitment cryptoCtx blob 1) as [c|e] eqn:Hc.
    2:{ split; [|by eauto]. intros _. left. exists e. by left. }
    destruct (ComputeBlobKZGProof cryptoCtx blob c 1) as [p|e] eqn:Hp.
    2:{ split; [|by eauto]. intros _. left. exists e. right. by exists c. }
    rewrite IH. split; [by right|].
    intros [(e & [[=] | (c' & [= <-] & Hp')])|]; [|done].
    rewrite Hp in Hp'. done.
Qed.

(** X20.  [ComputeCommitmentsAndProofs] returns an error if and only if
    the commitment or the proof of some blob fails, and no error if and
    only if both succeed for every blob. *)
Theorem ComputeCommitmentsAndProofs_fails_iff (blobs : Blobs) (cryptoCtx : Context) :
  (is_Some (ComputeCommitmentsAndProofs blobs cryptoCtx).2 ↔
   Exists (λ blob, ∃ e, fails_with cryptoCtx blob e) blobs) ∧
  ((ComputeCommitmentsAndProofs blobs cryptoCtx).2 = None ↔
   Forall (succeeds cryptoCtx) blobs).
Proof.
  assert (H : is_Some (ComputeCommitmentsAndProofs blobs cryptoCtx).2 ↔
              Exists (λ blob, ∃ e, fails_with cryptoCtx blob e) blobs)
    by apply commit_loop_fails.
  split; [exact H|].
  rewrite <- not_eq_None_Some in H.
  assert (Hno : Forall (succeeds cryptoCtx) blobs
                ↔ ¬ Exists (λ blob, ∃ e, fails_with cryptoCtx blob e) blobs).
  { rewrite <- Forall_Exists_neg. apply Forall_proper; [|done].
    intros blob. unfold succeeds, fails_with. split.
    - intros (c & p & Hc & Hp) (e & [He | (c' & Hc' & He)]); [congruence|].
      rewrite Hc in Hc'. injection Hc' as <-. congruence.
    - intros Hnot.
      destruct (BlobToKZGCommitment cryptoCtx blob 1) as [c|e] eqn:Hc;
        [|destruct Hnot; eauto].
      destruct (ComputeBlobKZGProof cryptoCtx blob c 1) as [p|e] eqn:Hp;
        [by eauto|]. destruct Hnot. exists e. right. eauto. }
  rewrite Hno, <- H.
  destruct ((ComputeCommitmentsAndProofs blobs cryptoCtx).2) as [e|].
  - split; [done|]. intros Hn. by destruct Hn.
  - split; [|done]. intros _ Hn. by apply Hn.
Qed.

End commitment_failures.

(** ** The text form of a blob *)

Section hex_text.
Import types helper inputs.
Local Opaque types.FieldElementsPerBlob.

Example hex_Decode_examples :
  hex_Decode [0; 0] 0 "aBfF" = ([0xab; 0xff], 2%nat, None) ∧
  hex_Decode [0; 0] 0 "abfg" = ([0xab; 0], 1%nat, Some (InvalidByteError "g")) ∧
  hex_Decode [0; 0] 0 "abc" = ([0xab; 0], 1%nat, Some ErrLength) ∧
  BytesToHash [1; 2] = replicate 30 0 ++ [1; 2] ∧
  BytesToHash (seqZ 0 33) = seqZ 1 32.
Proof. vm_compute. done. Qed.

Lemma fromHexChar_hex_digit (d : Z) :
  0 ≤ d < 16 → fromHexChar (hex_digit d) = d.
Proof.
  intros Hd.
  assert (Hcases : d ∈ seqZ 0 16) by (apply elem_of_seqZ; lia).
  vm_compute in Hcases.
  repeat (apply elem_of_cons in Hcases as [->|Hcases]; [reflexivity|]).
  by apply elem_of_nil in Hcases.
Qed.

Lemma nibbles_join (b : Z) :
  is_byte b → Z.lor (Z.shiftl (b / 16) 4) (b mod 16) = b.
Proof.
  intros Hb. unfold is_byte in Hb.
  rewrite Z.shiftl_mul_pow2 by lia.
  rewrite <- Z.add_nocarry_lor.
  - change (2 ^ 4) with 16. rewrite Z.mul_comm. symmetry. apply Z.div_mod. lia.
  - apply Z.bits_inj'. intros n Hn. rewrite Z.land_spec, Z.bits_0.
    destruct (Z.lt_ge_cases n 4).
    + rewrite Z.mul_pow2_bits_low by lia. done.
    + change 16 with (2 ^ 4). rewrite (Z.mod_pow2_bits_high _ 4 n) by lia.
      apply andb_false_r.
Qed.

Lemma hex_EncodeToString_length (bs : list Z) :
  String.length (hex_EncodeToString bs) = (2 * length bs)%nat.
Proof. induction bs as [|b bs IH]; simpl; [done|]. rewrite IH. lia. Qed.

Lemma hex_EncodeToString_cons (b : Z) (bs : list Z) :
  hex_EncodeToString (b :: bs)
  = String (hex_digit (b / 16)) (String (hex_digit (b mod 16)) (hex_EncodeToString bs)).
Proof. reflexivity. Qed.

Lemma append_String (c : ascii) (s rest : string) :
  String.append (String c s) rest = String c (String.append s rest).
Proof. reflexivity. Qed.

Lemma hex_Decode_pair (dst : list Z) (i : nat) (p q : ascii) (src : string) :
  hex_Decode dst i (String p (String q src))
  = if 0x0f <? fromHexChar p then (dst, i, Some (InvalidByteError p))
    else if 0x0f <? fromHexChar q then (dst, i, Some (InvalidByteError q))
    else hex_Decode (<[i := Z.lor (Z.shiftl (fromHexChar p) 4) (fromHexChar q)]> dst)
           (S i) src.
Proof. reflexivity. Qed.

(** Decoding the text of [bs]: the bytes overwrite the buffer from index
    [length pre] on, and decoding goes on with what follows the text. *)
Lemma hex_Decode_encoded (bs : list Z) :
  ∀ (pre old : list Z) (rest : string),
  Forall is_byte bs → (length bs ≤ length old)%nat →
  hex_Decode (pre ++ old) (length pre) (String.append (hex_EncodeToString bs) rest)
  = hex_Decode (pre ++ bs ++ drop (length bs) old) (length pre + length bs) rest.
Proof.
  induction bs as [|b bs IH]; intros pre old rest Hbytes Hlen.
  - simpl. by rewrite Nat.add_0_r, drop_0.
  - apply Forall_cons in Hbytes as [Hb Hbytes].
    destruct old as [|o old]; [simpl in Hlen; lia|]. simpl in Hlen.
    rewrite hex_EncodeToString_cons, !append_String.
    rewrite hex_Decode_pair.
    assert (H16 : 0 ≤ b / 16 < 16).
    { unfold is_byte in Hb. split; [apply Z.div_pos; lia|].
      apply Z.div_lt_upper_bound; lia. }
    assert (Hm : 0 ≤ b mod 16 < 16) by (apply Z.mod_pos_bound; lia).
    rewrite !fromHexChar_hex_digit by done.
    destruct (Z.ltb_spec 15 (b / 16)); [lia|].
    destruct (Z.ltb_spec 15 (b mod 16)); [lia|].
    rewrite nibbles_join by done.
    rewrite insert_app_r_alt by lia.
    rewrite Nat.sub_diag. cbn [insert list_insert].
    replace (pre ++ b :: old) with ((pre ++ [b]) ++ old) by (by rewrite <- app_assoc).
    replace (S (length pre)) with (length (pre ++ [b]))
      by (rewrite length_app; simpl; lia).
    rewrite IH by (done || lia).
    rewrite length_app. cbn [length drop].
    rewrite <- !app_assoc. cbn [app].
    f_equal; lia.
Qed.

Lemma blob_size_positive : (0 < types.blob_size)%nat.
Proof. pose proof chunk_7_in_range. unfold types.blob_size. lia. Qed.

Lemma fresh_blob_bytes : Forall is_byte fresh_blob.
Proof. apply Forall_replicate. unfold is_byte. lia. Qed.

Section with_error_text.

Variable InvalidByteError_Error : ascii → error.

Lemma UnmarshalText_prefixed (old : Blob) (hexText : string) :
  String.length hexText = (FieldElementsPerBlob * 32 * 2)%nat →
  Blob_UnmarshalText InvalidByteError_Error (Some old)
    (String "0" (String "x" hexText))
  = match hex_Decode old 0 hexText with
    | (blob, _, Some err) =>
        (Some blob,
         Some (String.append "blob is not formatted correctly: "
                 (hex_error_Error InvalidByteError_Error err)))
    | (blob, _, None) => (Some blob, None)
    end.
Proof.
  intros Hlen. unfold Blob_UnmarshalText. cbn [String.length].
  rewrite Hlen.
  replace (S (S (FieldElementsPerBlob * 32 * 2))
           =? 2 + FieldElementsPerBlob * 32 * 2)%nat with true
    by (symmetry; apply Nat.eqb_eq; lia).
  cbn [negb]. reflexivity.
Qed.

(** X21.  Round trip of the text form: [UnmarshalText] applied to the
    text that [MarshalText] gives for a blob succeeds and sets the
    receiver, whatever it held, to that blob. *)
Theorem Blob_text_roundtrip (blob old : Blob) :
  length blob = blob_size → Forall is_byte blob → length old = blob_size →
  Blob_UnmarshalText InvalidByteError_Error (Some old) (Blob_MarshalText blob).1
  = (Some blob, None).
Proof.
  intros Hblob Hbytes Hold. unfold Blob_MarshalText. cbn [fst].
  change (String.append "0x" (hex_EncodeToString blob))
    with (String "0" (String "x" (hex_EncodeToString blob))).
  rewrite UnmarshalText_prefixed
    by (rewrite hex_EncodeToString_length, Hblob; unfold blob_size; lia).
  pose proof (hex_Decode_encoded blob [] old EmptyString Hbytes ltac:(lia)) as H.
  rewrite app_nil_l in H.
  assert (Hnil : String.append (hex_EncodeToString blob) EmptyString
                 = hex_EncodeToString blob).
  { generalize (hex_EncodeToString blob). intros s.
    induction s as [|c s IH]; [done|]. by rewrite append_String, IH. }
  rewrite Hnil in H. cbn [length] in H. rewrite H.
  cbn [hex_Decode]. rewrite drop_ge by lia. by rewrite app_nil_l, app_nil_r.
Qed.

(** X22.  A failed [UnmarshalText] does not leave the receiver as it was:
    when the text has the right length and prefix and its first character
    that is not a hexadecimal digit is the first of a pair, the bytes
    decoded before that pair have overwritten the start of the blob, and
    the error is "blob is not formatted correctly: " followed by the text
    of the invalid-byte error for that character. *)
Theorem Blob_UnmarshalText_partial (old bs : list Z) (c : ascii) (rest : string) :
  length old = blob_size → Forall is_byte bs → 0x0f < fromHexChar c →
  (2 * length bs + 1 + String.length rest = FieldElementsPerBlob * 32 * 2)%nat →
  Blob_UnmarshalText InvalidByteError_Error (Some old)
    (String.append "0x" (String.append (hex_EncodeToString bs) (String c rest)))
  = (Some (bs ++ drop (length bs) old),
     Some (String.append "blob is not formatted correctly: "
             (InvalidByteError_Error c))).
Proof.
  intros Hold Hbytes Hc Hlen.
  change (String.append "0x" ?s) with (String "0" (String "x" s)).
  assert (Happ : ∀ s t, String.length (String.append s t)
                        = (String.length s + String.length t)%nat).
  { intros s t. induction s as [|a s IH]; [done|].
    rewrite append_String. cbn [String.length]. by rewrite IH. }
  rewrite UnmarshalText_prefixed
    by (rewrite Happ, hex_EncodeToString_length; cbn [String.length]; lia).
  pose proof (hex_Decode_encoded bs [] old (String c rest) Hbytes) as H.
  rewrite app_nil_l in H. cbn [length] in H.
  rewrite H by (unfold blob_size in Hold; lia).
  assert (Hbad : ∀ dst i, hex_Decode dst i (String c rest)
                          = (dst, i, Some (InvalidByteError c))).
  { intros dst i. destruct rest as [|q rest'].
    - cbn [hex_Decode]. by destruct (Z.ltb_spec 15 (fromHexChar c)); [|lia].
    - rewrite hex_Decode_pair. by destruct (Z.ltb_spec 15 (fromHexChar c)); [|lia]. }
  rewrite Hbad. by rewrite app_nil_l.
Qed.

Lemma hex_Decode_accepts (n : nat) :
  ∀ (src : string) (dst : list Z) (i : nat),
  (String.length src ≤ n)%nat →
  (hex_Decode dst i src).2 = None ↔
  Nat.Even (String.length src) ∧
  Forall (λ c, fromHexChar c ≤ 0x0f) (list_ascii_of_string src).
Proof.
  induction n as [|n IH]; intros src dst i Hn.
  - destruct src; [|simpl in Hn; lia]. simpl. split; [|done].
    intros _. split; [by exists 0%nat | constructor].
  - destruct src as [|p [|q src]].
    + simpl. split; [|done]. intros _. split; [by exists 0%nat | constructor].
    + cbn [hex_Decode]. split.
      * by destruct (0x0f <? fromHexChar p).
      * intros [[k Hk] _]. simpl in Hk. lia.
    + rewrite hex_Decode_pair. cbn [String.length list_ascii_of_string].
      rewrite !Forall_cons.
      destruct (Z.ltb_spec 15 (fromHexChar p)).
      { split; [done|]. intros (_ & ? & _). lia. }
      destruct (Z.ltb_spec 15 (fromHexChar q)).
      { split; [done|]. intros (_ & _ & ? & _). lia. }
      rewrite IH by (simpl in Hn; lia). split.
      * intros [[k Hk] Hall]. split; [exists (S k); lia | done].
      * intros [[k Hk] (_ & _ & Hall)]. split; [exists (k - 1)%nat; lia | done].
Qed.

Lemma string_from_length (n : nat) :
  ∀ text : string, (n ≤ String.length text)%nat →
  String.length (string_from n text) = (String.length text - n)%nat.
Proof.
  induction n as [|n IH]; intros text Hn; simpl.
  - lia.
  - destruct text as [|c text]; simpl in *; [lia|]. apply IH. lia.
Qed.

(** X23.  [UnmarshalText] on a blob returns no error if and only if the
    text has exactly [2 + 4096 * 32 * 2] characters, starts with "0x" and
    has only hexadecimal digits, of either case, after the prefix. *)
Theorem Blob_UnmarshalText_accepts (old : Blob) (text : string) :
  length old = blob_size →
  (Blob_UnmarshalText InvalidByteError_Error (Some old) text).2 = None ↔
  String.length text = (2 + FieldElementsPerBlob * 32 * 2)%nat ∧
  char_at text 0 = "0"%char ∧ char_at text 1 = "x"%char ∧
  Forall (λ c, fromHexChar c ≤ 0x0f) (list_ascii_of_string (string_from 2 text)).
Proof.
  intros _. unfold Blob_UnmarshalText. cbv zeta.
  destruct (Nat.eqb_spec (String.length text) (2 + FieldElementsPerBlob * 32 * 2))
    as [Hlen|Hlen]; cbn [negb]; [|split; [done | by intros [? _]]].
  destruct (Ascii.eqb_spec (char_at text 0) "0") as [H0|H0]; cbn [andb negb];
    [|split; [done | by intros (_ & ? & _)]].
  destruct (Ascii.eqb_spec (char_at text 1) "x") as [H1|H1]; cbn [andb negb];
    [|split; [done | by intros (_ & _ & ? & _)]].
  pose proof (hex_Decode_accepts (String.length (string_from 2 text))
                (string_from 2 text) old 0 ltac:(lia)) as H.
  destruct (hex_Decode old 0 (string_from 2 text)) as [[blob n] [err|]];
    cbn [snd] in *.
  - split; [done|]. intros (_ & _ & _ & Hall).
    assert (Hnone : Some err = None); [|done].
    apply H. split; [|done].
    rewrite string_from_length by lia. exists (FieldElementsPerBlob * 32)%nat. lia.
  - split; [|done]. intros _. repeat split; try done. by apply H.
Qed.

End with_error_text.

Lemma Blob_text_roundtrip_witness :
  length fresh_blob = blob_size ∧ Forall is_byte fresh_blob ∧
  length bad_blob = blob_size ∧
  Blob_UnmarshalText (λ _, "invalid byte"%string) (Some bad_blob)
    (Blob_MarshalText fresh_blob).1
  = (Some fresh_blob, None).
Proof.
  split; [exact fresh_blob_length|]. split; [exact fresh_blob_bytes|].
  split; [exact bad_blob_length|].
  exact (Blob_text_roundtrip (λ _, "invalid byte"%string) fresh_blob bad_blob
           fresh_blob_length fresh_blob_bytes bad_blob_length).
Defined.

Lemma Blob_UnmarshalText_accepts_witness :
  length fresh_blob = blob_size ∧
  (Blob_UnmarshalText (λ _, "invalid byte"%string) (Some fresh_blob) "0x00").2
  ≠ None.
Proof.
  split; [exact fresh_blob_length|]. intros H.
  apply (Blob_UnmarshalText_accepts (λ _, "invalid byte"%string) fresh_blob "0x00"
           fresh_blob_length) in H as [Hlen _].
  cbn [String.length] in Hlen. pose proof chunk_7_in_range. lia.
Defined.

Lemma string_of_list_ascii_length (l : list ascii) :
  String.length (string_of_list_ascii l) = length l.
Proof. induction l as [|c l IH]; simpl; [done|]. by rewrite IH. Qed.

Lemma broken_blob_text_length :
  (2 * length [0xab] + 1
   + String.length (string_of_list_ascii
                      (replicate (FieldElementsPerBlob * 32 * 2 - 3) "0"%char))
   = FieldElementsPerBlob * 32 * 2)%nat.
Proof.
  rewrite string_of_list_ascii_length, length_replicate. cbn [length].
  pose proof chunk_7_in_range. lia.
Qed.

Lemma Blob_UnmarshalText_partial_witness :
  length fresh_blob = blob_size ∧ Forall is_byte [0xab] ∧
  0x0f < fromHexChar "g" ∧
  Blob_UnmarshalText (λ _, "invalid byte"%string) (Some fresh_blob) broken_blob_text
  = (Some ([0xab] ++ drop 1 fresh_blob),
     Some "blob is not formatted correctly: invalid byte"%string).
Proof.
  assert (Hbytes : Forall is_byte [0xab])
    by (repeat constructor; unfold is_byte; lia).
  assert (Hbad : 0x0f < fromHexChar "g") by reflexivity.
  split; [exact fresh_blob_length|]. split; [exact Hbytes|].
  split; [exact Hbad|].
  exact (Blob_UnmarshalText_partial (λ _, "invalid byte"%string) fresh_blob [0xab]
           "g" _ fresh_blob_length Hbytes Hbad broken_blob_text_length).
Defined.

End hex_text.

(** ** The genesis block of the Prague fork *)

Section prague_genesis.
Import prague.

Variable BEACON_ROOTS_ADDRESS : Address.

(** X24.  [ConfigGenesis] succeeds if and only if the Shanghai and the
    Cancun times are both set and neither is after the fork timestamp.
    When one of them is not set the genesis is left as it was; when both
    are set the Prague time is set to the fork timestamp, the other times
    being kept, even when the call then fails because the fork is before
    Shanghai or Cancun. *)
Theorem ConfigGenesis_fork_times (genesis : Genesis) (forkTimestamp : Z) :
  let result := ConfigGenesis BEACON_ROOTS_ADDRESS genesis forkTimestamp in
  (result.2 = None ↔
   ∃ shanghaiTime cancunTime,
     ShanghaiTime (Config genesis) = Some shanghaiTime ∧
     CancunTime (Config genesis) = Some cancunTime ∧
     shanghaiTime ≤ forkTimestamp ∧ cancunTime ≤ forkTimestamp) ∧
  (ShanghaiTime (Config genesis) = None ∨ CancunTime (Config genesis) = None →
   result.1 = genesis) ∧
  (is_Some (ShanghaiTime (Config genesis)) →
   is_Some (CancunTime (Config genesis)) →
   PragueTime (Config result.1) = Some forkTimestamp ∧
   ShanghaiTime (Config result.1) = ShanghaiTime (Config genesis) ∧
   CancunTime (Config result.1) = CancunTime (Config genesis) ∧
   DepositContractAddress (Config result.1)
   = DepositContractAddress (Config genesis) ∧
   Timestamp result.1 = Timestamp genesis).
Proof.
  unfold ConfigGenesis. cbv zeta.
  destruct (ShanghaiTime (Config genesis)) as [s|] eqn:Hs.
  2:{ split; [|split].
      - split; [done|]. by intros (? & ? & [=] & _).
      - done.
      - by intros [? [=]]. }
  destruct (CancunTime (Config genesis)) as [c|] eqn:Hc.
  2:{ split; [|split].
      - split; [done|]. by intros (? & ? & _ & [=] & _).
      - done.
      - by intros _ [? [=]]. }
  destruct (Z.ltb_spec forkTimestamp s) as [Hlt1|Hge1].
  { split; [|split].
    - split; [done|]. intros (? & ? & [= <-] & _ & ? & _). lia.
    - by intros [[=]|[=]].
    - intros _ _. cbn. by rewrite Hs, Hc. }
  destruct (Z.ltb_spec forkTimestamp c) as [Hlt2|Hge2].
  { split; [|split].
    - split; [done|]. intros (? & ? & _ & [= <-] & _ & ?). lia.
    - by intros [[=]|[=]].
    - intros _ _. cbn. by rewrite Hs, Hc. }
  split; [|split].
  - split; [|done]. intros _. by exists s, c.
  - by intros [[=]|[=]].
  - intros _ _. cbn [fst set_Alloc Config Timestamp].
    destruct (forkTimestamp <=? Timestamp
                (set_PragueTime genesis (Some forkTimestamp)));
      [destruct (BlobGasUsed (set_PragueTime genesis (Some forkTimestamp)));
       [destruct (ExcessBlobGas (set_PragueTime genesis (Some forkTimestamp)))
       |destruct (ExcessBlobGas
                    (set_BlobGasUsed (set_PragueTime genesis (Some forkTimestamp))
                       (Some 0)))]|];
      cbn; by rewrite Hs, Hc.
Qed.

(** X25.  When [ConfigGenesis] succeeds, the deposit generator is the
    account at the deposit contract address, the beacon roots contract is
    the account at its address unless that is also the deposit contract
    address, and every other account is as before; accounts that were at
    the two addresses are replaced.  For a genesis at or after the fork
    the two blob-gas fields are present afterwards, with their former value
    or zero; for an earlier genesis they are as before. *)
Theorem ConfigGenesis_allocations (genesis : Genesis) (forkTimestamp : Z) :
  let result := ConfigGenesis BEACON_ROOTS_ADDRESS genesis forkTimestamp in
  let deposit := DepositContractAddress (Config genesis) in
  result.2 = None →
  Alloc result.1 !! deposit
  = Some {| Balance := 0; Nonce := 1;
            Code := FromHex deposits_generator_code_hex |} ∧
  (BEACON_ROOTS_ADDRESS ≠ deposit →
   Alloc result.1 !! BEACON_ROOTS_ADDRESS
   = Some {| Balance := 0; Nonce := 1;
             Code := Hex2Bytes beacon_roots_code_hex |}) ∧
  (∀ address, address ≠ BEACON_ROOTS_ADDRESS → address ≠ deposit →
     Alloc result.1 !! address = Alloc genesis !! address) ∧
  BlobGasUsed result.1
  = (if forkTimestamp <=? Timestamp genesis
     then Some (default 0 (BlobGasUsed genesis)) else BlobGasUsed genesis) ∧
  ExcessBlobGas result.1
  = (if forkTimestamp <=? Timestamp genesis
     then Some (default 0 (ExcessBlobGas genesis)) else ExcessBlobGas genesis).
Proof.
  destruct genesis as [[s0 c0 p0 dep] ts u e al].
  unfold ConfigGenesis.
  cbn [Config ShanghaiTime CancunTime PragueTime DepositContractAddress
       Timestamp BlobGasUsed ExcessBlobGas Alloc].
  destruct s0 as [s|]; [|done]. destruct c0 as [c|]; [|done].
  cbv zeta.
  destruct (forkTimestamp <? s); [done|].
  destruct (forkTimestamp <? c); [done|].
  intros _.
  cbn [set_PragueTime Config ShanghaiTime CancunTime PragueTime
       DepositContractAddress Timestamp BlobGasUsed ExcessBlobGas Alloc].
  destruct (forkTimestamp <=? ts), u as [u|], e as [e|];
    cbn [fst set_Alloc set_BlobGasUsed set_ExcessBlobGas Config ShanghaiTime
         CancunTime PragueTime DepositContractAddress Timestamp BlobGasUsed
         ExcessBlobGas Alloc default from_option id];
    (split; [by rewrite lookup_insert_eq|]);
    (split; [intros Hne; rewrite lookup_insert_ne by done;
             by rewrite lookup_insert_eq|]);
    (split; [|done]); intros a Ha1 Ha2; by rewrite !lookup_insert_ne.
Qed.

End prague_genesis.

Section prague_witnesses.
Import prague inputs.

(** The two bytecode texts decode without error, to 97 and 1411 bytes. *)
Example prague_code_bytes :
  hex_DecodeString beacon_roots_code_hex
  = (Hex2Bytes beacon_roots_code_hex, None) ∧
  length (Hex2Bytes beacon_roots_code_hex) = 97%nat ∧
  String.length deposits_generator_code_hex = 2822%nat ∧
  length (FromHex deposits_generator_code_hex) = 1411%nat ∧
  take 4 (FromHex deposits_generator_code_hex) = [0x60; 0x80; 0x60; 0x40].
Proof. vm_compute. done. Qed.

Lemma cancun_genesis_configured :
  (ConfigGenesis sample_BEACON_ROOTS_ADDRESS cancun_genesis 0).2 = None.
Proof. reflexivity. Qed.

Lemma ConfigGenesis_allocations_witness :
  (ConfigGenesis sample_BEACON_ROOTS_ADDRESS cancun_genesis 0).2 = None ∧
  Alloc (ConfigGenesis sample_BEACON_ROOTS_ADDRESS cancun_genesis 0).1 !! 0
  = Some {| Balance := 0; Nonce := 1;
            Code := FromHex deposits_generator_code_hex |} ∧
  BlobGasUsed (ConfigGenesis sample_BEACON_ROOTS_ADDRESS cancun_genesis 0).1
  = Some 0.
Proof.
  split; [exact cancun_genesis_configured|].
  destruct (ConfigGenesis_allocations sample_BEACON_ROOTS_ADDRESS cancun_genesis 0
              cancun_genesis_configured) as (H1 & _ & _ & H4 & _).
  split; [exact H1 | exact H4].
Defined.

End prague_witnesses.

Section prague_test_accounts.
Import prague.

Variable DATAHASH_START_ADDRESS : Z.
Variable DATAHASH_ADDRESS_COUNT : Z.
Variable Address_Hex : Address → string.

Local Abbreviation datahash_address k := (BigToAddress (DATAHASH_START_ADDRESS + k)).
Local Abbreviation datahash_account :=
  {| Code := datahashCode; Balance := 0; Nonce := 0 |}.

Lemma datahash_address_inj (j k : Z) :
  0 ≤ DATAHASH_START_ADDRESS → 0 ≤ j → 0 ≤ k → Z.abs (j - k) < 2 ^ 160 →
  datahash_address j = datahash_address k → j = k.
Proof.
  intros Hs Hj Hk Hclose. unfold BigToAddress.
  rewrite !Z.abs_eq by lia. intros Heq.
  pose proof (Z.div_mod (DATAHASH_START_ADDRESS + j) (2 ^ 160) ltac:(lia)) as Dj.
  pose proof (Z.div_mod (DATAHASH_START_ADDRESS + k) (2 ^ 160) ltac:(lia)) as Dk.
  rewrite Heq in Dj.
  set (M := 2 ^ 160) in *.
  set (qj := (DATAHASH_START_ADDRESS + j) / M) in *.
  set (qk := (DATAHASH_START_ADDRESS + k) / M) in *.
  assert (Hdiff : j - k = M * (qj - qk)) by lia.
  assert (Hq : qj - qk = 0) by nia.
  lia.
Qed.

Lemma test_accounts_loop_spec (n : nat) :
  ∀ (i : Z) (alloc : gmap Address GenesisAccount),
  0 ≤ DATAHASH_START_ADDRESS → 0 ≤ i → Z.of_nat n ≤ 2 ^ 160 →
  match test_accounts_loop DATAHASH_START_ADDRESS Address_Hex i n alloc with
  | Panicked _ =>
      ∃ k, i ≤ k < i + Z.of_nat n ∧ is_Some (alloc !! datahash_address k)
  | Returned alloc' =>
      (∀ k, i ≤ k < i + Z.of_nat n →
         alloc !! datahash_address k = None ∧
         alloc' !! datahash_address k = Some datahash_account) ∧
      (∀ address, (∀ k, i ≤ k < i + Z.of_nat n → address ≠ datahash_address k) →
         alloc' !! address = alloc !! address)
  end.
Proof.
  induction n as [|n IH]; intros i alloc Hs Hi Hn; cbn [test_accounts_loop].
  - split; [intros k Hk; lia | done].
  - destruct (alloc !! datahash_address i) as [acct|] eqn:Hhere.
    { exists i. split; [lia|]. by rewrite Hhere. }
    specialize (IH (i + 1) (<[datahash_address i := datahash_account]> alloc)
                  Hs ltac:(lia) ltac:(lia)).
    assert (Hother : ∀ k, i + 1 ≤ k < i + 1 + Z.of_nat n →
                          datahash_address i ≠ datahash_address k).
    { intros k Hk Heq. apply datahash_address_inj in Heq; lia. }
    destruct (test_accounts_loop _ _ _ _ _) as [alloc'|msg].
    + destruct IH as [Hnew Hold]. split.
      * intros k Hk. destruct (decide (k = i)) as [->|Hne].
        -- split; [done|]. rewrite Hold by done. by rewrite lookup_insert_eq.
        -- destruct (Hnew k ltac:(lia)) as [H1 H2]. split; [|done].
           rewrite lookup_insert_ne in H1; [done|]. apply Hother. lia.
      * intros a Ha. rewrite Hold by (intros k Hk; apply Ha; lia).
        apply lookup_insert_ne. intros Heq. by apply (Ha i ltac:(lia)).
    + destruct IH as (k & Hk & Hsome). exists k. split; [lia|].
      rewrite lookup_insert_ne in Hsome; [done|]. by apply Hother.
Qed.

(** X26.  For a start address that is not negative and at most 2^160
    addresses, [ConfigTestAccounts] panics only if one of the addresses
    start, start + 1, ... is already allocated; when it returns, none was
    allocated, each of them now holds the account with the DATAHASH code,
    every other account and every other field of the genesis is as before,
    and the error is nil. *)
Theorem ConfigTestAccounts_result (genesis : Genesis) :
  0 ≤ DATAHASH_START_ADDRESS → DATAHASH_ADDRESS_COUNT ≤ 2 ^ 160 →
  match ConfigTestAccounts DATAHASH_START_ADDRESS DATAHASH_ADDRESS_COUNT
          Address_Hex genesis with
  | Panicked _ =>
      ∃ k, 0 ≤ k < DATAHASH_ADDRESS_COUNT ∧
           is_Some (Alloc genesis !! datahash_address k)
  | Returned (genesis', err) =>
      err = None ∧
      (∀ k, 0 ≤ k < DATAHASH_ADDRESS_COUNT →
         Alloc genesis !! datahash_address k = None ∧
         Alloc genesis' !! datahash_address k = Some datahash_account) ∧
      (∀ address,
         (∀ k, 0 ≤ k < DATAHASH_ADDRESS_COUNT → address ≠ datahash_address k) →
         Alloc genesis' !! address = Alloc genesis !! address) ∧
      Config genesis' = Config genesis ∧ Timestamp genesis' = Timestamp genesis ∧
      BlobGasUsed genesis' = BlobGasUsed genesis ∧
      ExcessBlobGas genesis' = ExcessBlobGas genesis
  end.
Proof.
  intros Hs Hcount. unfold ConfigTestAccounts.
  pose proof (test_accounts_loop_spec (Z.to_nat DATAHASH_ADDRESS_COUNT) 0
                (Alloc genesis) Hs ltac:(lia) ltac:(lia)) as H.
  destruct (test_accounts_loop _ _ _ _ _) as [alloc'|msg].
  - destruct H as [Hnew Hold]. split; [done|]. split; [|split; [|done]].
    + intros k Hk. apply Hnew. lia.
    + intros a Ha. apply Hold. intros k Hk. apply Ha. lia.
  - destruct H as (k & Hk & Hsome). exists k. split; [lia|done].
Qed.

End prague_test_accounts.

Section prague_test_witness.
Import prague inputs.

Lemma ConfigTestAccounts_result_witness :
  0 ≤ sample_DATAHASH_START_ADDRESS ∧ sample_DATAHASH_ADDRESS_COUNT ≤ 2 ^ 160 ∧
  match ConfigTestAccounts sample_DATAHASH_START_ADDRESS
          sample_DATAHASH_ADDRESS_COUNT sample_Address_Hex cancun_genesis with
  | Panicked _ => False
  | Returned (genesis', err) =>
      err = None ∧
      Alloc genesis' !! BigToAddress (sample_DATAHASH_START_ADDRESS + 999)
      = Some {| Code := datahashCode; Balance := 0; Nonce := 0 |}
  end.
Proof.
  assert (Hs : 0 ≤ sample_DATAHASH_START_ADDRESS) by (vm_compute; discriminate).
  assert (Hc : sample_DATAHASH_ADDRESS_COUNT ≤ 2 ^ 160) by (vm_compute; discriminate).
  split; [exact Hs|]. split; [exact Hc|].
  pose proof (ConfigTestAccounts_result sample_DATAHASH_START_ADDRESS
                sample_DATAHASH_ADDRESS_COUNT sample_Address_Hex cancun_genesis
                Hs Hc) as H.
  destruct (ConfigTestAccounts _ _ _ _) as [[genesis' err]|msg].
  - destruct H as (He & Hnew & _). split; [exact He|].
    apply (Hnew 999). unfold sample_DATAHASH_ADDRESS_COUNT. lia.
  - destruct H as (k & Hk & Hsome). simpl in Hsome.
    rewrite lookup_empty in Hsome. by destruct Hsome.
Defined.

End prague_test_witness.

(** ** Conversions of execution payloads *)

Section payload_conversions.
Import types_payload.

(** X27.  Version 1 payloads: [FromExecutableData] applied to
    [ToExecutableData] of a version 1 payload sets the receiver, whatever
    it held, to that payload.  On any payload [FromExecutableData] panics
    exactly when the withdrawals are not nil; it does not panic on blob-gas
    fields, which it drops: converting its result back gives a payload
    without them. *)
Theorem ExecutableDataV1_roundtrip (receiver edv1 : ExecutableDataV1)
    (ed : ExecutableData) :
  FromExecutableData receiver (ToExecutableData edv1) = Returned edv1 ∧
  ((∃ msg, FromExecutableData receiver ed = Panicked msg)
   ↔ is_Some (ed_Withdrawals ed)) ∧
  (∀ result, FromExecutableData receiver ed = Returned result →
     ed_Withdrawals (ToExecutableData result) = ed_Withdrawals ed ∧
     ed_BlobGasUsed (ToExecutableData result) = None ∧
     ed_ExcessBlobGas (ToExecutableData result) = None ∧
     FromExecutableData receiver (ToExecutableData result) = Returned result).
Proof.
  split; [by destruct edv1|]. split.
  - unfold FromExecutableData. destruct (ed_Withdrawals ed).
    + split; [by eauto | by eexists].
    + split; [by intros [? [=]] | by intros [? [=]]].
  - intros result. unfold FromExecutableData at 1.
    destruct (ed_Withdrawals ed); [done|]. intros [= <-]. done.
Qed.

(** X28.  [ToBeaconExecutableData] never fails, and converting its result
    back with [FromBeaconExecutableData] keeps the seventeen payload fields
    and resets the versioned hashes, the parent beacon block root, the
    execution requests and the payload attributes: the round trip gives
    the payload back exactly when these four were at their zero value. *)
Theorem BeaconExecutableData_roundtrip (pl : ExecutableData) :
  (ToBeaconExecutableData pl).2 = None ∧
  FromBeaconExecutableData (ToBeaconExecutableData pl).1
  = ({| ed_ParentHash := ed_ParentHash pl;
        ed_FeeRecipient := ed_FeeRecipient pl;
        ed_StateRoot := ed_StateRoot pl;
        ed_ReceiptsRoot := ed_ReceiptsRoot pl;
        ed_LogsBloom := ed_LogsBloom pl;
        ed_Random := ed_Random pl;
        ed_Number := ed_Number pl;
        ed_GasLimit := ed_GasLimit pl;
        ed_GasUsed := ed_GasUsed pl;
        ed_Timestamp := ed_Timestamp pl;
        ed_ExtraData := ed_ExtraData pl;
        ed_BaseFeePerGas := ed_BaseFeePerGas pl;
        ed_BlockHash := ed_BlockHash pl;
        ed_Transactions := ed_Transactions pl;
        ed_Withdrawals := ed_Withdrawals pl;
        ed_BlobGasUsed := ed_BlobGasUsed pl;
        ed_ExcessBlobGas := ed_ExcessBlobGas pl;
        ed_VersionedHashes := None;
        ed_ParentBeaconBlockRoot := None;
        ed_ExecutionRequests := [];
        ed_PayloadAttributes := zero_PayloadAttributes |}, None) ∧
  (FromBeaconExecutableData (ToBeaconExecutableData pl).1 = (pl, None)
   ↔ ed_VersionedHashes pl = None ∧ ed_ParentBeaconBlockRoot pl = None ∧
     ed_ExecutionRequests pl = [] ∧
     ed_PayloadAttributes pl = zero_PayloadAttributes).
Proof.
  split; [done|]. split; [done|].
  destruct pl. cbn. split.
  - intros [= -> -> -> ->]. done.
  - intros (-> & -> & -> & ->). done.
Qed.

End payload_conversions.

(** ** Transactions made by the creator *)

Section transaction_creator.
Import types helper suite_blobs helper_generator inputs.

Variable CryptoCtx : Context.
Variable globals_ChainID : Z.
Variable globals_GasPrice : option Z.
Variable globals_GasTipPrice : option Z.
Variable globals_VaultKey : PrivateKey.
Variable SignNewTx : PrivateKey → Z → BlobTx → result TxData.

(** X29.  Provided that signing keeps the blob hashes of a transaction,
    a transaction that [MakeTransaction] returns carries the wrap data and
    the hashes of one run of [BlobDataGenerator] for the creator's first
    blob identifier and blob count: its blob hashes are the versioned
    hashes of its recorded commitments, in order, and its hashes,
    commitments, blobs and proofs all have the length of the blob count. *)
Theorem MakeTransaction_consistent (tc : BlobTransactionCreator) (nonce : Z)
    (tx : Transaction) :
  (∀ key chainID sbtx signedTx,
     SignNewTx key chainID sbtx = Ok signedTx →
     tx_BlobHashes signedTx = btx_BlobHashes sbtx) →
  MakeTransaction CryptoCtx globals_ChainID globals_GasPrice globals_GasTipPrice
    globals_VaultKey SignNewTx tc nonce = (Some tx, None) →
  ∃ blobTx blobData,
    tx = WithBlobData blobTx ∧ BlobData blobTx = Some blobData ∧
    BlobDataGenerator CryptoCtx (tc_BlobID tc) (tc_BlobCount tc)
    = (Some (BlobHashes blobTx), Some blobData, None) ∧
    BlobHashes blobTx = wrap_versioned_hashes blobData ∧
    lengths_agree blobTx blobData ∧
    length (BlobHashes blobTx) = Z.to_nat (tc_BlobCount tc).
Proof.
  intros Hsigner. unfold MakeTransaction.
  destruct (BlobDataGenerator CryptoCtx (tc_BlobID tc) (tc_BlobCount tc))
    as [[hashes blobData] [err|]] eqn:Hgen; [done|].
  destruct (tc_To tc) as [address|]; [|done]. cbv zeta.
  destruct (SignNewTx _ _ _) as [signedTx|err] eqn:Hsign; [|done].
  intros [= <-]. apply Hsigner in Hsign. cbn [btx_BlobHashes] in Hsign.
  assert (Hshape : ∃ hs d, hashes = Some hs ∧ blobData = Some d).
  { unfold BlobDataGenerator in Hgen.
    destruct (generate_loop _ _ _ _ _ _) as [[blobs cs]|e]; [|done].
    destruct (ComputeCommitmentsAndProofs _ _) as [[[? ?] ps] [e|]]; [done|].
    injection Hgen as <- <-. eauto. }
  destruct Hshape as (hs & d & -> & ->). cbn [default from_option id] in Hsign.
  destruct (BlobDataGenerator_facts CryptoCtx _ _ _ _ Hgen)
    as (Lb & Lc & Lp & Hhashes & _).
  exists {| Tx := signedTx; BlobData := Some d |}, d.
  unfold lengths_agree, BlobHashes. cbn [Tx BlobData]. rewrite Hsign.
  split; [done|]. split; [done|]. split; [done|]. split; [done|].
  assert (Lh : length hs = length (Commitments d))
    by (by rewrite Hhashes; unfold wrap_versioned_hashes; rewrite length_fmap).
  split; [repeat split; lia | lia].
Qed.

End transaction_creator.

Section transaction_creator_witness.
Import types helper suite_blobs helper_generator inputs.

Lemma toy_signer_keeps_hashes :
  ∀ key chainID sbtx signedTx,
    toy_SignNewTx key chainID sbtx = Ok signedTx →
    tx_BlobHashes signedTx = btx_BlobHashes sbtx.
Proof. intros key chainID sbtx signedTx [= <-]. done. Qed.

Lemma one_blob_transaction :
  MakeTransaction picky_ctx 7 None None 1 toy_SignNewTx one_blob_creator 0
  = (Some (WithBlobData
             {| Tx := {| tx_Type := BlobTxType; tx_Hash := [7]; tx_Nonce := 0;
                         tx_BlobHashes :=
                           [ComputeVersionedHash (replicate 48 0)] |};
                BlobData := Some {| Blobs := [fresh_blob];
                                    Commitments := [replicate 48 0];
                                    Proofs := [replicate 48 0] |} |}),
     None).
Proof.
  unfold MakeTransaction, one_blob_creator. cbn [tc_BlobID tc_BlobCount].
  rewrite picky_BlobDataGenerator. reflexivity.
Qed.

Lemma MakeTransaction_consistent_witness :
  (∀ key chainID sbtx signedTx,
     toy_SignNewTx key chainID sbtx = Ok signedTx →
     tx_BlobHashes signedTx = btx_BlobHashes sbtx) ∧
  ∃ tx, MakeTransaction picky_ctx 7 None None 1 toy_SignNewTx one_blob_creator 0
        = (Some tx, None) ∧
    ∃ blobTx blobData,
      tx = WithBlobData blobTx ∧ BlobData blobTx = Some blobData ∧
      BlobHashes blobTx = wrap_versioned_hashes blobData ∧
      lengths_agree blobTx blobData.
Proof.
  split; [exact toy_signer_keeps_hashes|].
  eexists. split; [exact one_blob_transaction|].
  destruct (MakeTransaction_consistent picky_ctx 7 None None 1 toy_SignNewTx
              one_blob_creator 0 _ toy_signer_keeps_hashes one_blob_transaction)
    as (blobTx & blobData & H0 & H1 & _ & H3 & H4 & _).
  exists blobTx, blobData. done.
Defined.

End transaction_creator_witness.

(** ** A generated bundle passes its verification *)

Section generated_bundle.
Import types helper suite_blobs helper_generator inputs.
Local Opaque types.FieldElementsPerBlob.

Lemma by_index_id {A : Type} (d : A) (l : list A) (n : nat) :
  n = length l → (λ i : nat, default d (l !! i)) <$> seq 0 n = l.
Proof.
  intros ->. rewrite (fmap_by_index (λ x : A, x) d l). apply list_fmap_id.
Qed.

Lemma wrap_data_of_projections (hs : list Hash) (cs : list KZGCommitment)
    (bs : types.Blobs) (ps : list KZGProof) :
  length hs = length cs → length cs = length bs → length bs = length ps →
  KZG <$> wrap_data_of hs cs bs ps = cs ∧
  Blob <$> wrap_data_of hs cs bs ps = bs ∧
  Proof <$> wrap_data_of hs cs bs ps = ps ∧
  length (wrap_data_of hs cs bs ps) = length hs.
Proof.
  intros H1 H2 H3. unfold wrap_data_of.
  rewrite <- !list_fmap_compose, length_fmap, length_seq.
  split; [|split; [|split; [|done]]].
  - apply (by_index_id [] cs). exact H1.
  - apply (by_index_id [] bs). by rewrite H1.
  - apply (by_index_id [] ps). by rewrite H1, H2.
Qed.

(** X30.  The blobs bundle made of the wrap data of one successful run of
    [BlobDataGenerator] passes [VerifyBlobBundle] against the blob data of
    the same wrap data, when the step expects [blobCount] blobs (below
    2^63) and the identifiers [GetBlobList startBlobId blobCount]: every
    expected identifier is found among the generated blobs. *)
Theorem generated_bundle_verifies (CryptoCtx : Context) (startBlobId : BlobID)
    (blobCount : Z) (hashes : list Hash) (blobData : BlobTxWrapData)
    (step : NewPayloads) (payload : ExecutableData) :
  BlobDataGenerator CryptoCtx startBlobId blobCount
  = (Some hashes, Some blobData, None) →
  0 ≤ blobCount < 2 ^ 63 →
  ExpectedIncludedBlobCount step = blobCount →
  ExpectedBlobs step = GetBlobList startBlobId blobCount →
  VerifyBlobBundle step
    (wrap_data_of hashes (Commitments blobData) (Blobs blobData) (Proofs blobData))
    payload
    {| bundle_Commitments := Some (Commitments blobData);
       bundle_Blobs := Blobs blobData;
       bundle_Proofs := Proofs blobData |} = None.
Proof.
  intros Hgen Hcount Hexpected Hblobs.
  destruct (BlobDataGenerator_facts _ _ _ _ _ Hgen)
    as (Lb & Lc & Lp & Hhashes & Hverify).
  assert (Lh : length hashes = length (Commitments blobData))
    by (by rewrite Hhashes; unfold wrap_versioned_hashes; rewrite length_fmap).
  destruct (wrap_data_of_projections hashes (Commitments blobData)
              (Blobs blobData) (Proofs blobData))
    as (P1 & P2 & P3 & P4); [lia..|].
  apply VerifyBlobBundle_iff.
  unfold bundle_commitments. cbn [bundle_Commitments bundle_Blobs bundle_Proofs
                                  default from_option id].
  split; [done|]. split; [done|]. split; [done|]. split.
  - rewrite P4, Lh, Lc, Hexpected. unfold to_int.
    destruct (Z.ltb_spec blobCount (2 ^ 63)); lia.
  - rewrite Hblobs, GetBlobList_spec. apply Forall_fmap, Forall_forall.
    intros i Hi. apply elem_of_seq in Hi. cbn [compose].
    destruct (lookup_lt_is_Some_2 (Blobs blobData) i) as [blob Hb]; [lia|].
    destruct (Hverify i blob Hb) as [Hv _].
    apply Exists_exists.
    destruct (lookup_lt_is_Some_2
                (wrap_data_of hashes (Commitments blobData) (Blobs blobData)
                   (Proofs blobData)) i) as [d Hd]; [lia|].
    exists d. split; [by eapply list_elem_of_lookup_2|].
    assert (Hblob : Blob d = blob).
    { assert (H : (Blob <$> wrap_data_of hashes (Commitments blobData)
                     (Blobs blobData) (Proofs blobData)) !! i = Some (Blob d))
        by (by rewrite list_lookup_fmap, Hd).
      rewrite P2, Hb in H. by injection H. }
    rewrite Hblob, Hv. done.
Qed.

Lemma generated_bundle_verifies_witness :
  BlobDataGenerator picky_ctx 0 1
  = (Some [ComputeVersionedHash (replicate 48 0)],
     Some {| Blobs := [fresh_blob]; Commitments := [replicate 48 0];
             Proofs := [replicate 48 0] |},
     None) ∧
  0 ≤ 1 < 2 ^ 63 ∧
  ExpectedIncludedBlobCount blob_zero_expected = 1 ∧
  ExpectedBlobs blob_zero_expected = GetBlobList 0 1 ∧
  VerifyBlobBundle blob_zero_expected
    (wrap_data_of [ComputeVersionedHash (replicate 48 0)] [replicate 48 0]
       [fresh_blob] [replicate 48 0])
    pre_fork_payload
    {| bundle_Commitments := Some [replicate 48 0];
       bundle_Blobs := [fresh_blob];
       bundle_Proofs := [replicate 48 0] |} = None.
Proof.
  assert (Hrange : 0 ≤ 1 < 2 ^ 63) by lia.
  split; [exact picky_BlobDataGenerator|]. split; [exact Hrange|].
  split; [reflexivity|]. split; [reflexivity|].
  exact (generated_bundle_verifies picky_ctx 0 1 _ _ blob_zero_expected
           pre_fork_payload picky_BlobDataGenerator Hrange eq_refl eq_refl).
Defined.

End generated_bundle.
